(** * Contacts REST backend: a shallow embedding and its properties

    The development follows the layout of the repository:

    - [src/database/models.py]        -> modules [UserRole], [User], [Contact]
    - [src/schemas/*.py]              -> modules [ContactModel], [UserCreate], ...
    - the SQLAlchemy session          -> the [World] state and the [IO] monad
    - [src/repository/*.py]           -> modules [ContactRepository], [UserRepository]
    - [src/services/*.py]             -> modules [ContactService], [UserService]
    - [src/api/*.py]                  -> modules [ContactsApi], [AuthApi]

    Dates are proleptic Gregorian ordinals (Python's [date.toordinal]),
    datetimes are seconds on the server clock, both in [Z]. *)

From Stdlib Require Import ZArith List String Bool Lia Permutation Sorted.
Import ListNotations.

Local Open Scope Z_scope.

(* ------------------------------------------------------------------ *)
(** * Errors *)

(** [src/conf/messages.py]: the message constants the handlers refer to,
    kept symbolic; [Text] carries a detail string written inline. *)
Inductive Detail : Type :=
| USER_EMAIL_ALREADY_EXISTS
| USER_NAME_ALREADY_EXISTS
| INVALID_CREDENTIALS
| USER_NOT_CONFIRMED
| EMAIL_ALREADY_CONFIRMED
| EMAIL_CONFIRMED
| CHECK_YOUR_EMAIL
| EMAIL_NOT_CONFIRMED
| INVALID_OR_EXPIRED_TOKEN
| USER_WITH_SUCH_EMAIL_NOT_FOUND
| PASSWORD_CHANGED
| CONTACT_NOT_FOUND
| Text (s : string).

(** What a call can raise: FastAPI's [HTTPException], and the exceptions
    that escape from SQLAlchemy and from the Python runtime. *)
Inductive Exception : Type :=
| HTTPException (status_code : Z) (detail : Detail)
| IntegrityError
| MultipleResultsFound
| AttributeError
| OverflowError
| RequestValidationError.

Definition HTTP_400_BAD_REQUEST : Z := 400.
Definition HTTP_401_UNAUTHORIZED : Z := 401.
Definition HTTP_404_NOT_FOUND : Z := 404.
Definition HTTP_409_CONFLICT : Z := 409.

Inductive Outcome (A : Type) : Type :=
| Returns (a : A)
| Raises (e : Exception).
Arguments Returns {A} a.
Arguments Raises {A} e.

(* ------------------------------------------------------------------ *)
(** * [src/database/models.py] *)

Module UserRole.
Inductive t : Type := USER | ADMIN.
End UserRole.

Module User.
Record t : Type := mk {
  id : Z;
  username : string;
  email : string;
  hashed_password : string;
  created_at : Z;
  avatar : option string;
  confirmed : bool;
  role : UserRole.t
}.

Definition set_confirmed (u : t) (b : bool) : t :=
  mk (id u) (username u) (email u) (hashed_password u) (created_at u)
     (avatar u) b (role u).

Definition set_hashed_password (u : t) (p : string) : t :=
  mk (id u) (username u) (email u) p (created_at u)
     (avatar u) (confirmed u) (role u).

Definition set_avatar (u : t) (url : option string) : t :=
  mk (id u) (username u) (email u) (hashed_password u) (created_at u)
     url (confirmed u) (role u).
End User.

Module Contact.
(** [birth_date] and [info] are [option]s: [None] is SQL NULL.  The
    column [birth_date] is declared [nullable=False]; the storage layer
    enforces that on write (see [not_null_ok]). *)
Record t : Type := mk {
  id : Z;
  first_name : string;
  last_name : string;
  email : string;
  phone_number : string;
  birth_date : option Z;
  created_at : Z;
  updated_at : Z;
  user_id : Z;
  info : option string
}.

Definition option_eqb {A} (eqb : A -> A -> bool) (x y : option A) : bool :=
  match x, y with
  | Some a, Some b => eqb a b
  | None, None => true
  | _, _ => false
  end.

(** Whether two rows agree on the columns a request body can assign. *)
Definition same_attrs (c d : t) : bool :=
  String.eqb (first_name c) (first_name d)
  && String.eqb (last_name c) (last_name d)
  && String.eqb (email c) (email d)
  && String.eqb (phone_number c) (phone_number d)
  && option_eqb Z.eqb (birth_date c) (birth_date d)
  && option_eqb String.eqb (info c) (info d).

Definition set_updated_at (c : t) (now : Z) : t :=
  mk (id c) (first_name c) (last_name c) (email c) (phone_number c)
     (birth_date c) (created_at c) now (user_id c) (info c).
End Contact.

(* ------------------------------------------------------------------ *)
(** * [src/schemas/contacts.py], [src/schemas/users.py] *)

Module ContactModel.
(** The two optional fields remember whether the client set them:
    [None] is "unset" (dropped by [exclude_unset=True]), [Some None] is
    an explicit null, [Some (Some v)] a value. *)
Record t : Type := mk {
  first_name : string;
  last_name : string;
  email : string;
  phone_number : string;
  birth_date : option (option Z);
  info : option (option string)
}.
End ContactModel.

Module UserCreate.
Record t : Type := mk {
  username : string;
  email : string;
  password : string;
  role : UserRole.t
}.

Definition set_password (b : t) (p : string) : t :=
  mk (username b) (email b) p (role b).
End UserCreate.

Module ResetPassword.
Record t : Type := mk { email : string; password : string }.
End ResetPassword.

Module OAuth2PasswordRequestForm.
Record t : Type := mk { username : string; password : string }.
End OAuth2PasswordRequestForm.

(* ------------------------------------------------------------------ *)
(** * The session: state, clock and the [IO] monad *)

(** Modelled from the spec: [src/services/auth_service.py] is absent.  A
    token is "a self-contained signed bundle of claims (subject, optional
    auxiliary claim such as a pending password hash, expiry)".  The token
    string is represented by what it decodes to: the claims mapping, the
    expiry timestamp, and whether its signature verifies under the
    process-wide secret (a tampered or malformed string does not). *)
Record Token : Type := mkToken {
  claims : list (string * string);
  exp : Z;
  signature_ok : bool
}.

(** A background task queued with [background_tasks.add_task]. *)
Inductive Task : Type :=
| send_confirm_email_task (to_email username host : string)
| send_reset_password_email_task
    (to_email username host : string) (reset_token : Token).

(** The two tables, in storage order, and the queue of background tasks. *)
Record World : Type := mkWorld {
  users : list User.t;
  contacts : list Contact.t;
  tasks : list Task
}.

(** What a request reads from its surroundings: the clock
    ([datetime.now], [date.today]), the salt the hasher draws, and
    [request.base_url]. *)
Record Env : Type := mkEnv {
  now : Z;
  today : Z;
  salt : string;
  base_url : string
}.

Definition IO (A : Type) : Type := World -> Outcome A * World.

Definition ret {A} (a : A) : IO A := fun w => (Returns a, w).

Definition raise {A} (e : Exception) : IO A := fun w => (Raises e, w).

Definition bind {A B} (m : IO A) (k : A -> IO B) : IO B :=
  fun w =>
    match m w with
    | (Returns a, w') => k a w'
    | (Raises e, w') => (Raises e, w')
    end.

Declare Scope io_scope.
Delimit Scope io_scope with io.
Notation "x <- m ;; k" := (bind m (fun x => k))
  (at level 61, m at next level, right associativity) : io_scope.
Notation "m ;;; k" := (bind m (fun _ => k))
  (at level 61, right associativity) : io_scope.
Local Open Scope io_scope.

(** [Result.scalar_one_or_none()]: no row gives [None], one row gives
    that row, more rows raise [MultipleResultsFound]. *)
Definition scalar_one_or_none {A} (rows : list A) : IO (option A) :=
  match rows with
  | [] => ret None
  | [x] => ret (Some x)
  | _ :: _ :: _ => raise MultipleResultsFound
  end.

(** [Result.scalars().first()]. *)
Definition first {A} (rows : list A) : option A :=
  match rows with
  | [] => None
  | x :: _ => Some x
  end.

Definition select_users (where_ : User.t -> bool) : IO (list User.t) :=
  fun w => (Returns (filter where_ (users w)), w).

Definition select_contacts (where_ : Contact.t -> bool) : IO (list Contact.t) :=
  fun w => (Returns (filter where_ (contacts w)), w).

(** The next value of an integer primary key: one above the largest
    key in the table. *)
Definition next_id (ids : list Z) : Z := 1 + fold_right Z.max 0 ids.

(** ** Constraints of the [contacts] table

    [email] and [phone_number] are declared [unique=True] and
    [birth_date] is declared [nullable=False]; a flush that would break
    one of them raises [IntegrityError] and changes nothing. *)
Definition unique_ok (row : Contact.t) (table : list Contact.t) : bool :=
  negb (existsb
          (fun r =>
             negb (Contact.id r =? Contact.id row)
             && (String.eqb (Contact.email r) (Contact.email row)
                 || String.eqb (Contact.phone_number r) (Contact.phone_number row)))
          table).

Definition not_null_ok (row : Contact.t) : bool :=
  match Contact.birth_date row with
  | Some _ => true
  | None => false
  end.

Definition set_contacts (w : World) (l : list Contact.t) : World :=
  mkWorld (users w) l (tasks w).

Definition set_users (w : World) (l : list User.t) : World :=
  mkWorld l (contacts w) (tasks w).

Definition add_task (t : Task) : IO unit :=
  fun w => (Returns tt, mkWorld (users w) (contacts w) (tasks w ++ [t])).

(** [db.add(contact); db.commit(); db.refresh(contact)]: the INSERT
    assigns the primary key and the two timestamp defaults. *)
Definition insert_contact (env : Env)
    (first_name last_name email phone_number : string)
    (birth_date : option Z) (info : option string) (user_id : Z)
  : IO Contact.t :=
  fun w =>
    let row :=
      Contact.mk (next_id (map Contact.id (contacts w)))
                 first_name last_name email phone_number birth_date
                 (now env) (now env) user_id info in
    if not_null_ok row && unique_ok row (contacts w)
    then (Returns row, set_contacts w (contacts w ++ [row]))
    else (Raises IntegrityError, w).

Definition replace_contact (row : Contact.t) (table : list Contact.t)
  : list Contact.t :=
  map (fun r => if Contact.id r =? Contact.id row then row else r) table.

(** [db.commit(); db.refresh(contact)] after attribute assignments that
    turned the loaded row [old] into [new]: when nothing changed no
    UPDATE is sent; otherwise the UPDATE also refreshes [updated_at]
    ([onupdate=func.now()]). *)
Definition flush_contact (env : Env) (old new : Contact.t) : IO Contact.t :=
  fun w =>
    if Contact.same_attrs old new then (Returns old, w)
    else
      let row := Contact.set_updated_at new (now env) in
      if not_null_ok row && unique_ok row (contacts w)
      then (Returns row, set_contacts w (replace_contact row (contacts w)))
      else (Raises IntegrityError, w).

(** [db.delete(contact); db.commit()]. *)
Definition delete_contact (row : Contact.t) : IO unit :=
  fun w =>
    (Returns tt,
     set_contacts w
       (filter (fun r => negb (Contact.id r =? Contact.id row)) (contacts w))).

(* ------------------------------------------------------------------ *)
(** * What the listing query leaves to the database

    [Column.contains(x)] is rendered as [LIKE '%' || x || '%'] and is
    evaluated by the database (its wildcards, its collation); a negative
    OFFSET or LIMIT is refused by some databases and read as "none" by
    others.  Both are parameters. *)
Class Backend : Type := {
  contains : string -> string -> bool;   (* column value, searched text *)
  negative_paging :
    Z -> Z -> list Contact.t -> Outcome (list Contact.t)
                                         (* skip, limit, selected rows *)
}.

(* ------------------------------------------------------------------ *)
(** * [src/repository/contacts_repository.py] *)

Module ContactRepository.

(** [.offset(skip).limit(limit)] on the selected rows. *)
Definition offset_limit `{Backend} (skip limit : Z) (rows : list Contact.t)
  : IO (list Contact.t) :=
  if (0 <=? skip) && (0 <=? limit)
  then ret (firstn (Z.to_nat limit) (skipn (Z.to_nat skip) rows))
  else fun w => (negative_paging skip limit rows, w).

Definition get_contacts `{Backend} (first_name last_name email : string)
    (skip limit : Z) (user : User.t) : IO (list Contact.t) :=
  rows <- select_contacts
            (fun c => (Contact.user_id c =? User.id user)
                      && contains (Contact.first_name c) first_name
                      && contains (Contact.last_name c) last_name
                      && contains (Contact.email c) email) ;;
  offset_limit skip limit rows.

(** [select(Contact).filter_by(id=contact_id, user=user)]. *)
Definition get_contact_by_id (contact_id : Z) (user : User.t)
  : IO (option Contact.t) :=
  rows <- select_contacts
            (fun c => (Contact.id c =? contact_id)
                      && (Contact.user_id c =? User.id user)) ;;
  scalar_one_or_none rows.

(** The row is built from [body.model_dump(exclude_unset=True)] and
    [user]: a field the client left unset is not passed and stays
    NULL. *)
Definition create_contact (env : Env) (body : ContactModel.t) (user : User.t)
  : IO Contact.t :=
  insert_contact env
    (ContactModel.first_name body) (ContactModel.last_name body)
    (ContactModel.email body) (ContactModel.phone_number body)
    (match ContactModel.birth_date body with Some v => v | None => None end)
    (match ContactModel.info body with Some v => v | None => None end)
    (User.id user).

(** The [setattr] loop over [body.dict(exclude_unset=True)]. *)
Definition setattrs (contact : Contact.t) (body : ContactModel.t) : Contact.t :=
  Contact.mk (Contact.id contact)
    (ContactModel.first_name body) (ContactModel.last_name body)
    (ContactModel.email body) (ContactModel.phone_number body)
    (match ContactModel.birth_date body with
     | Some v => v
     | None => Contact.birth_date contact
     end)
    (Contact.created_at contact) (Contact.updated_at contact)
    (Contact.user_id contact)
    (match ContactModel.info body with
     | Some v => v
     | None => Contact.info contact
     end).

Definition update_contact (env : Env) (contact_id : Z)
    (body : ContactModel.t) (user : User.t) : IO (option Contact.t) :=
  contact <- get_contact_by_id contact_id user ;;
  match contact with
  | Some c =>
      c' <- flush_contact env c (setattrs c body) ;;
      ret (Some c')
  | None => ret None
  end.

Definition remove_contact (contact_id : Z) (user : User.t)
  : IO (option Contact.t) :=
  contact <- get_contact_by_id contact_id user ;;
  match contact with
  | Some c => delete_contact c ;;; ret (Some c)
  | None => ret None
  end.

(** The [user] argument is not used by the query. *)
Definition is_contact_exists (email phone_number : string) (user : User.t)
  : IO bool :=
  rows <- select_contacts
            (fun c => String.eqb (Contact.email c) email
                      || String.eqb (Contact.phone_number c) phone_number) ;;
  ret (match first rows with Some _ => true | None => false end).

(** ** Dates

    [date] values range over the ordinals of 0001-01-01 .. 9999-12-31
    and [timedelta] over +-999999999 days; outside, Python raises
    [OverflowError]. *)
Definition MINORDINAL : Z := 1.
Definition MAXORDINAL : Z := 3652059.
Definition MAX_DELTA_DAYS : Z := 999999999.

Definition timedelta (days : Z) : IO Z :=
  if Z.abs days <=? MAX_DELTA_DAYS then ret days else raise OverflowError.

Definition date_add (d delta : Z) : IO Z :=
  if (MINORDINAL <=? d + delta) && (d + delta <=? MAXORDINAL)
  then ret (d + delta)
  else raise OverflowError.

(** [ORDER BY birth_date ASC]: a stable insertion sort on the column;
    NULL sorts first (the filter below lets no NULL through). *)
Definition date_leb (x y : option Z) : bool :=
  match x, y with
  | None, _ => true
  | Some _, None => false
  | Some a, Some b => a <=? b
  end.

Fixpoint insert_by_birth_date (c : Contact.t) (l : list Contact.t)
  : list Contact.t :=
  match l with
  | [] => [c]
  | d :: l' =>
      if date_leb (Contact.birth_date c) (Contact.birth_date d)
      then c :: d :: l'
      else d :: insert_by_birth_date c l'
  end.

Definition order_by_birth_date (l : list Contact.t) : list Contact.t :=
  fold_right insert_by_birth_date [] l.

(** The WHERE clause of the birthday query. *)
Definition birthday_between (lo hi : Z) (c : Contact.t) : bool :=
  match Contact.birth_date c with
  | None => false
  | Some d => (lo <=? d) && (d <=? hi)
  end.

(** The [user] argument is not used by the query. *)
Definition get_upcoming_birthdays (env : Env) (days : Z) (user : User.t)
  : IO (list Contact.t) :=
  delta <- timedelta days ;;
  upcoming_date <- date_add (today env) delta ;;
  rows <- select_contacts (birthday_between (today env) upcoming_date) ;;
  ret (order_by_birth_date rows).

End ContactRepository.

(* ------------------------------------------------------------------ *)
(** * [src/services/contacts_service.py] *)

Module ContactService.

Definition duplicate_detail (email phone_number : string) : Detail :=
  Text (String.append "Contact with '"
         (String.append email
           (String.append "' email or '"
             (String.append phone_number
                "' phone number already exists.")))).

Definition create_contact (env : Env) (body : ContactModel.t) (user : User.t)
  : IO Contact.t :=
  found <- ContactRepository.is_contact_exists
             (ContactModel.email body) (ContactModel.phone_number body) user ;;
  if found : bool
  then raise (HTTPException HTTP_400_BAD_REQUEST
                (duplicate_detail (ContactModel.email body)
                                  (ContactModel.phone_number body)))
  else ContactRepository.create_contact env body user.

Definition get_contacts `{Backend} (first_name last_name email : string)
    (skip limit : Z) (user : User.t) : IO (list Contact.t) :=
  ContactRepository.get_contacts first_name last_name email skip limit user.

Definition get_contact (contact_id : Z) (user : User.t)
  : IO (option Contact.t) :=
  ContactRepository.get_contact_by_id contact_id user.

Definition update_contact (env : Env) (contact_id : Z)
    (body : ContactModel.t) (user : User.t) : IO (option Contact.t) :=
  ContactRepository.update_contact env contact_id body user.

Definition remove_contact (contact_id : Z) (user : User.t)
  : IO (option Contact.t) :=
  ContactRepository.remove_contact contact_id user.

Definition get_upcoming_birthdays (env : Env) (days : Z) (user : User.t)
  : IO (list Contact.t) :=
  ContactRepository.get_upcoming_birthdays env days user.

End ContactService.

(* ------------------------------------------------------------------ *)
(** * [src/api/contacts.py]

    [user] is what the [get_current_user] dependency resolved the bearer
    token to. *)

Module ContactsApi.

Definition or_404 (contact : option Contact.t) : IO Contact.t :=
  match contact with
  | None => raise (HTTPException HTTP_404_NOT_FOUND CONTACT_NOT_FOUND)
  | Some c => ret c
  end.

(** [days: int = Query(default=7, ge=1)]. *)
Definition get_upcoming_birthdays (env : Env) (days : Z) (user : User.t)
  : IO (list Contact.t) :=
  if days <? 1 then raise RequestValidationError
  else ContactService.get_upcoming_birthdays env days user.

(** The defaults of the route are [""] for the three filters, [0] for
    [skip] and [100] for [limit]. *)
Definition get_contacts `{Backend} (first_name last_name email : string)
    (skip limit : Z) (user : User.t) : IO (list Contact.t) :=
  ContactService.get_contacts first_name last_name email skip limit user.

Definition get_contact (contact_id : Z) (user : User.t) : IO Contact.t :=
  contact <- ContactService.get_contact contact_id user ;;
  or_404 contact.

Definition create_contact (env : Env) (body : ContactModel.t) (user : User.t)
  : IO Contact.t :=
  ContactService.create_contact env body user.

Definition update_contact (env : Env) (body : ContactModel.t)
    (contact_id : Z) (user : User.t) : IO Contact.t :=
  contact <- ContactService.update_contact env contact_id body user ;;
  or_404 contact.

Definition remove_contact (contact_id : Z) (user : User.t) : IO Contact.t :=
  contact <- ContactService.remove_contact contact_id user ;;
  or_404 contact.

End ContactsApi.

(* ------------------------------------------------------------------ *)
(** * Collaborators whose code is outside the repository sources *)

(** [src/services/auth_service.py], class [Hash]: the two methods are
    parameters.  The hasher is salted, so hashing also reads the salt
    the request draws. *)
Class Hash : Type := {
  get_password_hash : string -> string -> string; (* salt, plaintext *)
  verify_password : string -> string -> bool      (* plaintext, digest *)
}.

(** [libgravatar.Gravatar(email).get_image()]; [None] when it raises
    [ValueError]. *)
Class Gravatar : Type := {
  get_image : string -> option string
}.

(** [src/conf/config.py]: the two expiry windows of the token service,
    in seconds. *)
Class Settings : Type := {
  ACCESS_TOKEN_TTL : Z;
  EMAIL_TOKEN_TTL : Z
}.

(* ------------------------------------------------------------------ *)
(** * [src/services/auth_service.py]: the token service *)

Module AuthService.

(** Modelled from the spec: [src/services/auth_service.py] is absent.
    [issue(claims, ttl)] "embeds claims plus issued-at and expiry
    timestamps, signs with a process-wide secret key". *)
Definition issue (env : Env) (data : list (string * string)) (ttl : Z)
  : Token :=
  mkToken data (now env + ttl) true.

(** Modelled from the spec: [create_access_token] of the absent
    [src/services/auth_service.py].  Access tokens and e-mail tokens
    "are produced by the same primitive with different claim sets and
    different TTLs"; the callers pass the claims only. *)
Definition create_access_token `{Settings} (env : Env)
    (data : list (string * string)) : Token :=
  issue env data ACCESS_TOKEN_TTL.

(** Modelled from the spec: [create_email_token] of the absent
    [src/services/auth_service.py], the same primitive with the e-mail
    expiry window. *)
Definition create_email_token `{Settings} (env : Env)
    (data : list (string * string)) : Token :=
  issue env data EMAIL_TOKEN_TTL.

(** Modelled from the spec: the decoding step of the absent
    [src/services/auth_service.py].  [verify(token_string)] "checks signature
    integrity and expiry; fails if either check fails (tampered,
    malformed, or expired)"; the expiry check fails after the TTL has
    elapsed. *)
Definition verify (env : Env) (token : Token)
  : option (list (string * string)) :=
  if signature_ok token && (now env <=? exp token)
  then Some (claims token)
  else None.

(** [payload.get(key)] on the claims mapping. *)
Fixpoint get (key : string) (payload : list (string * string))
  : option string :=
  match payload with
  | [] => None
  | (k, v) :: rest => if String.eqb k key then Some v else get key rest
  end.

(** Modelled from the spec: [get_email_from_token] of the absent
    [src/services/auth_service.py].  [subject_of] and
    [auxiliary_claim_of] "both return none (not raise) when verification
    fails". *)
Definition get_email_from_token (env : Env) (token : Token) : option string :=
  match verify env token with
  | Some payload => get "sub" payload
  | None => None
  end.

(** Modelled from the spec: [get_password_from_token] of the absent
    [src/services/auth_service.py], the auxiliary claim under the key the
    reset request stores it with. *)
Definition get_password_from_token (env : Env) (token : Token)
  : option string :=
  match verify env token with
  | Some payload => get "password" payload
  | None => None
  end.

End AuthService.

(* ------------------------------------------------------------------ *)
(** * [src/repository/users_repository.py] *)

(** Constraints of the [users] table: [username] and [email] are
    declared [unique=True]. *)
Definition user_unique_ok (row : User.t) (table : list User.t) : bool :=
  negb (existsb
          (fun r =>
             negb (User.id r =? User.id row)
             && (String.eqb (User.username r) (User.username row)
                 || String.eqb (User.email r) (User.email row)))
          table).

(** [db.add(user); db.commit(); db.refresh(user)]: the INSERT assigns
    the primary key, [created_at] and the default [confirmed=False]. *)
Definition insert_user (env : Env) (username email hashed_password : string)
    (avatar : option string) (role : UserRole.t) : IO User.t :=
  fun w =>
    let row :=
      User.mk (next_id (map User.id (users w)))
              username email hashed_password (now env) avatar false role in
    if user_unique_ok row (users w)
    then (Returns row, set_users w (users w ++ [row]))
    else (Raises IntegrityError, w).

Definition replace_user (row : User.t) (table : list User.t) : list User.t :=
  map (fun r => if User.id r =? User.id row then row else r) table.

(** [db.commit()] after an assignment to a column that carries no
    constraint ([confirmed], [hashed_password]). *)
Definition flush_user (row : User.t) : IO User.t :=
  fun w => (Returns row, set_users w (replace_user row (users w))).

Module UserRepository.

Definition get_user_by_id (user_id : Z) : IO (option User.t) :=
  rows <- select_users (fun u => User.id u =? user_id) ;;
  scalar_one_or_none rows.

Definition get_user_by_username (username : string) : IO (option User.t) :=
  rows <- select_users (fun u => String.eqb (User.username u) username) ;;
  scalar_one_or_none rows.

(** The argument may be Python's [None] (a token that did not
    verify); [email = NULL] selects no row, since every row of the
    table has an email. *)
Definition get_user_by_email (email : option string) : IO (option User.t) :=
  rows <- select_users
            (fun u =>
               match email with
               | Some e => String.eqb (User.email u) e
               | None => false
               end) ;;
  scalar_one_or_none rows.

(** [body.password] already holds the hash at this point. *)
Definition create_user (env : Env) (body : UserCreate.t)
    (avatar : option string) : IO User.t :=
  insert_user env (UserCreate.username body) (UserCreate.email body)
              (UserCreate.password body) avatar (UserCreate.role body).

(** [user.confirmed = True] on a missing user is an [AttributeError]. *)
Definition confirmed_email (email : option string) : IO unit :=
  user <- get_user_by_email email ;;
  match user with
  | Some u => flush_user (User.set_confirmed u true) ;;; ret tt
  | None => raise AttributeError
  end.

(** [user.avatar = url] on a missing user is an [AttributeError]. *)
Definition update_avatar_url (email : option string) (url : string)
  : IO User.t :=
  user <- get_user_by_email email ;;
  match user with
  | Some u => flush_user (User.set_avatar u (Some url))
  | None => raise AttributeError
  end.

Definition reset_password (user_id : Z) (password : string)
  : IO (option User.t) :=
  user <- get_user_by_id user_id ;;
  match user with
  | Some u =>
      u' <- flush_user (User.set_hashed_password u password) ;;
      ret (Some u')
  | None => ret None
  end.

End UserRepository.

(* ------------------------------------------------------------------ *)
(** * [src/services/users_service.py] *)

Module UserService.

Definition create_user `{Gravatar} (env : Env) (body : UserCreate.t)
  : IO User.t :=
  UserRepository.create_user env body (get_image (UserCreate.email body)).

Definition get_user_by_id := UserRepository.get_user_by_id.
Definition get_user_by_username := UserRepository.get_user_by_username.
Definition get_user_by_email := UserRepository.get_user_by_email.
Definition confirmed_email := UserRepository.confirmed_email.
Definition update_avatar_url := UserRepository.update_avatar_url.
Definition reset_password := UserRepository.reset_password.

End UserService.

(* ------------------------------------------------------------------ *)
(** * [src/services/email_service.py] *)

(** The message handed to the mail transport: its template and the
    variables of the template body. *)
Inductive Mail : Type :=
| verify_email (recipient host username : string) (token : Token)
| reset_password_mail (recipient username host : string) (reset_token : Token).

Module EmailService.

Definition send_confirm_email `{Settings} (env : Env)
    (to_email username host : string) : Mail :=
  let token_verification :=
    AuthService.create_email_token env [("sub"%string, to_email)] in
  verify_email to_email host username token_verification.

Definition send_reset_password_email
    (to_email username host : string) (reset_token : Token) : Mail :=
  reset_password_mail to_email username host reset_token.

(** Running a queued task at the time and place [env]. *)
Definition run `{Settings} (env : Env) (t : Task) : Mail :=
  match t with
  | send_confirm_email_task to_email username host =>
      send_confirm_email env to_email username host
  | send_reset_password_email_task to_email username host reset_token =>
      send_reset_password_email to_email username host reset_token
  end.

End EmailService.

(* ------------------------------------------------------------------ *)
(** * [src/api/auth.py] *)

Module AuthApi.

(** The [Token] response schema. *)
Record TokenResponse : Type := mkTokenResponse {
  access_token : Token;
  token_type : string
}.

(** Python truthiness of an optional string: [None] and the empty
    string are falsy. *)
Definition truthy (s : option string) : bool :=
  match s with
  | Some EmptyString => false
  | Some _ => true
  | None => false
  end.

Definition register_user `{Hash} `{Gravatar} (env : Env)
    (user_data : UserCreate.t) : IO User.t :=
  email_user <- UserService.get_user_by_email
                  (Some (UserCreate.email user_data)) ;;
  match email_user with
  | Some _ =>
      raise (HTTPException HTTP_409_CONFLICT USER_EMAIL_ALREADY_EXISTS)
  | None =>
      username_user <- UserService.get_user_by_username
                         (UserCreate.username user_data) ;;
      match username_user with
      | Some _ =>
          raise (HTTPException HTTP_409_CONFLICT USER_NAME_ALREADY_EXISTS)
      | None =>
          let user_data :=
            UserCreate.set_password user_data
              (get_password_hash (salt env) (UserCreate.password user_data)) in
          new_user <- UserService.create_user env user_data ;;
          add_task (send_confirm_email_task
                      (User.email new_user) (User.username new_user)
                      (base_url env)) ;;;
          ret new_user
      end
  end.

Definition login_user `{Hash} `{Settings} (env : Env)
    (form_data : OAuth2PasswordRequestForm.t) : IO TokenResponse :=
  user <- UserService.get_user_by_username
            (OAuth2PasswordRequestForm.username form_data) ;;
  match user with
  | None =>
      raise (HTTPException HTTP_401_UNAUTHORIZED INVALID_CREDENTIALS)
  | Some u =>
      if negb (verify_password (OAuth2PasswordRequestForm.password form_data)
                               (User.hashed_password u))
      then raise (HTTPException HTTP_401_UNAUTHORIZED INVALID_CREDENTIALS)
      else if negb (User.confirmed u)
      then raise (HTTPException HTTP_401_UNAUTHORIZED USER_NOT_CONFIRMED)
      else
        let access_token :=
          AuthService.create_access_token env
            [("sub"%string, User.username u)] in
        ret (mkTokenResponse access_token "bearer")
  end.

Definition confirmed_email (env : Env) (token : Token) : IO Detail :=
  let email := AuthService.get_email_from_token env token in
  user <- UserService.get_user_by_email email ;;
  match user with
  | None =>
      raise (HTTPException HTTP_400_BAD_REQUEST (Text "Verification error"))
  | Some u =>
      if User.confirmed u then ret EMAIL_ALREADY_CONFIRMED
      else UserService.confirmed_email email ;;; ret EMAIL_CONFIRMED
  end.

Definition request_email (env : Env) (body_email : string) : IO Detail :=
  user <- UserService.get_user_by_email (Some body_email) ;;
  match user with
  | Some u =>
      if User.confirmed u then ret EMAIL_ALREADY_CONFIRMED
      else
        add_task (send_confirm_email_task
                    (User.email u) (User.username u) (base_url env)) ;;;
        ret CHECK_YOUR_EMAIL
  | None => ret CHECK_YOUR_EMAIL
  end.

Definition reset_password_request `{Hash} `{Settings} (env : Env)
    (body : ResetPassword.t) : IO Detail :=
  user <- UserService.get_user_by_email (Some (ResetPassword.email body)) ;;
  match user with
  | None => ret CHECK_YOUR_EMAIL
  | Some u =>
      if negb (User.confirmed u)
      then raise (HTTPException HTTP_400_BAD_REQUEST EMAIL_NOT_CONFIRMED)
      else
        let hashed_password :=
          get_password_hash (salt env) (ResetPassword.password body) in
        let reset_token :=
          AuthService.create_access_token env
            [("sub"%string, User.email u);
             ("password"%string, hashed_password)] in
        add_task (send_reset_password_email_task
                    (ResetPassword.email body) (User.username u)
                    (base_url env) reset_token) ;;;
        ret CHECK_YOUR_EMAIL
  end.

Definition confirm_reset_password (env : Env) (token : Token) : IO Detail :=
  let email := AuthService.get_email_from_token env token in
  let hashed_password := AuthService.get_password_from_token env token in
  if negb (truthy email) || negb (truthy hashed_password)
  then raise (HTTPException HTTP_400_BAD_REQUEST INVALID_OR_EXPIRED_TOKEN)
  else
    user <- UserService.get_user_by_email email ;;
    match user with
    | None =>
        raise (HTTPException HTTP_404_NOT_FOUND USER_WITH_SUCH_EMAIL_NOT_FOUND)
    | Some u =>
        match hashed_password with
        | Some p =>
            UserService.reset_password (User.id u) p ;;; ret PASSWORD_CHANGED
        | None => (* excluded by the guard above *)
            raise (HTTPException HTTP_400_BAD_REQUEST INVALID_OR_EXPIRED_TOKEN)
        end
    end.

End AuthApi.


(* ================================================================== *)
(** * Vocabulary of the properties *)

(** No contact with id [contact_id] belongs to [user]: either no
    contact has that id, or the one that has it belongs to someone
    else. *)
Definition not_owned (w : World) (contact_id : Z) (user : User.t) : Prop :=
  forall c, In c (contacts w) ->
            Contact.id c = contact_id ->
            Contact.user_id c <> User.id user.

(** The invariant the storage layer keeps on the [users] table:
    primary key, [username] and [email] are each unique. *)
Definition users_wf (table : list User.t) : Prop :=
  NoDup (map User.id table)
  /\ NoDup (map User.username table)
  /\ NoDup (map User.email table).

(* ------------------------------------------------------------------ *)
(** * Sample data *)

Module Sample.

Definition env : Env := mkEnv 1793808000 739924 "salt" "http://testserver/".

Definition deadpool : User.t :=
  User.mk 1 "deadpool" "deadpool@example.com" "$2b$deadpool" 1762000000
          (Some "https://twitter.com/gravatar.jpg"%string) true UserRole.USER.

Definition agent007 : User.t :=
  User.mk 2 "agent007" "agent007@gmail.com" "$2b$agent007" 1762000100
          None false UserRole.USER.

Definition bob : Contact.t :=
  Contact.mk 1 "Bob" "Smith" "bD8Hj@example.com" "123-456-7890"
             (Some 739926) 1762000200 1762000200 1 None.

Definition alice : Contact.t :=
  Contact.mk 2 "Alice" "Jones" "alice@example.com" "555-000-1111"
             (Some 739925) 1762000300 1762000300 2 None.

Definition world : World := mkWorld [deadpool; agent007] [bob; alice] [].

Definition body : ContactModel.t :=
  ContactModel.mk "Bob" "Smith" "bD8Hj@example.com" "123-456-7890"
                  (Some (Some 726468)) None.

End Sample.

(** Some stored contact, of any owner, has this email or this phone
    number. *)
Definition collides (w : World) (email phone_number : string) : Prop :=
  exists c, In c (contacts w)
            /\ (Contact.email c = email \/ Contact.phone_number c = phone_number).

Module SampleCreate.

(** A request body that leaves [birth_date] and [info] unset. *)
Definition body : ContactModel.t :=
  ContactModel.mk "Carol" "Danvers" "carol@example.com" "555-222-3333"
                  None None.

Definition body_with_birth_date : ContactModel.t :=
  ContactModel.mk "Carol" "Danvers" "carol@example.com" "555-222-3333"
                  (Some (Some 726468)) None.

Definition empty : World := mkWorld [Sample.deadpool] [] [].

End SampleCreate.

(** Ascending order on the [birth_date] column. *)
Definition birth_date_le (a b : Contact.t) : Prop :=
  ContactRepository.date_leb (Contact.birth_date a) (Contact.birth_date b)
  = true.

(** The contact has a birth date, and it lies in [lo .. hi]. *)
Definition born_between (lo hi : Z) (c : Contact.t) : Prop :=
  exists d, Contact.birth_date c = Some d /\ lo <= d <= hi.

(** The invariant the storage layer keeps on the [contacts] table:
    primary key, [email] and [phone_number] are each unique. *)
Definition contacts_wf (table : list Contact.t) : Prop :=
  NoDup (map Contact.id table)
  /\ NoDup (map Contact.email table)
  /\ NoDup (map Contact.phone_number table).

(** The row [c'] carries every field the body supplies; the two optional
    fields keep the value of [c] when the body leaves them unset. *)
Definition fields_applied (c c' : Contact.t) (body : ContactModel.t) : Prop :=
  Contact.first_name c' = ContactModel.first_name body
  /\ Contact.last_name c' = ContactModel.last_name body
  /\ Contact.email c' = ContactModel.email body
  /\ Contact.phone_number c' = ContactModel.phone_number body
  /\ Contact.birth_date c'
     = match ContactModel.birth_date body with
       | Some v => v
       | None => Contact.birth_date c
       end
  /\ Contact.info c'
     = match ContactModel.info body with
       | Some v => v
       | None => Contact.info c
       end
  /\ Contact.id c' = Contact.id c
  /\ Contact.user_id c' = Contact.user_id c.

(** Another stored contact already has the email or the phone number
    the body supplies. *)
Definition duplicates_other (w : World) (c : Contact.t) (body : ContactModel.t)
  : Prop :=
  exists r, In r (contacts w)
            /\ Contact.id r <> Contact.id c
            /\ (Contact.email r = ContactModel.email body
                \/ Contact.phone_number r = ContactModel.phone_number body).

Module SampleUpdate.

(** Bob's row with alice's email. *)
Definition body : ContactModel.t :=
  ContactModel.mk "Bob" "Smith" "alice@example.com" "123-456-7890" None None.

(** Bob's row with the birth date explicitly set to null. *)
Definition null_birth_date : ContactModel.t :=
  ContactModel.mk "Bob" "Smith" "bD8Hj@example.com" "123-456-7890"
                  (Some None) None.

(** Bob's row with a new first name. *)
Definition rename : ContactModel.t :=
  ContactModel.mk "Robert" "Smith" "bD8Hj@example.com" "123-456-7890"
                  None None.

End SampleUpdate.

(** A user of this name is stored, the password verifies against the
    stored hash, and the [confirmed] flag has the given value. *)
Definition credentials_ok `{Hash} (w : World) (username password : string)
    (confirmed : bool) : Prop :=
  exists u, In u (users w)
            /\ User.username u = username
            /\ verify_password password (User.hashed_password u) = true
            /\ User.confirmed u = confirmed.

Module SampleAuth.

(** A stand-in hasher: the digest is salt, a dollar sign, plaintext, and
    verification compares with the digest made from the sample salt. *)
Definition hash : Hash := {|
  get_password_hash := fun salt plain =>
    String.append salt (String.append "$" plain);
  verify_password := fun plain digest =>
    String.eqb digest (String.append "salt$" plain)
|}.

Definition gravatar : Gravatar := {|
  get_image := fun email =>
    Some (String.append "https://www.gravatar.com/avatar/" email)
|}.

(** One hour for access tokens, seven days for e-mail tokens. *)
Definition settings : Settings := {|
  ACCESS_TOKEN_TTL := 3600;
  EMAIL_TOKEN_TTL := 604800
|}.

Definition deadpool : User.t :=
  User.mk 1 "deadpool" "deadpool@example.com" "salt$12345678" 1762000000
          (Some "https://twitter.com/gravatar.jpg"%string) true UserRole.USER.

Definition agent007 : User.t :=
  User.mk 2 "agent007" "agent007@gmail.com" "salt$12345678" 1762000100
          None false UserRole.USER.

Definition world : World := mkWorld [deadpool; agent007] [] [].


Definition agent007_form : OAuth2PasswordRequestForm.t :=
  OAuth2PasswordRequestForm.mk "agent007" "12345678".

End SampleAuth.

(** The table [after] is the table [before] with [f] applied to the
    row whose primary key is [id], and every other row left in place. *)
Definition only_row_changed (f : User.t -> User.t) (id : Z)
    (before after : list User.t) : Prop :=
  after = map (fun r => if User.id r =? id then f r else r) before.

(** Nothing but the [users] table differs between the two states. *)
Definition same_but_users (w w' : World) : Prop :=
  contacts w' = contacts w /\ tasks w' = tasks w.

Module SampleConfirm.

(** A confirmation token for agent007, issued at the sample time. *)
Definition token : Token :=
  @AuthService.create_email_token SampleAuth.settings Sample.env
    [("sub"%string, "agent007@gmail.com"%string)].

(** Two hours later. *)
Definition later : Env := mkEnv 1793815200 739924 "pepper" "http://testserver/".

End SampleConfirm.

Module SampleReset.

(** A reset token for deadpool carrying a new hash, issued at the
    sample time. *)
Definition token : Token :=
  @AuthService.create_access_token SampleAuth.settings Sample.env
    [("sub"%string, "deadpool@example.com"%string);
     ("password"%string, "salt$hunter22"%string)].

Definition body : ResetPassword.t :=
  ResetPassword.mk "deadpool@example.com" "hunter22".

End SampleReset.

(** The hash a reset request computes, and the token it puts into the
    reset mail. *)
Definition pending_hash `{Hash} (env : Env) (body : ResetPassword.t) : string :=
  get_password_hash (salt env) (ResetPassword.password body).

Module SampleRegister.

(** An unauthenticated caller asks for the ADMIN role. *)
Definition mallory : UserCreate.t :=
  UserCreate.mk "mallory" "mallory@example.com" "letmein" UserRole.ADMIN.

End SampleRegister.



(** The token a mail carries. *)
Definition mail_token (m : Mail) : Token :=
  match m with
  | verify_email _ _ _ token => token
  | reset_password_mail _ _ _ reset_token => reset_token
  end.

(* ================================================================== *)
(** * Vocabulary of the further properties *)

(** The contact belongs to [user] and passes the three filters of the
    listing. *)
Definition listed `{Backend} (first_name last_name email : string)
    (user : User.t) (c : Contact.t) : Prop :=
  Contact.user_id c = User.id user
  /\ contains (Contact.first_name c) first_name = true
  /\ contains (Contact.last_name c) last_name = true
  /\ contains (Contact.email c) email = true.

(** Every stored contact has a birth date: the NOT NULL column. *)
Definition birth_dates_set (table : list Contact.t) : Prop :=
  Forall (fun c => Contact.birth_date c <> None) table.

Module SampleListing.

Fixpoint substring (x s : string) : bool :=
  String.prefix x s
  || match s with
     | EmptyString => false
     | String _ rest => substring x rest
     end.

(** A database that matches plain substrings and reads a negative
    OFFSET or LIMIT as "none". *)
Definition backend : Backend := {|
  contains := fun value x => substring x value;
  negative_paging := fun _ _ rows => Returns rows
|}.

End SampleListing.

(** The hasher verifies what it hashed, whatever the salt. *)
Definition hash_coherent `{Hash} : Prop :=
  forall salt plain, verify_password plain (get_password_hash salt plain) = true.

(** The row registration stores for a request body. *)
Definition registered `{Hash} `{Gravatar} (env : Env) (user_data : UserCreate.t)
    (new_user : User.t) : Prop :=
  User.username new_user = UserCreate.username user_data
  /\ User.email new_user = UserCreate.email user_data
  /\ User.hashed_password new_user
     = get_password_hash (salt env) (UserCreate.password user_data)
  /\ User.avatar new_user = get_image (UserCreate.email user_data)
  /\ User.confirmed new_user = false
  /\ User.role new_user = UserCreate.role user_data
  /\ User.created_at new_user = now env.

Module SampleRegister2.

(** A body with the email of deadpool and the username of agent007. *)
Definition clash : UserCreate.t :=
  UserCreate.mk "agent007" "deadpool@example.com" "12345678" UserRole.USER.

Definition mallory_form : OAuth2PasswordRequestForm.t :=
  OAuth2PasswordRequestForm.mk "mallory" "letmein".

End SampleRegister2.

Module SampleFlow.

(** A stand-in hasher that verifies what it hashed: the digest is a
    dollar sign and the plaintext, whatever the salt. *)
Definition hash : Hash := {|
  get_password_hash := fun _ plain => String.append "$" plain;
  verify_password := fun plain digest =>
    String.eqb digest (String.append "$" plain)
|}.

(** deadpool as this hasher stores him. *)
Definition deadpool : User.t :=
  User.mk 1 "deadpool" "deadpool@example.com" "$12345678" 1762000000
          (Some "https://twitter.com/gravatar.jpg"%string) true UserRole.USER.

Definition world : World := mkWorld [deadpool; SampleAuth.agent007] [] [].

Definition new_password_form : OAuth2PasswordRequestForm.t :=
  OAuth2PasswordRequestForm.mk "deadpool" "hunter22".

(** Half an hour after the sample time. *)
Definition soon : Env := mkEnv 1793809800 739924 "pepper" "http://testserver/".

End SampleFlow.

(* ================================================================== *)
(** * The tokens the service signs *)

(** The three places that sign a token, and what they put into it:
    [login_user] (the username as subject), [send_confirm_email] (the
    recipient as subject) and [reset_password_request] (the email of
    the stored user, found through the [EmailStr] of the request body
    and so not empty, as subject, and the new hash). *)
Inductive issued `{Hash} `{Settings} : Token -> Prop :=
| issued_by_login_user (env : Env) (username : string) :
    issued (AuthService.create_access_token env [("sub"%string, username)])
| issued_by_send_confirm_email (env : Env) (to_email : string) :
    issued (AuthService.create_email_token env [("sub"%string, to_email)])
| issued_by_reset_password_request (env : Env) (email plain : string) :
    email <> EmptyString ->
    issued (AuthService.create_access_token env
              [("sub"%string, email);
               ("password"%string, get_password_hash (salt env) plain)]).


(* ================================================================== *)
(** * Properties *)

(** ** Generic facts about queries *)

Lemma filter_none {A} (f : A -> bool) (l : list A) :
  (forall x, In x l -> f x = false) -> filter f l = [].
Proof.
  induction l as [| a l IH]; intros Hall; simpl.
  - reflexivity.
  - rewrite (Hall a (or_introl eq_refl)).
    apply IH. intros x Hx. apply Hall. now right.
Qed.

(** ** Owner scoping of the point operations *)

Section OwnerScoping.

Variable w : World.
Variable contact_id : Z.
Variable user : User.t.

Hypothesis Hforeign : not_owned w contact_id user.

Lemma get_contact_by_id_foreign :
  ContactRepository.get_contact_by_id contact_id user w = (Returns None, w).
Proof.
  unfold ContactRepository.get_contact_by_id, bind, select_contacts.
  rewrite filter_none; [reflexivity |].
  intros c Hin.
  destruct (Z.eqb_spec (Contact.id c) contact_id) as [Hid | Hid]; simpl.
  - apply Z.eqb_neq. now apply Hforeign.
  - reflexivity.
Qed.

Lemma update_contact_foreign env body :
  ContactRepository.update_contact env contact_id body user w
  = (Returns None, w).
Proof.
  unfold ContactRepository.update_contact, bind.
  now rewrite get_contact_by_id_foreign.
Qed.

Lemma remove_contact_foreign :
  ContactRepository.remove_contact contact_id user w = (Returns None, w).
Proof.
  unfold ContactRepository.remove_contact, bind.
  now rewrite get_contact_by_id_foreign.
Qed.

End OwnerScoping.

(** C1. Owner scoping of the point operations: when no contact with id
    [contact_id] is owned by [user] (in particular when that contact
    exists and belongs to another user), [get_contact_by_id],
    [update_contact] and [remove_contact] return [None], the routes turn
    that into a 404, and the stored state, hence the other user's
    contact, is left as it was. *)
Theorem owner_scoping :
  forall (env : Env) (w : World) (contact_id : Z) (body : ContactModel.t)
         (user : User.t),
    not_owned w contact_id user ->
    ContactRepository.get_contact_by_id contact_id user w = (Returns None, w)
    /\ ContactRepository.update_contact env contact_id body user w
       = (Returns None, w)
    /\ ContactRepository.remove_contact contact_id user w = (Returns None, w)
    /\ ContactsApi.get_contact contact_id user w
       = (Raises (HTTPException 404 CONTACT_NOT_FOUND), w)
    /\ ContactsApi.update_contact env body contact_id user w
       = (Raises (HTTPException 404 CONTACT_NOT_FOUND), w)
    /\ ContactsApi.remove_contact contact_id user w
       = (Raises (HTTPException 404 CONTACT_NOT_FOUND), w).
Proof.
  intros env w contact_id body user Hforeign.
  pose proof (get_contact_by_id_foreign w contact_id user Hforeign) as Hget.
  pose proof (update_contact_foreign w contact_id user Hforeign env body) as Hupd.
  pose proof (remove_contact_foreign w contact_id user Hforeign) as Hrem.
  repeat split; try assumption.
  - unfold ContactsApi.get_contact, ContactService.get_contact, bind.
    now rewrite Hget.
  - unfold ContactsApi.update_contact, ContactService.update_contact, bind.
    now rewrite Hupd.
  - unfold ContactsApi.remove_contact, ContactService.remove_contact, bind.
    now rewrite Hrem.
Qed.

(** Alice's contact (id 2) exists and belongs to agent007; deadpool asks
    for it. *)
Lemma owner_scoping_witness :
  not_owned Sample.world 2 Sample.deadpool
  /\ In Sample.alice (contacts Sample.world)
  /\ ContactsApi.remove_contact 2 Sample.deadpool Sample.world
     = (Raises (HTTPException 404 CONTACT_NOT_FOUND), Sample.world).
Proof.
  assert (H : not_owned Sample.world 2 Sample.deadpool).
  { intros c [Hc | [Hc | []]] Hid; subst c; simpl in *; lia. }
  split; [exact H |].
  split; [simpl; auto |].
  exact (proj2 (proj2 (proj2 (proj2 (proj2
           (owner_scoping Sample.env Sample.world 2 Sample.body
                          Sample.deadpool H)))))).
Defined.

(** ** Primary keys *)

Lemma fold_max_upper (ids : list Z) :
  forall i, In i ids -> i <= fold_right Z.max 0 ids.
Proof.
  induction ids as [| a ids IH]; intros i Hin; simpl in *.
  - contradiction.
  - destruct Hin as [-> | Hin]; [lia |].
    specialize (IH i Hin). lia.
Qed.

Lemma next_id_fresh (ids : list Z) : ~ In (next_id ids) ids.
Proof.
  intros Hin. apply fold_max_upper in Hin. unfold next_id in Hin. lia.
Qed.

(** ** Contact creation *)

Lemma first_filter_existsb {A} (f : A -> bool) (l : list A) :
  match first (filter f l) with Some _ => true | None => false end
  = existsb f l.
Proof.
  induction l as [| a l IH]; simpl; [reflexivity |].
  destruct (f a); simpl; [reflexivity | exact IH].
Qed.

Lemma is_contact_exists_spec email phone_number user w :
  ContactRepository.is_contact_exists email phone_number user w
  = (Returns
       (existsb (fun c => String.eqb (Contact.email c) email
                          || String.eqb (Contact.phone_number c) phone_number)
                (contacts w)), w).
Proof.
  unfold ContactRepository.is_contact_exists, bind, select_contacts, ret.
  now rewrite first_filter_existsb.
Qed.

Lemma existsb_collides w email phone_number :
  existsb (fun c => String.eqb (Contact.email c) email
                    || String.eqb (Contact.phone_number c) phone_number)
          (contacts w) = true
  <-> collides w email phone_number.
Proof.
  unfold collides. rewrite existsb_exists.
  split; intros [c [Hin Hc]]; exists c; split; try assumption.
  - apply orb_true_iff in Hc.
    destruct Hc as [Hc | Hc]; apply String.eqb_eq in Hc; auto.
  - apply orb_true_iff.
    destruct Hc as [Hc | Hc]; apply String.eqb_eq in Hc; auto.
Qed.

Lemma unique_ok_fresh row w :
  ~ collides w (Contact.email row) (Contact.phone_number row) ->
  unique_ok row (contacts w) = true.
Proof.
  intros Hfree. unfold unique_ok.
  apply negb_true_iff, not_true_is_false. intros Hex.
  apply existsb_exists in Hex. destruct Hex as [r [Hin Hr]].
  apply andb_true_iff in Hr. destruct Hr as [_ Hr].
  apply Hfree. apply existsb_collides, existsb_exists. now exists r.
Qed.

(** The duplicate rule looks at the whole table: the 400 error is raised
    exactly when some contact of some owner has the email or the phone
    number of the body. *)
Lemma create_contact_duplicate_iff env body user w :
  ContactService.create_contact env body user w
  = (Raises (HTTPException 400
               (ContactService.duplicate_detail
                  (ContactModel.email body) (ContactModel.phone_number body))),
     w)
  <-> collides w (ContactModel.email body) (ContactModel.phone_number body).
Proof.
  unfold ContactService.create_contact, bind.
  rewrite is_contact_exists_spec.
  rewrite <- existsb_collides.
  destruct (existsb _ (contacts w)) eqn:Hex.
  - split; [reflexivity |]. intros _. reflexivity.
  - split; [| discriminate].
    unfold ContactRepository.create_contact, insert_contact.
    destruct (not_null_ok _ && unique_ok _ _); intros H; inversion H.
Qed.

(** When nothing collides and the body carries a birth date, the new
    contact is appended to the table with [user] as its owner. *)
Lemma create_contact_persists env body user w d :
  ~ collides w (ContactModel.email body) (ContactModel.phone_number body) ->
  ContactModel.birth_date body = Some (Some d) ->
  let row :=
    Contact.mk (next_id (map Contact.id (contacts w)))
      (ContactModel.first_name body) (ContactModel.last_name body)
      (ContactModel.email body) (ContactModel.phone_number body) (Some d)
      (now env) (now env) (User.id user)
      (match ContactModel.info body with Some v => v | None => None end) in
  ContactService.create_contact env body user w
  = (Returns row, set_contacts w (contacts w ++ [row])).
Proof.
  intros Hfree Hbirth row.
  unfold ContactService.create_contact, bind.
  rewrite is_contact_exists_spec.
  destruct (existsb _ (contacts w)) eqn:Hex.
  - exfalso. apply Hfree. now apply existsb_collides.
  - unfold ContactRepository.create_contact, insert_contact.
    rewrite Hbirth. fold row.
    rewrite (unique_ok_fresh row w Hfree). reflexivity.
Qed.

(** When nothing collides and the body carries no birth date, the INSERT
    breaks the NOT NULL constraint of [birth_date]: nothing is stored. *)
Lemma create_contact_null_birth_date env body user w :
  ~ collides w (ContactModel.email body) (ContactModel.phone_number body) ->
  ContactModel.birth_date body = None
  \/ ContactModel.birth_date body = Some None ->
  ContactService.create_contact env body user w = (Raises IntegrityError, w).
Proof.
  intros Hfree Hbirth.
  unfold ContactService.create_contact, bind.
  rewrite is_contact_exists_spec.
  destruct (existsb _ (contacts w)) eqn:Hex.
  - exfalso. apply Hfree. now apply existsb_collides.
  - unfold ContactRepository.create_contact, insert_contact.
    destruct Hbirth as [-> | ->]; reflexivity.
Qed.

(** X22. The duplicate rule of [create_contact] is global: an
    [HTTPException] is raised exactly when some contact of any owner has
    the email or the phone number of the body, and it is then the 400
    of the duplicate rule, with nothing stored.  When nothing collides
    and the body carries a birth date, a new contact owned by [user] is
    persisted, under a primary key no stored contact has. *)
Theorem create_contact_global_duplicate_rule :
  forall (env : Env) (body : ContactModel.t) (user : User.t) (w : World),
    ((exists status detail w',
         ContactService.create_contact env body user w
         = (Raises (HTTPException status detail), w'))
     <-> collides w (ContactModel.email body) (ContactModel.phone_number body))
    /\ (collides w (ContactModel.email body) (ContactModel.phone_number body) ->
        ContactService.create_contact env body user w
        = (Raises (HTTPException 400
                     (ContactService.duplicate_detail
                        (ContactModel.email body)
                        (ContactModel.phone_number body))), w))
    /\ (~ collides w (ContactModel.email body) (ContactModel.phone_number body) ->
        forall d, ContactModel.birth_date body = Some (Some d) ->
        exists row,
          ContactService.create_contact env body user w
          = (Returns row, set_contacts w (contacts w ++ [row]))
          /\ Contact.user_id row = User.id user
          /\ Contact.email row = ContactModel.email body
          /\ Contact.phone_number row = ContactModel.phone_number body
          /\ Contact.birth_date row = Some d
          /\ ~ In (Contact.id row) (map Contact.id (contacts w))).
Proof.
  intros env body user w.
  assert (Hdup := create_contact_duplicate_iff env body user w).
  split; [| split].
  - split.
    + intros [status [detail [w' Hr]]].
      destruct (existsb
                  (fun c => String.eqb (Contact.email c) (ContactModel.email body)
                            || String.eqb (Contact.phone_number c)
                                          (ContactModel.phone_number body))
                  (contacts w)) eqn:Hex.
      { now apply existsb_collides. }
      exfalso.
      assert (Hfree : ~ collides w (ContactModel.email body)
                                   (ContactModel.phone_number body)).
      { intros Hc. apply existsb_collides in Hc. congruence. }
      destruct (ContactModel.birth_date body) as [[d |] |] eqn:Hb.
      * pose proof (create_contact_persists env body user w d Hfree Hb) as Hp.
        simpl in Hp. rewrite Hp in Hr. discriminate.
      * rewrite (create_contact_null_birth_date env body user w Hfree
                   (or_intror Hb)) in Hr.
        discriminate.
      * rewrite (create_contact_null_birth_date env body user w Hfree
                   (or_introl Hb)) in Hr.
        discriminate.
    + intros Hc. apply Hdup in Hc. eauto.
  - apply Hdup.
  - intros Hfree d Hb.
    pose proof (create_contact_persists env body user w d Hfree Hb) as Hp.
    simpl in Hp. eexists. split; [exact Hp |].
    simpl. repeat split; try reflexivity.
    apply next_id_fresh.
Qed.

(** Carol, with a birth date, is added to deadpool's otherwise empty
    directory. *)
Lemma create_contact_global_duplicate_rule_witness :
  ~ collides SampleCreate.empty "carol@example.com" "555-222-3333"
  /\ exists row,
       ContactService.create_contact Sample.env SampleCreate.body_with_birth_date
         Sample.deadpool SampleCreate.empty
       = (Returns row, set_contacts SampleCreate.empty [row])
       /\ Contact.user_id row = 1.
Proof.
  assert (Hfree : ~ collides SampleCreate.empty
                             "carol@example.com" "555-222-3333").
  { intros [c [[] _]]. }
  split; [exact Hfree |].
  destruct (proj2 (proj2
              (create_contact_global_duplicate_rule
                 Sample.env SampleCreate.body_with_birth_date
                 Sample.deadpool SampleCreate.empty))
              Hfree 726468 eq_refl)
    as [row [Hrun [Howner _]]].
  exists row. split; [exact Hrun | exact Howner].
Defined.

(** C2. [create_contact] with a body that sets no [birth_date], on a
    directory in which no contact has its email or its phone number (the
    duplicate query finds nothing): the claim has a new contact owned
    by the caller persisted; the code passes the duplicate check and the
    INSERT raises [IntegrityError], because the column [birth_date] is
    declared [nullable=False] while the request schema leaves the field
    optional.  Nothing is stored. *)
Theorem create_contact_without_birth_date :
  ContactRepository.is_contact_exists "carol@example.com" "555-222-3333"
    Sample.deadpool SampleCreate.empty
  = (Returns false, SampleCreate.empty)
  /\ ContactModel.birth_date SampleCreate.body = None
  /\ ContactService.create_contact Sample.env SampleCreate.body
       Sample.deadpool SampleCreate.empty
     = (Raises IntegrityError, SampleCreate.empty).
Proof. repeat split. Qed.

(** ** The birthday query *)

Section OrderBy.

Import ContactRepository.

Lemma date_leb_total x y : date_leb x y = false -> date_leb y x = true.
Proof.
  destruct x as [a |], y as [b |]; simpl; intros H; try reflexivity;
    try discriminate.
  apply Z.leb_le. apply Z.leb_gt in H. lia.
Qed.

Lemma date_leb_trans x y z :
  date_leb x y = true -> date_leb y z = true -> date_leb x z = true.
Proof.
  destruct x as [a |], y as [b |], z as [c |]; simpl; intros H1 H2;
    try reflexivity; try discriminate.
  apply Z.leb_le. apply Z.leb_le in H1, H2. lia.
Qed.

Lemma insert_by_birth_date_perm c l :
  Permutation (insert_by_birth_date c l) (c :: l).
Proof.
  induction l as [| d l IH]; simpl.
  - apply Permutation_refl.
  - destruct (date_leb (Contact.birth_date c) (Contact.birth_date d)).
    + apply Permutation_refl.
    + eapply perm_trans; [apply perm_skip, IH | apply perm_swap].
Qed.

Lemma order_by_birth_date_perm l : Permutation (order_by_birth_date l) l.
Proof.
  induction l as [| c l IH]; simpl.
  - apply perm_nil.
  - eapply perm_trans; [apply insert_by_birth_date_perm |].
    now apply perm_skip.
Qed.

Lemma insert_by_birth_date_hd c d l :
  birth_date_le d c -> HdRel birth_date_le d l ->
  HdRel birth_date_le d (insert_by_birth_date c l).
Proof.
  intros Hdc Hhd. destruct l as [| e l]; simpl.
  - now constructor.
  - destruct (date_leb (Contact.birth_date c) (Contact.birth_date e)).
    + now constructor.
    + constructor. now inversion Hhd.
Qed.

Lemma insert_by_birth_date_sorted c l :
  Sorted birth_date_le l -> Sorted birth_date_le (insert_by_birth_date c l).
Proof.
  induction l as [| d l IH]; intros Hs; simpl.
  - repeat constructor.
  - inversion Hs as [| ? ? Hs' Hhd]; subst.
    destruct (date_leb (Contact.birth_date c) (Contact.birth_date d)) eqn:Hcd.
    + constructor; [exact Hs |]. now constructor.
    + constructor; [now apply IH |].
      apply insert_by_birth_date_hd; [| exact Hhd].
      now apply date_leb_total.
Qed.

Lemma order_by_birth_date_sorted l :
  StronglySorted birth_date_le (order_by_birth_date l).
Proof.
  apply Sorted_StronglySorted.
  - intros a b c. apply date_leb_trans.
  - induction l as [| c l IH]; simpl.
    + constructor.
    + now apply insert_by_birth_date_sorted.
Qed.

Lemma birthday_between_spec lo hi c :
  birthday_between lo hi c = true <-> born_between lo hi c.
Proof.
  unfold birthday_between, born_between.
  destruct (Contact.birth_date c) as [d |].
  - rewrite andb_true_iff, !Z.leb_le. split.
    + intros H. exists d. now split.
    + intros [d' [Hd H]]. inversion Hd; subst. exact H.
  - split; [discriminate | intros [d [Hd _]]; discriminate].
Qed.

(** The query on a range of dates that Python can represent. *)
Lemma get_upcoming_birthdays_run env days user w :
  MINORDINAL <= today env ->
  0 <= days ->
  today env + days <= MAXORDINAL ->
  get_upcoming_birthdays env days user w
  = (Returns (order_by_birth_date
                (filter (birthday_between (today env) (today env + days))
                        (contacts w))), w).
Proof.
  unfold MINORDINAL, MAXORDINAL. intros Hlo Hdays Hhi.
  unfold get_upcoming_birthdays, bind, timedelta, date_add, select_contacts, ret,
    MAX_DELTA_DAYS, MINORDINAL, MAXORDINAL.
  replace (Z.abs days <=? 999999999) with true
    by (symmetry; apply Z.leb_le; lia).
  replace (1 <=? today env + days) with true
    by (symmetry; apply Z.leb_le; lia).
  replace (today env + days <=? 3652059) with true
    by (symmetry; apply Z.leb_le; lia).
  reflexivity.
Qed.

(** Beyond 9999-12-31 the date addition overflows. *)
Lemma get_upcoming_birthdays_overflow env days user w :
  0 <= days ->
  MAXORDINAL < today env + days ->
  get_upcoming_birthdays env days user w = (Raises OverflowError, w).
Proof.
  unfold MAXORDINAL. intros Hdays Hhi.
  unfold get_upcoming_birthdays, bind, timedelta, date_add, raise, ret,
    MAX_DELTA_DAYS, MINORDINAL, MAXORDINAL.
  destruct (Z.abs days <=? 999999999); [| reflexivity].
  replace (today env + days <=? 3652059) with false
    by (symmetry; apply Z.leb_gt; lia).
  now rewrite andb_false_r.
Qed.

End OrderBy.

(** C5, amended. For every [days >= 1] for which [today + days] is still
    a date (not after 9999-12-31), and for every caller,
    [upcoming_birthdays] returns exactly the contacts, of all owners,
    whose birth date is not null and lies in [[today, today + days]],
    each as often as it is stored, in ascending order of birth date; the
    answer does not depend on the caller. *)
Theorem upcoming_birthdays_semantics :
  forall (env : Env) (days : Z) (user : User.t) (w : World),
    1 <= days ->
    ContactRepository.MINORDINAL <= today env ->
    today env + days <= ContactRepository.MAXORDINAL ->
    exists result,
      ContactsApi.get_upcoming_birthdays env days user w = (Returns result, w)
      /\ Permutation result
           (filter (ContactRepository.birthday_between
                      (today env) (today env + days)) (contacts w))
      /\ (forall c, In c result
                    <-> In c (contacts w)
                        /\ born_between (today env) (today env + days) c)
      /\ StronglySorted birth_date_le result
      /\ (forall other : User.t,
             ContactsApi.get_upcoming_birthdays env days other w
             = (Returns result, w)).
Proof.
  intros env days user w Hdays Hlo Hhi.
  assert (Hrun : forall u,
             ContactsApi.get_upcoming_birthdays env days u w
             = (Returns (ContactRepository.order_by_birth_date
                           (filter (ContactRepository.birthday_between
                                      (today env) (today env + days))
                                   (contacts w))), w)).
  { intros u. unfold ContactsApi.get_upcoming_birthdays.
    replace (days <? 1) with false by (symmetry; apply Z.ltb_ge; lia).
    unfold ContactService.get_upcoming_birthdays.
    apply get_upcoming_birthdays_run; [exact Hlo | lia | exact Hhi]. }
  eexists. split; [apply Hrun |].
  split; [apply order_by_birth_date_perm |].
  split; [| split; [apply order_by_birth_date_sorted | exact Hrun]].
  intros c. split.
  - intros Hin.
    apply (Permutation_in _ (order_by_birth_date_perm _)) in Hin.
    apply filter_In in Hin. destruct Hin as [Hin Hb].
    split; [exact Hin | now apply birthday_between_spec].
  - intros [Hin Hb].
    apply (Permutation_in _ (Permutation_sym (order_by_birth_date_perm _))).
    apply filter_In. split; [exact Hin | now apply birthday_between_spec].
Qed.

(** One week from 2026-11-04: deadpool is shown alice (owned by
    agent007) before bob. *)
Lemma upcoming_birthdays_semantics_witness :
  1 <= 7
  /\ ContactRepository.MINORDINAL <= today Sample.env
  /\ today Sample.env + 7 <= ContactRepository.MAXORDINAL
  /\ exists result,
       ContactsApi.get_upcoming_birthdays Sample.env 7 Sample.deadpool
         Sample.world = (Returns result, Sample.world)
       /\ StronglySorted birth_date_le result.
Proof.
  assert (H1 : 1 <= 7) by lia.
  assert (H2 : ContactRepository.MINORDINAL <= today Sample.env)
    by (vm_compute; discriminate).
  assert (H3 : today Sample.env + 7 <= ContactRepository.MAXORDINAL)
    by (vm_compute; discriminate).
  repeat (split; [assumption |]).
  destruct (upcoming_birthdays_semantics Sample.env 7 Sample.deadpool
              Sample.world H1 H2 H3)
    as [result [Hrun [_ [_ [Hsorted _]]]]].
  exists result. split; [exact Hrun | exact Hsorted].
Defined.

(** C5, as stated, fails here: [days = 3000000] passes the [ge=1]
    validation, bob's birth date lies in [[today, today + days]], and
    the query raises [OverflowError] instead of returning him. *)
Lemma birthday_query_overflows_on_large_days :
  1 <= 3000000
  /\ In Sample.bob (contacts Sample.world)
  /\ born_between (today Sample.env) (today Sample.env + 3000000) Sample.bob
  /\ ContactsApi.get_upcoming_birthdays Sample.env 3000000 Sample.deadpool
       Sample.world = (Raises OverflowError, Sample.world).
Proof.
  split; [lia |].
  split; [simpl; auto |].
  split.
  - exists 739926. split; [reflexivity |]. simpl. lia.
  - reflexivity.
Qed.

(** ** Lookups by a unique column *)

Lemma filter_unique {A B} (k : A -> B) (p : A -> bool) (l : list A) (c : A) :
  NoDup (map k l) ->
  In c l ->
  p c = true ->
  (forall x, In x l -> p x = true -> k x = k c) ->
  filter p l = [c].
Proof.
  induction l as [| a l IH]; intros Hnd Hin Hpc Hkey; simpl in *.
  - contradiction.
  - inversion Hnd as [| ? ? Hnotin Hnd']; subst.
    destruct Hin as [-> | Hin].
    + rewrite Hpc. f_equal. apply filter_none.
      intros x Hx. apply not_true_is_false. intros Hpx.
      apply Hnotin. rewrite <- (Hkey x (or_intror Hx) Hpx).
      now apply in_map.
    + destruct (p a) eqn:Hpa.
      * exfalso. apply Hnotin. rewrite (Hkey a (or_introl eq_refl) Hpa).
        now apply in_map.
      * apply IH; auto.
Qed.

Lemma NoDup_map_inj {A B} (k : A -> B) (l : list A) (a b : A) :
  NoDup (map k l) -> In a l -> In b l -> k a = k b -> a = b.
Proof.
  induction l as [| x l IH]; intros Hnd Ha Hb Hk; simpl in *.
  - contradiction.
  - inversion Hnd as [| ? ? Hnotin Hnd']; subst.
    destruct Ha as [-> | Ha], Hb as [-> | Hb]; auto.
    + exfalso. apply Hnotin. rewrite Hk. now apply in_map.
    + exfalso. apply Hnotin. rewrite <- Hk. now apply in_map.
Qed.

Lemma get_contact_by_id_owned w c user :
  NoDup (map Contact.id (contacts w)) ->
  In c (contacts w) ->
  Contact.user_id c = User.id user ->
  ContactRepository.get_contact_by_id (Contact.id c) user w
  = (Returns (Some c), w).
Proof.
  intros Hnd Hin Hown.
  unfold ContactRepository.get_contact_by_id, bind, select_contacts.
  rewrite (filter_unique Contact.id _ (contacts w) c Hnd Hin).
  - reflexivity.
  - rewrite Z.eqb_refl, Hown, Z.eqb_refl. reflexivity.
  - intros x _ Hx. apply andb_true_iff in Hx. destruct Hx as [Hx _].
    now apply Z.eqb_eq in Hx.
Qed.

Lemma get_contact_by_id_sound contact_id user w c w' :
  ContactRepository.get_contact_by_id contact_id user w = (Returns (Some c), w') ->
  w' = w /\ In c (contacts w) /\ Contact.id c = contact_id
  /\ Contact.user_id c = User.id user.
Proof.
  unfold ContactRepository.get_contact_by_id, bind, select_contacts.
  destruct (filter _ (contacts w)) as [| x [| y rest]] eqn:Hf; simpl;
    intros H; try discriminate.
  injection H as Hx Hw. subst x w'.
  assert (Hin : In c (filter
                        (fun c0 => (Contact.id c0 =? contact_id)
                                   && (Contact.user_id c0 =? User.id user))
                        (contacts w))) by (rewrite Hf; now left).
  apply filter_In in Hin. destruct Hin as [Hin Hp].
  apply andb_true_iff in Hp. destruct Hp as [H1 H2].
  apply Z.eqb_eq in H1, H2. auto.
Qed.

(** ** Updates *)

Lemma option_eqb_eq {A} (eqb : A -> A -> bool) (x y : option A) :
  (forall a b, eqb a b = true -> a = b) ->
  Contact.option_eqb eqb x y = true -> x = y.
Proof.
  intros Heq. destruct x, y; simpl; intros H; try discriminate; auto.
  f_equal. now apply Heq.
Qed.

Lemma same_attrs_eq c d :
  Contact.same_attrs c d = true ->
  Contact.first_name c = Contact.first_name d
  /\ Contact.last_name c = Contact.last_name d
  /\ Contact.email c = Contact.email d
  /\ Contact.phone_number c = Contact.phone_number d
  /\ Contact.birth_date c = Contact.birth_date d
  /\ Contact.info c = Contact.info d.
Proof.
  unfold Contact.same_attrs. rewrite !andb_true_iff.
  intros [[[[[H1 H2] H3] H4] H5] H6].
  apply String.eqb_eq in H1, H2, H3, H4.
  apply option_eqb_eq in H5; [| intros a b; apply Z.eqb_eq].
  apply option_eqb_eq in H6; [| intros a b; apply String.eqb_eq].
  auto 6.
Qed.

Lemma setattrs_applied c body :
  fields_applied c (ContactRepository.setattrs c body) body.
Proof. unfold fields_applied; simpl; auto 10. Qed.

(** What a flush of the assignments can do: nothing (no column
    changed), an UPDATE of the one row, or a refusal by a constraint. *)
Lemma flush_contact_cases env old new w :
  (Contact.same_attrs old new = true
   /\ flush_contact env old new w = (Returns old, w))
  \/ (Contact.same_attrs old new = false
      /\ flush_contact env old new w
         = (Returns (Contact.set_updated_at new (now env)),
            set_contacts w
              (replace_contact (Contact.set_updated_at new (now env))
                               (contacts w))))
  \/ (Contact.same_attrs old new = false
      /\ (not_null_ok (Contact.set_updated_at new (now env)) = false
          \/ unique_ok (Contact.set_updated_at new (now env)) (contacts w)
             = false)
      /\ flush_contact env old new w = (Raises IntegrityError, w)).
Proof.
  unfold flush_contact.
  destruct (Contact.same_attrs old new); [left; auto |].
  destruct (not_null_ok _) eqn:Hnn; simpl.
  - destruct (unique_ok _ _) eqn:Hu; [right; left; auto |].
    right; right; auto.
  - right; right; auto.
Qed.

Lemma update_contact_found env contact_id body user w c :
  ContactRepository.get_contact_by_id contact_id user w = (Returns (Some c), w) ->
  ContactRepository.update_contact env contact_id body user w
  = match flush_contact env c (ContactRepository.setattrs c body) w with
    | (Returns c', w') => (Returns (Some c'), w')
    | (Raises e, w') => (Raises e, w')
    end.
Proof.
  intros Hget. unfold ContactRepository.update_contact, bind.
  rewrite Hget.
  destruct (flush_contact env c (ContactRepository.setattrs c body) w)
    as [[c' | e] w']; reflexivity.
Qed.

Lemma replace_contact_in row c table :
  In c table -> Contact.id c = Contact.id row ->
  In row (replace_contact row table).
Proof.
  intros Hin Hid. unfold replace_contact. apply in_map_iff.
  exists c. split; [| exact Hin].
  rewrite Hid, Z.eqb_refl. reflexivity.
Qed.

(** The outcomes of an update of a contact the caller owns. *)
Lemma update_contact_outcomes env contact_id body user w c :
  ContactRepository.get_contact_by_id contact_id user w = (Returns (Some c), w) ->
  (exists c' w',
      ContactRepository.update_contact env contact_id body user w
      = (Returns (Some c'), w')
      /\ fields_applied c c' body
      /\ In c' (contacts w'))
  \/ ContactRepository.update_contact env contact_id body user w
     = (Raises IntegrityError, w).
Proof.
  intros Hget. rewrite (update_contact_found _ _ _ _ _ _ Hget).
  destruct (get_contact_by_id_sound _ _ _ _ _ Hget) as [_ [Hin _]].
  destruct (flush_contact_cases env c (ContactRepository.setattrs c body) w)
    as [[Hsame Hrun] | [[Hsame Hrun] | [Hsame [_ Hrun]]]]; rewrite Hrun.
  - left. exists c, w. split; [reflexivity |]. split; [| exact Hin].
    apply same_attrs_eq in Hsame.
    destruct Hsame as [H1 [H2 [H3 [H4 [H5 H6]]]]].
    unfold fields_applied. simpl in *. auto 10.
  - left. eexists. eexists. split; [reflexivity |]. split.
    + unfold fields_applied. simpl. auto 10.
    + simpl. now apply replace_contact_in with (c := c).
  - right. reflexivity.
Qed.

(** An update that takes over the email or phone number of another
    contact gets past the application and is stopped by the unique
    columns of the table. *)
Lemma update_contact_duplicate env contact_id body user w c :
  ContactRepository.get_contact_by_id contact_id user w = (Returns (Some c), w) ->
  contacts_wf (contacts w) ->
  duplicates_other w c body ->
  ContactRepository.update_contact env contact_id body user w
  = (Raises IntegrityError, w).
Proof.
  intros Hget [_ [Hemail Hphone]] [r [Hr [Hid Hdup]]].
  rewrite (update_contact_found _ _ _ _ _ _ Hget).
  destruct (get_contact_by_id_sound _ _ _ _ _ Hget) as [_ [Hin _]].
  assert (Hu : unique_ok
                 (Contact.set_updated_at (ContactRepository.setattrs c body)
                                         (now env))
                 (contacts w) = false).
  { unfold unique_ok. apply negb_false_iff, existsb_exists.
    exists r. split; [exact Hr |]. simpl.
    apply andb_true_iff. split.
    - apply negb_true_iff, Z.eqb_neq. exact Hid.
    - apply orb_true_iff.
      destruct Hdup as [He | Hp]; [left | right]; now apply String.eqb_eq. }
  destruct (flush_contact_cases env c (ContactRepository.setattrs c body) w)
    as [[Hsame Hrun] | [[Hsame Hrun] | [Hsame [_ Hrun]]]].
  - exfalso. apply same_attrs_eq in Hsame.
    destruct Hsame as [_ [_ [H3 [H4 _]]]]. simpl in H3, H4.
    apply Hid. f_equal.
    destruct Hdup as [He | Hp].
    + apply (NoDup_map_inj Contact.email (contacts w)); auto. congruence.
    + apply (NoDup_map_inj Contact.phone_number (contacts w)); auto. congruence.
  - exfalso. unfold flush_contact in Hrun. rewrite Hsame, Hu in Hrun.
    rewrite andb_false_r in Hrun. discriminate.
  - now rewrite Hrun.
Qed.

Lemma get_contact_by_id_raises contact_id user w e w' :
  ContactRepository.get_contact_by_id contact_id user w = (Raises e, w') ->
  e = MultipleResultsFound.
Proof.
  unfold ContactRepository.get_contact_by_id, bind, select_contacts.
  destruct (filter _ (contacts w)) as [| x [| y rest]]; simpl;
    intros H; inversion H; reflexivity.
Qed.

Lemma update_contact_raises env contact_id body user w e w' :
  ContactRepository.update_contact env contact_id body user w = (Raises e, w') ->
  e = IntegrityError \/ e = MultipleResultsFound.
Proof.
  unfold ContactRepository.update_contact, bind.
  destruct (ContactRepository.get_contact_by_id contact_id user w)
    as [[[c |] | e0] w0] eqn:Hget.
  - unfold flush_contact.
    destruct (Contact.same_attrs _ _); [discriminate |].
    destruct (not_null_ok _ && unique_ok _ _); [discriminate |].
    intros H. inversion H. now left.
  - discriminate.
  - intros H. inversion H; subst.
    right. eapply get_contact_by_id_raises. exact Hget.
Qed.

(** A row that duplicates no other row passes the unique check. *)
Lemma unique_ok_no_duplicates env w c body :
  ~ duplicates_other w c body ->
  unique_ok (Contact.set_updated_at (ContactRepository.setattrs c body)
                                    (now env))
            (contacts w) = true.
Proof.
  intros Hfree. unfold unique_ok.
  apply negb_true_iff, not_true_is_false. intros Hex.
  apply existsb_exists in Hex. destruct Hex as [r [Hin Hr]].
  apply andb_true_iff in Hr. destruct Hr as [Hid Hr]. simpl in Hid, Hr.
  apply negb_true_iff, Z.eqb_neq in Hid.
  apply orb_true_iff in Hr.
  apply Hfree. exists r. split; [exact Hin |]. split; [exact Hid |].
  destruct Hr as [Hr | Hr]; apply String.eqb_eq in Hr; auto.
Qed.

(** X23. What an update of a contact the caller owns does, case by
    case.  If the body changes no column, the stored row is returned
    and nothing is written.  If it changes one, leaves the row with a
    birth date and takes neither the email nor the phone number of
    another contact, the row with every supplied field assigned and
    [updated_at] set to the time of the request is stored in place and
    returned.  If it takes the email or phone number of another contact,
    or leaves the row without a birth date, the flush raises
    [IntegrityError] and nothing is written.  No [HTTPException] comes
    out of the service. *)
Theorem update_contact_outcomes_exact :
  forall (env : Env) (contact_id : Z) (body : ContactModel.t) (user : User.t)
         (w : World) (c : Contact.t),
    ContactRepository.get_contact_by_id contact_id user w
    = (Returns (Some c), w) ->
    (Contact.same_attrs c (ContactRepository.setattrs c body) = true ->
     ContactService.update_contact env contact_id body user w
     = (Returns (Some c), w))
    /\ (Contact.same_attrs c (ContactRepository.setattrs c body) = false ->
        Contact.birth_date (ContactRepository.setattrs c body) <> None ->
        ~ duplicates_other w c body ->
        ContactService.update_contact env contact_id body user w
        = (Returns
             (Some (Contact.set_updated_at
                      (ContactRepository.setattrs c body) (now env))),
           set_contacts w
             (replace_contact
                (Contact.set_updated_at
                   (ContactRepository.setattrs c body) (now env))
                (contacts w)))
        /\ fields_applied c
             (Contact.set_updated_at
                (ContactRepository.setattrs c body) (now env)) body)
    /\ (Contact.same_attrs c (ContactRepository.setattrs c body) = false ->
        duplicates_other w c body
        \/ Contact.birth_date (ContactRepository.setattrs c body) = None ->
        ContactService.update_contact env contact_id body user w
        = (Raises IntegrityError, w))
    /\ (forall status detail w',
           ContactService.update_contact env contact_id body user w
           <> (Raises (HTTPException status detail), w')).
Proof.
  intros env contact_id body user w c Hget.
  unfold ContactService.update_contact.
  rewrite (update_contact_found _ _ _ _ _ _ Hget).
  unfold flush_contact.
  split; [| split; [| split]].
  - intros Hsame. now rewrite Hsame.
  - intros Hsame Hbirth Hfree. rewrite Hsame.
    rewrite (unique_ok_no_duplicates env w c body Hfree).
    unfold not_null_ok. simpl.
    destruct (match ContactModel.birth_date body with
              | Some v => v
              | None => Contact.birth_date c
              end) eqn:Hb; [| now elim Hbirth].
    simpl. split; [reflexivity |].
    unfold fields_applied. simpl. auto 10.
  - intros Hsame Hbad. rewrite Hsame.
    destruct Hbad as [[r [Hr [Hid Hdup]]] | Hnull].
    + replace (unique_ok
                 (Contact.set_updated_at (ContactRepository.setattrs c body)
                                         (now env)) (contacts w))
        with false.
      * now rewrite andb_false_r.
      * symmetry. unfold unique_ok. apply negb_false_iff, existsb_exists.
        exists r. split; [exact Hr |]. simpl.
        apply andb_true_iff. split.
        -- apply negb_true_iff, Z.eqb_neq. exact Hid.
        -- apply orb_true_iff.
           destruct Hdup as [He | Hp]; [left | right];
             now apply String.eqb_eq.
    + unfold not_null_ok. simpl in *. now rewrite Hnull.
  - intros status detail w'.
    destruct (Contact.same_attrs c (ContactRepository.setattrs c body));
      [discriminate |].
    destruct (not_null_ok _ && unique_ok _ _); discriminate.
Qed.

Lemma sample_contacts_wf : contacts_wf (contacts Sample.world).
Proof.
  unfold contacts_wf; simpl.
  repeat split; repeat constructor; simpl;
    intros H; repeat (destruct H as [H | H]; try discriminate); exact H.
Qed.

(** deadpool renames bob: the new first name is stored. *)
Lemma update_contact_outcomes_exact_witness :
  ContactRepository.get_contact_by_id 1 Sample.deadpool Sample.world
  = (Returns (Some Sample.bob), Sample.world)
  /\ ~ duplicates_other Sample.world Sample.bob SampleUpdate.rename
  /\ exists row w',
       ContactService.update_contact Sample.env 1 SampleUpdate.rename
         Sample.deadpool Sample.world = (Returns (Some row), w')
       /\ Contact.first_name row = "Robert"%string.
Proof.
  assert (Hget : ContactRepository.get_contact_by_id 1 Sample.deadpool
                   Sample.world = (Returns (Some Sample.bob), Sample.world))
    by reflexivity.
  assert (Hfree : ~ duplicates_other Sample.world Sample.bob SampleUpdate.rename).
  { intros [r [[<- | [<- | []]] [Hid Hdup]]]; simpl in *.
    - now elim Hid.
    - destruct Hdup; discriminate. }
  split; [exact Hget |]. split; [exact Hfree |].
  destruct (proj1 (proj2
              (update_contact_outcomes_exact Sample.env 1 SampleUpdate.rename
                 Sample.deadpool Sample.world Sample.bob Hget))
              eq_refl ltac:(discriminate) Hfree)
    as [Hrun [Hfirst _]].
  eexists. eexists. split; [exact Hrun | exact Hfirst].
Defined.

(** C10. An update of a contact the caller owns with a body that sets
    [birth_date] to null and keeps every other field: no other contact
    has the email or the phone number (the unique check passes), and
    the flush raises [IntegrityError] all the same, because the column
    [birth_date] is declared [nullable=False] while the request schema
    accepts a null.  The claim has rejections arise from the unique
    columns only. *)
Theorem update_contact_null_birth_date :
  ContactRepository.get_contact_by_id 1 Sample.deadpool Sample.world
  = (Returns (Some Sample.bob), Sample.world)
  /\ unique_ok
       (Contact.set_updated_at
          (ContactRepository.setattrs Sample.bob SampleUpdate.null_birth_date)
          (now Sample.env))
       (contacts Sample.world) = true
  /\ ContactService.update_contact Sample.env 1 SampleUpdate.null_birth_date
       Sample.deadpool Sample.world
     = (Raises IntegrityError, Sample.world).
Proof. repeat split. Qed.

(** ** Lookups in the [users] table *)

Section UserLookups.

Variable w : World.

Lemma get_user_by_username_none name :
  (forall u, In u (users w) -> User.username u <> name) ->
  UserRepository.get_user_by_username name w = (Returns None, w).
Proof.
  intros Hnone.
  unfold UserRepository.get_user_by_username, bind, select_users.
  rewrite filter_none; [reflexivity |].
  intros u Hin. apply String.eqb_neq. now apply Hnone.
Qed.

Lemma get_user_by_email_none email :
  (forall u, In u (users w) -> Some (User.email u) <> email) ->
  UserRepository.get_user_by_email email w = (Returns None, w).
Proof.
  intros Hnone.
  unfold UserRepository.get_user_by_email, bind, select_users.
  rewrite filter_none; [reflexivity |].
  intros u Hin. destruct email as [e |]; [| reflexivity].
  apply String.eqb_neq. intros Heq. apply (Hnone u Hin). now f_equal.
Qed.

Hypothesis Hwf : users_wf (users w).

Lemma get_user_by_username_found u :
  In u (users w) ->
  UserRepository.get_user_by_username (User.username u) w
  = (Returns (Some u), w).
Proof.
  intros Hin. destruct Hwf as [_ [Hname _]].
  unfold UserRepository.get_user_by_username, bind, select_users.
  rewrite (filter_unique User.username _ (users w) u Hname Hin).
  - reflexivity.
  - apply String.eqb_refl.
  - intros x _ Hx. now apply String.eqb_eq.
Qed.

Lemma get_user_by_email_found u :
  In u (users w) ->
  UserRepository.get_user_by_email (Some (User.email u)) w
  = (Returns (Some u), w).
Proof.
  intros Hin. destruct Hwf as [_ [_ Hemail]].
  unfold UserRepository.get_user_by_email, bind, select_users.
  rewrite (filter_unique User.email _ (users w) u Hemail Hin).
  - reflexivity.
  - apply String.eqb_refl.
  - intros x _ Hx. now apply String.eqb_eq.
Qed.

Lemma get_user_by_id_found u :
  In u (users w) ->
  UserRepository.get_user_by_id (User.id u) w = (Returns (Some u), w).
Proof.
  intros Hin. destruct Hwf as [Hid _].
  unfold UserRepository.get_user_by_id, bind, select_users.
  rewrite (filter_unique User.id _ (users w) u Hid Hin).
  - reflexivity.
  - apply Z.eqb_refl.
  - intros x _ Hx. now apply Z.eqb_eq.
Qed.

End UserLookups.

Lemma get_user_by_username_sound name w u w' :
  UserRepository.get_user_by_username name w = (Returns (Some u), w') ->
  w' = w /\ In u (users w) /\ User.username u = name.
Proof.
  unfold UserRepository.get_user_by_username, bind, select_users.
  destruct (filter _ (users w)) as [| x [| y rest]] eqn:Hf; simpl;
    intros H; try discriminate.
  injection H as Hx Hw. subst x w'.
  assert (Hin : In u (filter (fun v => String.eqb (User.username v) name)
                             (users w))) by (rewrite Hf; now left).
  apply filter_In in Hin. destruct Hin as [Hin Hp].
  apply String.eqb_eq in Hp. auto.
Qed.

Lemma get_user_by_email_sound email w u w' :
  UserRepository.get_user_by_email email w = (Returns (Some u), w') ->
  w' = w /\ In u (users w) /\ email = Some (User.email u).
Proof.
  unfold UserRepository.get_user_by_email, bind, select_users.
  destruct (filter _ (users w)) as [| x [| y rest]] eqn:Hf; simpl;
    intros H; try discriminate.
  injection H as Hx Hw. subst x w'.
  assert (Hin : In u (filter
                        (fun v => match email with
                                  | Some e => String.eqb (User.email v) e
                                  | None => false
                                  end) (users w))) by (rewrite Hf; now left).
  apply filter_In in Hin. destruct Hin as [Hin Hp].
  destruct email as [e |]; [| discriminate].
  apply String.eqb_eq in Hp. subst e. auto.
Qed.

(** A lookup reads and never writes. *)
Lemma get_user_by_username_frame name w r w' :
  UserRepository.get_user_by_username name w = (r, w') -> w' = w.
Proof.
  unfold UserRepository.get_user_by_username, bind, select_users.
  destruct (filter _ (users w)) as [| x [| y rest]]; simpl;
    intros H; now inversion H.
Qed.

Lemma get_user_by_email_frame email w r w' :
  UserRepository.get_user_by_email email w = (r, w') -> w' = w.
Proof.
  unfold UserRepository.get_user_by_email, bind, select_users.
  destruct (filter _ (users w)) as [| x [| y rest]]; simpl;
    intros H; now inversion H.
Qed.

(** ** Login *)

(** The stored user of a name being unique, credentials that would be
    fine for some row are the credentials of that row. *)
Ltac other_credentials Honly :=
  let v := fresh "v" in
  let Hv := fresh "Hv" in
  let Hvn := fresh "Hvn" in
  let Hvv := fresh "Hvv" in
  let Hvc := fresh "Hvc" in
  intros [v [Hv [Hvn [Hvv Hvc]]]];
  rewrite (Honly v Hv Hvn) in Hvv, Hvc;
  congruence.

Section Login.

Context {hasher : Hash} {settings : Settings}.

Variable env : Env.
Variable form_data : OAuth2PasswordRequestForm.t.
Variable w : World.

Lemma login_user_unknown :
  (forall u, In u (users w) -> User.username u <> OAuth2PasswordRequestForm.username form_data) ->
  AuthApi.login_user env form_data w
  = (Raises (HTTPException 401 INVALID_CREDENTIALS), w).
Proof.
  intros Hnone. unfold AuthApi.login_user, UserService.get_user_by_username, bind.
  now rewrite (get_user_by_username_none w _ Hnone).
Qed.

(** What login does once the user row is at hand. *)
Lemma login_user_known u :
  users_wf (users w) ->
  In u (users w) ->
  User.username u = OAuth2PasswordRequestForm.username form_data ->
  AuthApi.login_user env form_data w
  = (if negb (verify_password (OAuth2PasswordRequestForm.password form_data) (User.hashed_password u))
     then Raises (HTTPException 401 INVALID_CREDENTIALS)
     else if negb (User.confirmed u)
     then Raises (HTTPException 401 USER_NOT_CONFIRMED)
     else Returns (AuthApi.mkTokenResponse
                     (AuthService.create_access_token env
                        [("sub"%string, User.username u)])
                     "bearer"),
     w).
Proof.
  intros Hwf Hin Hname.
  unfold AuthApi.login_user, UserService.get_user_by_username, bind.
  rewrite <- Hname.
  rewrite (get_user_by_username_found w Hwf u Hin).
  destruct (negb (verify_password (OAuth2PasswordRequestForm.password form_data) (User.hashed_password u)));
    [reflexivity |].
  destruct (negb (User.confirmed u)); reflexivity.
Qed.

(** Either nobody has the name, or the row of the one who has it is
    what the lookup returns. *)
Lemma username_known_or_not :
  (forall u, In u (users w) -> User.username u <> OAuth2PasswordRequestForm.username form_data)
  \/ (exists u, In u (users w) /\ User.username u = OAuth2PasswordRequestForm.username form_data).
Proof.
  induction (users w) as [| a l IH].
  - left. intros u [].
  - destruct (string_dec (User.username a)
                         (OAuth2PasswordRequestForm.username form_data)) as [Heq | Hneq].
    + right. exists a. split; [now left | exact Heq].
    + destruct IH as [Hnone | [u [Hin Hu]]].
      * left. intros u [-> | Hin]; auto.
      * right. exists u. split; [now right | exact Hu].
Qed.

End Login.

(** C4. Login error discrimination, on a well-formed [users] table:
    the same 401 [INVALID_CREDENTIALS] answers an unknown username and a
    password that does not verify; 401 [USER_NOT_CONFIRMED] is the
    answer exactly when the user exists, the password verifies and
    [confirmed] is false; a token is returned exactly when the user
    exists, the password verifies and [confirmed] is true, and its
    subject is then the username.  Login never writes. *)
Theorem login_error_discrimination :
  forall (hasher : Hash) (settings : Settings) (env : Env)
         (form_data : OAuth2PasswordRequestForm.t) (w : World),
    users_wf (users w) ->
    ((forall u, In u (users w) ->
                User.username u <> OAuth2PasswordRequestForm.username form_data) ->
     AuthApi.login_user env form_data w
     = (Raises (HTTPException 401 INVALID_CREDENTIALS), w))
    /\ (forall u, In u (users w) ->
                  User.username u = OAuth2PasswordRequestForm.username form_data ->
                  verify_password (OAuth2PasswordRequestForm.password form_data)
                                  (User.hashed_password u) = false ->
                  AuthApi.login_user env form_data w
                  = (Raises (HTTPException 401 INVALID_CREDENTIALS), w))
    /\ (AuthApi.login_user env form_data w
        = (Raises (HTTPException 401 USER_NOT_CONFIRMED), w)
        <-> credentials_ok w (OAuth2PasswordRequestForm.username form_data)
              (OAuth2PasswordRequestForm.password form_data) false)
    /\ ((exists token, AuthApi.login_user env form_data w = (Returns token, w))
        <-> credentials_ok w (OAuth2PasswordRequestForm.username form_data)
              (OAuth2PasswordRequestForm.password form_data) true)
    /\ (forall token w',
           AuthApi.login_user env form_data w = (Returns token, w') ->
           w' = w
           /\ AuthService.get "sub" (claims (AuthApi.access_token token))
              = Some (OAuth2PasswordRequestForm.username form_data)
           /\ AuthApi.token_type token = "bearer"%string).
Proof.
  intros hasher settings env form_data w Hwf.
  split; [apply login_user_unknown |].
  split.
  { intros u Hin Hname Hverify.
    rewrite (login_user_known env form_data w u Hwf Hin Hname).
    now rewrite Hverify. }
  destruct (username_known_or_not form_data w) as [Hnone | [u [Hin Hname]]].
  - (* nobody has the name *)
    pose proof (login_user_unknown env form_data w Hnone) as Hrun.
    rewrite Hrun.
    split; [| split].
    + split; [discriminate |].
      intros [u [Hin [Hname _]]]. now apply Hnone in Hin.
    + split; [intros [token Ht]; discriminate |].
      intros [u [Hin [Hname _]]]. now apply Hnone in Hin.
    + intros token w' Ht. discriminate.
  - (* the row of the name is [u], and it is the only one *)
    assert (Honly : forall v, In v (users w) ->
                     User.username v
                     = OAuth2PasswordRequestForm.username form_data -> v = u).
    { intros v Hv Hvn. destruct Hwf as [_ [Hnd _]].
      apply (NoDup_map_inj User.username (users w)); auto. congruence. }
    pose proof (login_user_known env form_data w u Hwf Hin Hname) as Hrun.
    rewrite Hrun.
    destruct (verify_password (OAuth2PasswordRequestForm.password form_data)
                              (User.hashed_password u)) eqn:Hverify;
      destruct (User.confirmed u) eqn:Hconf; simpl;
      (split; [| split]);
      try (split;
           [ first [ discriminate
                   | intros [token Ht]; discriminate
                   | intros _; exists u; auto ]
           | first [ other_credentials Honly
                   | intros _; reflexivity
                   | intros _; eexists; reflexivity ] ]).
    all: intros token w' Ht; try discriminate.
    inversion Ht; subst. simpl. rewrite Hname. auto.
Qed.

Lemma sample_users_wf : users_wf (users SampleAuth.world).
Proof.
  unfold users_wf; simpl.
  repeat split; repeat constructor; simpl;
    intros H; repeat (destruct H as [H | H]; try discriminate); exact H.
Qed.

(** agent007 has the right password and is not confirmed yet. *)
Lemma login_error_discrimination_witness :
  users_wf (users SampleAuth.world)
  /\ @credentials_ok SampleAuth.hash SampleAuth.world "agent007" "12345678" false
  /\ @AuthApi.login_user SampleAuth.hash SampleAuth.settings Sample.env
       SampleAuth.agent007_form SampleAuth.world
     = (Raises (HTTPException 401 USER_NOT_CONFIRMED), SampleAuth.world).
Proof.
  assert (Hcred : @credentials_ok SampleAuth.hash SampleAuth.world
                    "agent007" "12345678" false).
  { exists SampleAuth.agent007. simpl. auto. }
  split; [exact sample_users_wf |].
  split; [exact Hcred |].
  exact (proj2 (proj1 (proj2 (proj2
           (login_error_discrimination SampleAuth.hash SampleAuth.settings
              Sample.env SampleAuth.agent007_form SampleAuth.world
              sample_users_wf))))
           Hcred).
Defined.

(** ** Writing one row of the [users] table *)

Lemma replace_user_map (f : User.t -> User.t) (u : User.t) (l : list User.t) :
  NoDup (map User.id l) ->
  In u l ->
  User.id (f u) = User.id u ->
  replace_user (f u) l
  = map (fun r => if User.id r =? User.id u then f r else r) l.
Proof.
  intros Hnd Hin Hid. unfold replace_user.
  apply map_ext_in. intros r Hr. rewrite Hid.
  destruct (Z.eqb_spec (User.id r) (User.id u)) as [Heq | Hneq];
    [| reflexivity].
  now rewrite (NoDup_map_inj User.id l r u Hnd Hr Hin Heq).
Qed.

Lemma map_key_preserved {B} (key : User.t -> B) (f : User.t -> User.t)
    (id : Z) (l : list User.t) :
  (forall r, key (f r) = key r) ->
  map key (map (fun r => if User.id r =? id then f r else r) l) = map key l.
Proof.
  intros Hkey. rewrite map_map. apply map_ext.
  intros r. destruct (User.id r =? id); [apply Hkey | reflexivity].
Qed.

Lemma users_wf_only_row_changed f id before after :
  (forall r, User.id (f r) = User.id r) ->
  (forall r, User.username (f r) = User.username r) ->
  (forall r, User.email (f r) = User.email r) ->
  only_row_changed f id before after ->
  users_wf before -> users_wf after.
Proof.
  intros Hid Hname Hemail -> [H1 [H2 H3]].
  unfold users_wf. rewrite !map_key_preserved by assumption. auto.
Qed.

Lemma only_row_changed_in f u before after :
  only_row_changed f (User.id u) before after ->
  In u before ->
  In (f u) after
  /\ (forall r, In r before -> User.id r <> User.id u -> In r after).
Proof.
  intros -> Hin. split.
  - apply in_map_iff. exists u. now rewrite Z.eqb_refl.
  - intros r Hr Hneq. apply in_map_iff. exists r.
    apply Z.eqb_neq in Hneq. now rewrite Hneq.
Qed.

(** ** Confirmation of the email *)

Section ConfirmEmail.

Variable env : Env.
Variable token : Token.
Variable w : World.
Variable u : User.t.

Hypothesis Hwf : users_wf (users w).
Hypothesis Hin : In u (users w).
Hypothesis Htoken : AuthService.get_email_from_token env token
                    = Some (User.email u).

Lemma confirmed_email_already :
  User.confirmed u = true ->
  AuthApi.confirmed_email env token w = (Returns EMAIL_ALREADY_CONFIRMED, w).
Proof.
  intros Hconf.
  unfold AuthApi.confirmed_email, UserService.get_user_by_email, bind.
  rewrite Htoken, (get_user_by_email_found w Hwf u Hin), Hconf.
  reflexivity.
Qed.

Lemma confirmed_email_first :
  User.confirmed u = false ->
  AuthApi.confirmed_email env token w
  = (Returns EMAIL_CONFIRMED,
     set_users w (replace_user (User.set_confirmed u true) (users w))).
Proof.
  intros Hconf.
  unfold AuthApi.confirmed_email, UserService.get_user_by_email,
    UserService.confirmed_email, UserRepository.confirmed_email, bind.
  rewrite Htoken, (get_user_by_email_found w Hwf u Hin), Hconf.
  rewrite (get_user_by_email_found w Hwf u Hin).
  reflexivity.
Qed.

End ConfirmEmail.

Lemma get_email_from_token_later env env' token e :
  AuthService.get_email_from_token env token = Some e ->
  AuthService.get_email_from_token env' token = Some e
  \/ AuthService.get_email_from_token env' token = None.
Proof.
  unfold AuthService.get_email_from_token, AuthService.verify.
  destruct (signature_ok token && (now env <=? exp token)); [| discriminate].
  destruct (signature_ok token && (now env' <=? exp token)); auto.
Qed.

Lemma confirmed_email_unverified env token w :
  AuthService.get_email_from_token env token = None ->
  AuthApi.confirmed_email env token w
  = (Raises (HTTPException 400 (Text "Verification error")), w).
Proof.
  intros Hnone.
  unfold AuthApi.confirmed_email, UserService.get_user_by_email, bind.
  rewrite Hnone.
  rewrite (get_user_by_email_none w None); [reflexivity |].
  intros u _. discriminate.
Qed.

(** C6. Confirmation of the email, on a well-formed [users] table and
    with a token that verifies to the email of a stored user [u]: if
    [u] is confirmed already, the answer is the "already confirmed"
    message and the state is untouched; otherwise the answer is
    "confirmed" and the only change is the [confirmed] flag of the row
    of [u].  After that, the same token, whenever it is presented again,
    changes nothing, and is answered "already confirmed" as long as it
    verifies. *)
Theorem confirm_email_idempotent :
  forall (env : Env) (token : Token) (w : World) (u : User.t),
    users_wf (users w) ->
    In u (users w) ->
    AuthService.get_email_from_token env token = Some (User.email u) ->
    (User.confirmed u = true ->
     AuthApi.confirmed_email env token w = (Returns EMAIL_ALREADY_CONFIRMED, w))
    /\ (User.confirmed u = false ->
        exists w',
          AuthApi.confirmed_email env token w = (Returns EMAIL_CONFIRMED, w')
          /\ only_row_changed (fun r => User.set_confirmed r true) (User.id u)
               (users w) (users w')
          /\ same_but_users w w'
          /\ forall env',
               (exists r, AuthApi.confirmed_email env' token w' = (r, w'))
               /\ (AuthService.get_email_from_token env' token
                   = Some (User.email u) ->
                   AuthApi.confirmed_email env' token w'
                   = (Returns EMAIL_ALREADY_CONFIRMED, w'))).
Proof.
  intros env token w u Hwf Hin Htoken.
  split; [now apply confirmed_email_already |].
  intros Hconf.
  eexists.
  split; [exact (confirmed_email_first env token w u Hwf Hin Htoken Hconf) |].
  assert (Hchanged :
            only_row_changed (fun r => User.set_confirmed r true) (User.id u)
              (users w)
              (users (set_users w
                        (replace_user (User.set_confirmed u true) (users w))))).
  { unfold only_row_changed. simpl.
    apply (replace_user_map (fun r => User.set_confirmed r true) u);
      [apply Hwf | exact Hin | reflexivity]. }
  split; [exact Hchanged |].
  split; [split; reflexivity |].
  assert (Hwf' : users_wf
                   (users (set_users w
                             (replace_user (User.set_confirmed u true)
                                           (users w))))).
  { eapply users_wf_only_row_changed; [| | | exact Hchanged | exact Hwf];
      reflexivity. }
  destruct (only_row_changed_in _ u _ _ Hchanged Hin) as [Hin' _].
  assert (Hagain : forall env',
             AuthService.get_email_from_token env' token
             = Some (User.email u) ->
             AuthApi.confirmed_email env' token
               (set_users w (replace_user (User.set_confirmed u true) (users w)))
             = (Returns EMAIL_ALREADY_CONFIRMED,
                set_users w (replace_user (User.set_confirmed u true)
                                          (users w)))).
  { intros env' Htoken'.
    apply (confirmed_email_already env' token _ (User.set_confirmed u true));
      auto. }
  intros env'. split; [| apply Hagain].
  destruct (get_email_from_token_later env env' token _ Htoken)
    as [Hsame | Hnone].
  - eexists. now apply Hagain.
  - eexists. now apply confirmed_email_unverified.
Qed.

(** agent007 follows the link of the confirmation mail. *)
Lemma confirm_email_idempotent_witness :
  users_wf (users SampleAuth.world)
  /\ In SampleAuth.agent007 (users SampleAuth.world)
  /\ AuthService.get_email_from_token Sample.env SampleConfirm.token
     = Some (User.email SampleAuth.agent007)
  /\ User.confirmed SampleAuth.agent007 = false
  /\ exists w',
       AuthApi.confirmed_email Sample.env SampleConfirm.token SampleAuth.world
       = (Returns EMAIL_CONFIRMED, w')
       /\ AuthApi.confirmed_email SampleConfirm.later SampleConfirm.token w'
          = (Returns EMAIL_ALREADY_CONFIRMED, w').
Proof.
  assert (Hin : In SampleAuth.agent007 (users SampleAuth.world))
    by (simpl; auto).
  assert (Htoken : AuthService.get_email_from_token Sample.env
                     SampleConfirm.token
                   = Some (User.email SampleAuth.agent007))
    by reflexivity.
  split; [exact sample_users_wf |].
  split; [exact Hin |].
  split; [exact Htoken |].
  split; [reflexivity |].
  destruct (proj2 (confirm_email_idempotent Sample.env SampleConfirm.token
                     SampleAuth.world SampleAuth.agent007
                     sample_users_wf Hin Htoken) eq_refl)
    as [w' [Hrun [_ [_ Hagain]]]].
  exists w'. split; [exact Hrun |].
  apply (proj2 (Hagain SampleConfirm.later)). reflexivity.
Defined.

(** ** Confirmation of a password reset *)

Lemma truthy_spec s :
  AuthApi.truthy s = true <-> exists v, s = Some v /\ v <> EmptyString.
Proof.
  destruct s as [[| a v] |]; simpl; split; intros H; try discriminate.
  - destruct H as [v [Hv Hne]]. inversion Hv. subst. now elim Hne.
  - eexists. split; [reflexivity | discriminate].
  - reflexivity.
  - destruct H as [v [Hv _]]. discriminate.
Qed.

Lemma verify_rejects env token :
  signature_ok token = false \/ exp token < now env ->
  AuthService.verify env token = None.
Proof.
  unfold AuthService.verify. intros [Hsig | Hexp].
  - now rewrite Hsig.
  - replace (now env <=? exp token) with false
      by (symmetry; apply Z.leb_gt; lia).
    now rewrite andb_false_r.
Qed.

Section ConfirmResetPassword.

Variable env : Env.
Variable token : Token.
Variable w : World.

Lemma confirm_reset_password_falsy :
  AuthApi.truthy (AuthService.get_email_from_token env token) = false
  \/ AuthApi.truthy (AuthService.get_password_from_token env token) = false ->
  AuthApi.confirm_reset_password env token w
  = (Raises (HTTPException 400 INVALID_OR_EXPIRED_TOKEN), w).
Proof.
  unfold AuthApi.confirm_reset_password.
  intros [H | H]; rewrite H; simpl; [reflexivity |].
  now rewrite orb_true_r.
Qed.


Lemma confirm_reset_password_found u p :
  users_wf (users w) ->
  In u (users w) ->
  AuthService.get_email_from_token env token = Some (User.email u) ->
  AuthService.get_password_from_token env token = Some p ->
  User.email u <> EmptyString -> p <> EmptyString ->
  AuthApi.confirm_reset_password env token w
  = (Returns PASSWORD_CHANGED,
     set_users w (replace_user (User.set_hashed_password u p) (users w))).
Proof.
  intros Hwf Hin He Hp Hne Hnp.
  unfold AuthApi.confirm_reset_password, UserService.get_user_by_email,
    UserService.reset_password, UserRepository.reset_password, bind.
  rewrite He, Hp.
  replace (AuthApi.truthy (Some (User.email u))) with true
    by (symmetry; apply truthy_spec; eauto).
  replace (AuthApi.truthy (Some p)) with true
    by (symmetry; apply truthy_spec; eauto).
  simpl.
  rewrite (get_user_by_email_found w Hwf u Hin).
  rewrite (get_user_by_id_found w Hwf u Hin).
  reflexivity.
Qed.

End ConfirmResetPassword.

(** ** The tokens a reset confirmation can receive *)

Section SignedTokens.

Context {hasher : Hash} {settings : Settings}.

(** The three signing places produce [issued] tokens. *)
Lemma login_user_issues env form_data w resp w' :
  AuthApi.login_user env form_data w = (Returns resp, w') ->
  issued (AuthApi.access_token resp).
Proof.
  unfold AuthApi.login_user, UserService.get_user_by_username, bind.
  destruct (UserRepository.get_user_by_username _ w)
    as [[[u |] | e] w0]; try discriminate.
  destruct (negb (verify_password _ _)); [discriminate |].
  destruct (negb (User.confirmed u)); [discriminate |].
  intros H. inversion H. simpl. constructor.
Qed.

Lemma send_confirm_email_issues env to_email username host :
  issued (mail_token
            (EmailService.send_confirm_email env to_email username host)).
Proof. simpl. constructor. Qed.

Lemma reset_password_request_issues env body w r w'
    to_email username host token :
  ResetPassword.email body <> EmptyString ->
  AuthApi.reset_password_request env body w = (r, w') ->
  tasks w'
  = tasks w ++ [send_reset_password_email_task to_email username host token] ->
  issued token.
Proof.
  intros Hne.
  unfold AuthApi.reset_password_request, UserService.get_user_by_email, bind.
  destruct (UserRepository.get_user_by_email _ w)
    as [[[u |] | e] w0] eqn:Hget.
  - destruct (get_user_by_email_sound _ _ _ _ Hget) as [-> [_ Hemail]].
    injection Hemail as Hemail.
    destruct (negb (User.confirmed u)); simpl; intros H;
      injection H as Hr Hw; subst r w'; simpl; intros Htasks.
    + rewrite <- (app_nil_r (tasks w)) in Htasks at 1.
      apply app_inv_head in Htasks. discriminate.
    + apply app_inv_head in Htasks. inversion Htasks.
      constructor. now rewrite <- Hemail.
  - apply get_user_by_email_frame in Hget. subst w0.
    intros H; injection H as Hr Hw; subst r w'. intros Htasks.
    rewrite <- (app_nil_r (tasks w)) in Htasks at 1.
    apply app_inv_head in Htasks. discriminate.
  - apply get_user_by_email_frame in Hget. subst w0.
    intros H; injection H as Hr Hw; subst r w'. intros Htasks.
    rewrite <- (app_nil_r (tasks w)) in Htasks at 1.
    apply app_inv_head in Htasks. discriminate.
Qed.


End SignedTokens.





(** ** Request of a password reset *)

Section ResetPasswordRequest.

Context {hasher : Hash} {settings : Settings}.

Variable env : Env.
Variable body : ResetPassword.t.
Variable w : World.

(** Whatever the outcome, the two tables are left as they were. *)
Lemma reset_password_request_frame r w' :
  AuthApi.reset_password_request env body w = (r, w') ->
  users w' = users w /\ contacts w' = contacts w.
Proof.
  unfold AuthApi.reset_password_request, UserService.get_user_by_email, bind.
  destruct (UserRepository.get_user_by_email
              (Some (ResetPassword.email body)) w) as [[[u |] | e] w0] eqn:Hget;
    apply get_user_by_email_frame in Hget; subst w0.
  - destruct (negb (User.confirmed u)); simpl; intros H; inversion H; auto.
  - intros H; inversion H; auto.
  - intros H; inversion H; auto.
Qed.

Lemma reset_password_request_confirmed u :
  users_wf (users w) ->
  In u (users w) ->
  User.email u = ResetPassword.email body ->
  User.confirmed u = true ->
  AuthApi.reset_password_request env body w
  = (Returns CHECK_YOUR_EMAIL,
     mkWorld (users w) (contacts w)
       (tasks w
        ++ [send_reset_password_email_task
              (ResetPassword.email body) (User.username u) (base_url env)
              (AuthService.create_access_token env
                 [("sub"%string, User.email u);
                  ("password"%string, pending_hash env body)])])).
Proof.
  intros Hwf Hin Hemail Hconf.
  unfold AuthApi.reset_password_request, UserService.get_user_by_email, bind.
  rewrite <- Hemail.
  rewrite (get_user_by_email_found w Hwf u Hin), Hconf.
  reflexivity.
Qed.

End ResetPasswordRequest.

(** C7. A password-reset request for a stored, confirmed user answers
    "check your email" and leaves every stored user record, the
    [hashed_password] of the requester included, as it was: the new hash
    travels only in the token of the queued reset mail.  More generally,
    no outcome of the request changes the [users] or the [contacts]
    table. *)
Theorem reset_request_frame :
  forall (hasher : Hash) (settings : Settings) (env : Env)
         (body : ResetPassword.t) (w : World),
    (forall r w',
        AuthApi.reset_password_request env body w = (r, w') ->
        users w' = users w /\ contacts w' = contacts w)
    /\ (forall u,
           users_wf (users w) ->
           In u (users w) ->
           User.email u = ResetPassword.email body ->
           User.confirmed u = true ->
           exists w' reset_token,
             AuthApi.reset_password_request env body w
             = (Returns CHECK_YOUR_EMAIL, w')
             /\ users w' = users w
             /\ In u (users w')
             /\ tasks w'
                = tasks w
                  ++ [send_reset_password_email_task
                        (ResetPassword.email body) (User.username u)
                        (base_url env) reset_token]
             /\ AuthService.get "sub" (claims reset_token)
                = Some (User.email u)
             /\ AuthService.get "password" (claims reset_token)
                = Some (pending_hash env body)).
Proof.
  intros hasher settings env body w.
  split; [apply reset_password_request_frame |].
  intros u Hwf Hin Hemail Hconf.
  eexists. eexists.
  split; [exact (reset_password_request_confirmed env body w u
                   Hwf Hin Hemail Hconf) |].
  simpl. repeat split; auto.
Qed.

(** deadpool asks for a new password; his stored hash stays. *)
Lemma reset_request_frame_witness :
  users_wf (users SampleAuth.world)
  /\ In SampleAuth.deadpool (users SampleAuth.world)
  /\ User.email SampleAuth.deadpool = ResetPassword.email SampleReset.body
  /\ User.confirmed SampleAuth.deadpool = true
  /\ exists w',
       @AuthApi.reset_password_request SampleAuth.hash SampleAuth.settings
         Sample.env SampleReset.body SampleAuth.world
       = (Returns CHECK_YOUR_EMAIL, w')
       /\ users w' = users SampleAuth.world.
Proof.
  assert (Hin : In SampleAuth.deadpool (users SampleAuth.world))
    by (simpl; auto).
  split; [exact sample_users_wf |].
  split; [exact Hin |].
  split; [reflexivity |].
  split; [reflexivity |].
  destruct (proj2 (reset_request_frame SampleAuth.hash SampleAuth.settings
                     Sample.env SampleReset.body SampleAuth.world)
              SampleAuth.deadpool sample_users_wf Hin eq_refl eq_refl)
    as [w' [reset_token [Hrun [Husers _]]]].
  exists w'. split; [exact Hrun | exact Husers].
Defined.

(** ** Registration *)

Section Register.

Context {hasher : Hash} {gravatar : Gravatar}.

Variable env : Env.
Variable user_data : UserCreate.t.
Variable w : World.

(** The row registration builds from the request body. *)
Lemma register_user_returns new_user w' :
  AuthApi.register_user env user_data w = (Returns new_user, w') ->
  User.role new_user = UserCreate.role user_data
  /\ User.username new_user = UserCreate.username user_data
  /\ User.email new_user = UserCreate.email user_data
  /\ User.confirmed new_user = false
  /\ users w' = users w ++ [new_user].
Proof.
  unfold AuthApi.register_user, UserService.get_user_by_email,
    UserService.get_user_by_username, bind.
  destruct (UserRepository.get_user_by_email
              (Some (UserCreate.email user_data)) w)
    as [[[u |] | e] w0] eqn:Hemail; try discriminate.
  apply get_user_by_email_frame in Hemail. subst w0.
  destruct (UserRepository.get_user_by_username
              (UserCreate.username user_data) w)
    as [[[u |] | e] w0] eqn:Hname; try discriminate.
  apply get_user_by_username_frame in Hname. subst w0.
  unfold UserService.create_user, UserRepository.create_user, insert_user.
  destruct (user_unique_ok _ (users w)); [| discriminate].
  simpl. intros H. inversion H; subst. simpl. auto.
Qed.

Lemma register_user_fresh :
  (forall u, In u (users w) -> User.email u <> UserCreate.email user_data) ->
  (forall u, In u (users w) ->
             User.username u <> UserCreate.username user_data) ->
  exists new_user w',
    AuthApi.register_user env user_data w = (Returns new_user, w').
Proof.
  intros Hemail Hname.
  unfold AuthApi.register_user, UserService.get_user_by_email,
    UserService.get_user_by_username, bind.
  rewrite (get_user_by_email_none w (Some (UserCreate.email user_data))).
  2: { intros u Hin Heq. inversion Heq. now apply (Hemail u Hin). }
  rewrite (get_user_by_username_none w _ Hname).
  unfold UserService.create_user, UserRepository.create_user, insert_user.
  replace (user_unique_ok _ (users w)) with true.
  - eexists. eexists. reflexivity.
  - symmetry. unfold user_unique_ok.
    apply negb_true_iff, not_true_is_false. intros Hex.
    apply existsb_exists in Hex. destruct Hex as [r [Hin Hr]].
    apply andb_true_iff in Hr. destruct Hr as [_ Hr]. simpl in Hr.
    apply orb_true_iff in Hr.
    destruct Hr as [Hr | Hr]; apply String.eqb_eq in Hr.
    + now apply (Hname r Hin).
    + now apply (Hemail r Hin).
Qed.

End Register.

(** C9. Registration stores the role the client sent: whenever
    [register_user] returns, the new row carries the [role] of the
    request body and is in the table; and it does return whenever email
    and username are free.  The handler takes no caller identity, so
    this holds for a body that asks for [ADMIN] as for any other. *)
Theorem register_persists_role :
  forall (hasher : Hash) (gravatar : Gravatar) (env : Env)
         (user_data : UserCreate.t) (w : World),
    (forall new_user w',
        AuthApi.register_user env user_data w = (Returns new_user, w') ->
        User.role new_user = UserCreate.role user_data
        /\ In new_user (users w'))
    /\ ((forall u, In u (users w) ->
                   User.email u <> UserCreate.email user_data) ->
        (forall u, In u (users w) ->
                   User.username u <> UserCreate.username user_data) ->
        exists new_user w',
          AuthApi.register_user env user_data w = (Returns new_user, w')
          /\ User.role new_user = UserCreate.role user_data
          /\ In new_user (users w')).
Proof.
  intros hasher gravatar env user_data w.
  assert (Hret : forall new_user w',
             AuthApi.register_user env user_data w = (Returns new_user, w') ->
             User.role new_user = UserCreate.role user_data
             /\ In new_user (users w')).
  { intros new_user w' Hrun.
    destruct (register_user_returns env user_data w new_user w' Hrun)
      as [Hrole [_ [_ [_ Husers]]]].
    split; [exact Hrole |].
    rewrite Husers. apply in_or_app. right. now left. }
  split; [exact Hret |].
  intros Hemail Hname.
  destruct (register_user_fresh env user_data w Hemail Hname)
    as [new_user [w' Hrun]].
  exists new_user, w'. split; [exact Hrun | now apply Hret].
Qed.

(** mallory registers as ADMIN without presenting any credential. *)
Lemma register_persists_role_witness :
  (forall u, In u (users SampleAuth.world) ->
             User.email u <> UserCreate.email SampleRegister.mallory)
  /\ (forall u, In u (users SampleAuth.world) ->
                User.username u <> UserCreate.username SampleRegister.mallory)
  /\ exists new_user w',
       @AuthApi.register_user SampleAuth.hash SampleAuth.gravatar Sample.env
         SampleRegister.mallory SampleAuth.world = (Returns new_user, w')
       /\ User.role new_user = UserRole.ADMIN
       /\ In new_user (users w').
Proof.
  assert (Hemail : forall u, In u (users SampleAuth.world) ->
                     User.email u <> UserCreate.email SampleRegister.mallory).
  { intros u [<- | [<- | []]]; discriminate. }
  assert (Hname : forall u, In u (users SampleAuth.world) ->
                    User.username u
                    <> UserCreate.username SampleRegister.mallory).
  { intros u [<- | [<- | []]]; discriminate. }
  split; [exact Hemail |].
  split; [exact Hname |].
  exact (proj2 (register_persists_role SampleAuth.hash SampleAuth.gravatar
                  Sample.env SampleRegister.mallory SampleAuth.world)
           Hemail Hname).
Defined.

(** ** Expiry windows of the three kinds of token *)



Section Issued.

Context {hasher : Hash} {settings : Settings}.

Variable env : Env.




End Issued.




(* ================================================================== *)
(** * Further properties of the code *)

(** ** The listing of contacts *)

Lemma firstn_plus {A} (a b : nat) (l : list A) :
  firstn (a + b) l = firstn a l ++ firstn b (skipn a l).
Proof.
  revert l. induction a as [| a IH]; intros l; simpl.
  - reflexivity.
  - destruct l as [| x l]; simpl.
    + now rewrite firstn_nil.
    + now rewrite IH.
Qed.

Lemma skipn_plus {A} (a b : nat) (l : list A) :
  skipn (a + b) l = skipn b (skipn a l).
Proof.
  revert l. induction a as [| a IH]; intros l; simpl.
  - reflexivity.
  - destruct l as [| x l]; simpl.
    + now rewrite skipn_nil.
    + apply IH.
Qed.

Lemma in_firstn {A} (n : nat) (l : list A) (x : A) :
  In x (firstn n l) -> In x l.
Proof.
  revert l. induction n as [| n IH]; intros [| y l]; simpl; try tauto.
  intros [H | H]; auto.
Qed.

Lemma in_skipn {A} (n : nat) (l : list A) (x : A) :
  In x (skipn n l) -> In x l.
Proof.
  revert l. induction n as [| n IH]; intros [| y l]; simpl; try tauto.
  intros H. right. now apply IH.
Qed.

Section Listing.

Context {backend : Backend}.

Variables first_name last_name email : string.
Variable user : User.t.
Variable w : World.

(** The listing with a window that is not negative. *)
Lemma get_contacts_run skip limit :
  0 <= skip -> 0 <= limit ->
  ContactsApi.get_contacts first_name last_name email skip limit user w
  = (Returns
       (firstn (Z.to_nat limit)
          (skipn (Z.to_nat skip)
             (filter
                (fun c => (Contact.user_id c =? User.id user)
                          && contains (Contact.first_name c) first_name
                          && contains (Contact.last_name c) last_name
                          && contains (Contact.email c) email)
                (contacts w)))), w).
Proof.
  intros Hskip Hlimit.
  unfold ContactsApi.get_contacts, ContactService.get_contacts,
    ContactRepository.get_contacts, ContactRepository.offset_limit,
    bind, select_contacts.
  replace (0 <=? skip) with true by (symmetry; now apply Z.leb_le).
  replace (0 <=? limit) with true by (symmetry; now apply Z.leb_le).
  reflexivity.
Qed.

End Listing.

(** X1. The listing is owner-scoped: with [skip] and [limit] not
    negative, [get_contacts] returns at most [limit] contacts, each of
    them stored, owned by the caller and passing the three filters, and
    it writes nothing. *)
Theorem get_contacts_owner_scoped :
  forall (backend : Backend) (first_name last_name email : string)
         (skip limit : Z) (user : User.t) (w : World),
    0 <= skip -> 0 <= limit ->
    exists result,
      ContactsApi.get_contacts first_name last_name email skip limit user w
      = (Returns result, w)
      /\ Z.of_nat (List.length result) <= limit
      /\ forall c, In c result ->
                   In c (contacts w)
                   /\ listed first_name last_name email user c.
Proof.
  intros backend first_name last_name email skip limit user w Hskip Hlimit.
  eexists. split; [now apply get_contacts_run |].
  split.
  - pose proof (firstn_le_length (Z.to_nat limit)
                  (skipn (Z.to_nat skip)
                     (filter
                        (fun c => (Contact.user_id c =? User.id user)
                                  && contains (Contact.first_name c) first_name
                                  && contains (Contact.last_name c) last_name
                                  && contains (Contact.email c) email)
                        (contacts w)))) as Hlen.
    lia.
  - intros c Hin.
    apply in_firstn, in_skipn, filter_In in Hin.
    destruct Hin as [Hin Hp].
    rewrite !andb_true_iff in Hp. destruct Hp as [[[H1 H2] H3] H4].
    apply Z.eqb_eq in H1. unfold listed. auto.
Qed.

(** deadpool lists the first page of his contacts. *)
Lemma get_contacts_owner_scoped_witness :
  0 <= 0 /\ 0 <= 100
  /\ exists result,
       @ContactsApi.get_contacts SampleListing.backend "" "" "" 0 100
         Sample.deadpool Sample.world = (Returns result, Sample.world)
       /\ forall c, In c result -> Contact.user_id c = 1.
Proof.
  assert (H0 : 0 <= 0) by lia.
  assert (H100 : 0 <= 100) by lia.
  split; [exact H0 |]. split; [exact H100 |].
  destruct (get_contacts_owner_scoped SampleListing.backend "" "" "" 0 100
              Sample.deadpool Sample.world H0 H100)
    as [result [Hrun [_ Hall]]].
  exists result. split; [exact Hrun |].
  intros c Hin. exact (proj1 (proj2 (Hall c Hin))).
Defined.

(** X2. Pages compose: the page of [a] contacts at [skip] followed by
    the page of [b] contacts at [skip + a] is the page of [a + b]
    contacts at [skip]; no contact is lost or repeated between
    consecutive pages. *)
Theorem get_contacts_pages_compose :
  forall (backend : Backend) (first_name last_name email : string)
         (skip a b : Z) (user : User.t) (w : World),
    0 <= skip -> 0 <= a -> 0 <= b ->
    exists page1 page2,
      ContactsApi.get_contacts first_name last_name email skip a user w
      = (Returns page1, w)
      /\ ContactsApi.get_contacts first_name last_name email (skip + a) b
           user w = (Returns page2, w)
      /\ ContactsApi.get_contacts first_name last_name email skip (a + b)
           user w = (Returns (page1 ++ page2), w).
Proof.
  intros backend first_name last_name email skip a b user w Hskip Ha Hb.
  eexists. eexists.
  split; [apply get_contacts_run; lia |].
  split; [apply get_contacts_run; lia |].
  rewrite get_contacts_run by lia.
  rewrite !Z2Nat.inj_add by lia.
  now rewrite firstn_plus, skipn_plus.
Qed.

Lemma get_contacts_pages_compose_witness :
  0 <= 0 /\ 0 <= 1 /\ 0 <= 1
  /\ exists page1 page2,
       @ContactsApi.get_contacts SampleListing.backend "" "" "" 0 1
         Sample.deadpool Sample.world = (Returns page1, Sample.world)
       /\ @ContactsApi.get_contacts SampleListing.backend "" "" "" 0 2
            Sample.deadpool Sample.world
          = (Returns (page1 ++ page2), Sample.world).
Proof.
  assert (H0 : 0 <= 0) by lia.
  assert (H1 : 0 <= 1) by lia.
  repeat (split; [assumption |]).
  destruct (get_contacts_pages_compose SampleListing.backend "" "" "" 0 1 1
              Sample.deadpool Sample.world H0 H1 H1)
    as [page1 [page2 [Hp1 [_ Hp12]]]].
  exists page1, page2. split; [exact Hp1 | exact Hp12].
Defined.

(** ** What a successful call has done *)

Lemma create_contact_returns env body user w row w' :
  ContactService.create_contact env body user w = (Returns row, w') ->
  w' = set_contacts w (contacts w ++ [row])
  /\ Contact.id row = next_id (map Contact.id (contacts w))
  /\ Contact.user_id row = User.id user
  /\ not_null_ok row = true
  /\ unique_ok row (contacts w) = true.
Proof.
  unfold ContactService.create_contact, bind.
  rewrite is_contact_exists_spec.
  destruct (existsb _ (contacts w)); [discriminate |].
  unfold ContactRepository.create_contact, insert_contact.
  destruct (not_null_ok _) eqn:Hnn; [| discriminate].
  destruct (unique_ok _ (contacts w)) eqn:Hu; [| discriminate].
  simpl. intros H. injection H as Hrow Hw. subst row w'.
  simpl. auto.
Qed.

(** A row that passed the unique check against rows of other keys
    shares no email and no phone number with them. *)
Lemma unique_ok_distinct row table r :
  unique_ok row table = true ->
  In r table ->
  Contact.id r <> Contact.id row ->
  Contact.email r <> Contact.email row
  /\ Contact.phone_number r <> Contact.phone_number row.
Proof.
  unfold unique_ok. intros Hu Hin Hid.
  apply negb_true_iff in Hu.
  assert (Hr : negb (Contact.id r =? Contact.id row)
               && (String.eqb (Contact.email r) (Contact.email row)
                   || String.eqb (Contact.phone_number r)
                                 (Contact.phone_number row)) = false).
  { destruct (negb (Contact.id r =? Contact.id row)
              && (String.eqb (Contact.email r) (Contact.email row)
                  || String.eqb (Contact.phone_number r)
                                (Contact.phone_number row))) eqn:Hp;
      [| reflexivity].
    rewrite <- Hu. symmetry. apply existsb_exists. now exists r. }
  apply Z.eqb_neq in Hid. rewrite Hid in Hr. simpl in Hr.
  apply orb_false_iff in Hr. destruct Hr as [He Hp].
  apply String.eqb_neq in He, Hp. auto.
Qed.

Lemma update_contact_returns env contact_id body user w c' w' :
  ContactRepository.update_contact env contact_id body user w
  = (Returns (Some c'), w') ->
  exists c,
    ContactRepository.get_contact_by_id contact_id user w
    = (Returns (Some c), w)
    /\ ((Contact.same_attrs c (ContactRepository.setattrs c body) = true
         /\ c' = c /\ w' = w)
        \/ (Contact.same_attrs c (ContactRepository.setattrs c body) = false
            /\ c' = Contact.set_updated_at (ContactRepository.setattrs c body)
                                           (now env)
            /\ w' = set_contacts w (replace_contact c' (contacts w))
            /\ not_null_ok c' = true
            /\ unique_ok c' (contacts w) = true)).
Proof.
  unfold ContactRepository.update_contact, bind.
  destruct (ContactRepository.get_contact_by_id contact_id user w)
    as [[[c |] | e] w0] eqn:Hget; try discriminate.
  - destruct (get_contact_by_id_sound _ _ _ _ _ Hget) as [-> _].
    intros H. exists c. split; [reflexivity |].
    unfold flush_contact in H.
    destruct (Contact.same_attrs c (ContactRepository.setattrs c body)).
    + left. injection H as Hc Hw. subst. auto.
    + right. destruct (not_null_ok _) eqn:Hnn; [| discriminate].
      destruct (unique_ok _ (contacts w)) eqn:Hu; [| discriminate].
      simpl in H. injection H as Hc Hw. subst c' w'. auto.
Qed.

(** Keys under [replace_contact] and under a filter. *)
Lemma replace_contact_ids row table :
  map Contact.id (replace_contact row table) = map Contact.id table.
Proof.
  unfold replace_contact. rewrite map_map. apply map_ext.
  intros r. destruct (Z.eqb_spec (Contact.id r) (Contact.id row));
    [now symmetry | reflexivity].
Qed.

Lemma replace_contact_absent row table :
  ~ In (Contact.id row) (map Contact.id table) ->
  replace_contact row table = table.
Proof.
  intros Hnot. unfold replace_contact.
  rewrite <- (map_id table) at 2. apply map_ext_in.
  intros r Hr. destruct (Z.eqb_spec (Contact.id r) (Contact.id row)) as [E | E];
    [| reflexivity].
  exfalso. apply Hnot. rewrite <- E. now apply in_map.
Qed.

Lemma replace_contact_in_inv row table x :
  In x (replace_contact row table) -> x = row \/ In x table.
Proof.
  unfold replace_contact. intros Hin. apply in_map_iff in Hin.
  destruct Hin as [r [Hx Hr]].
  destruct (Contact.id r =? Contact.id row); subst; auto.
Qed.

Lemma NoDup_map_replace {B} (k : Contact.t -> B) row table :
  NoDup (map Contact.id table) ->
  NoDup (map k table) ->
  (forall r, In r table -> Contact.id r <> Contact.id row -> k r <> k row) ->
  NoDup (map k (replace_contact row table)).
Proof.
  induction table as [| x l IH]; intros Hid Hk Hother; simpl.
  - constructor.
  - inversion Hid as [| ? ? Hxid Hid']; subst.
    inversion Hk as [| ? ? Hxk Hk']; subst.
    destruct (Z.eqb_spec (Contact.id x) (Contact.id row)) as [E | E].
    + fold (replace_contact row l).
      rewrite replace_contact_absent by (now rewrite <- E).
      constructor; [| exact Hk'].
      intros Hin. apply in_map_iff in Hin. destruct Hin as [r [Hr Hrl]].
      apply (Hother r (or_intror Hrl)); [| exact Hr].
      intros Heq. apply Hxid. rewrite E, <- Heq. now apply in_map.
    + fold (replace_contact row l).
      constructor.
      * intros Hin. apply in_map_iff in Hin. destruct Hin as [r [Hr Hrl]].
        apply replace_contact_in_inv in Hrl. destruct Hrl as [-> | Hrl].
        -- apply (Hother x (or_introl eq_refl) E). now symmetry.
        -- apply Hxk. rewrite <- Hr. now apply in_map.
      * apply IH; auto. intros r Hr. apply Hother. now right.
Qed.

Lemma NoDup_map_filter {A B} (k : A -> B) (p : A -> bool) (l : list A) :
  NoDup (map k l) -> NoDup (map k (filter p l)).
Proof.
  induction l as [| x l IH]; intros Hnd; simpl.
  - constructor.
  - inversion Hnd as [| ? ? Hx Hnd']; subst.
    destruct (p x); simpl; [| now apply IH].
    constructor; [| now apply IH].
    intros Hin. apply Hx. apply in_map_iff in Hin.
    destruct Hin as [r [Hr Hrl]]. apply filter_In in Hrl.
    rewrite <- Hr. apply in_map. tauto.
Qed.

Lemma NoDup_map_snoc {A B} (k : A -> B) (l : list A) (x : A) :
  NoDup (map k l) -> ~ In (k x) (map k l) -> NoDup (map k (l ++ [x])).
Proof.
  intros Hnd Hx. rewrite map_app. simpl.
  apply NoDup_rev in Hnd.
  rewrite <- (rev_involutive (map k l ++ [k x])).
  apply NoDup_rev. rewrite rev_app_distr. simpl.
  constructor; [| exact Hnd].
  intros Hin. apply Hx. now apply in_rev.
Qed.

(** ** Round trips of the contact operations *)

Lemma filter_by_fresh_id contact_id (p : Contact.t -> bool) table :
  ~ In contact_id (map Contact.id table) ->
  filter (fun c => (Contact.id c =? contact_id) && p c) table = [].
Proof.
  intros Hfresh. apply filter_none. intros c Hin.
  destruct (Z.eqb_spec (Contact.id c) contact_id) as [E | E];
    [| reflexivity].
  exfalso. apply Hfresh. rewrite <- E. now apply in_map.
Qed.

(** X3. Create then read: the contact [create_contact] returns is
    stored under a key no contact had before, [get_contact_by_id] on
    that key gives it back to its owner, and gives [None] to every other
    user. *)
Theorem create_then_get :
  forall (env : Env) (body : ContactModel.t) (user : User.t) (w w' : World)
         (row : Contact.t),
    ContactService.create_contact env body user w = (Returns row, w') ->
    ~ In (Contact.id row) (map Contact.id (contacts w))
    /\ contacts w' = contacts w ++ [row]
    /\ ContactService.get_contact (Contact.id row) user w'
       = (Returns (Some row), w')
    /\ forall other,
         User.id other <> User.id user ->
         ContactService.get_contact (Contact.id row) other w'
         = (Returns None, w').
Proof.
  intros env body user w w' row Hrun.
  destruct (create_contact_returns env body user w row w' Hrun)
    as [-> [Hid [Howner _]]].
  assert (Hfresh : ~ In (Contact.id row) (map Contact.id (contacts w))).
  { rewrite Hid. apply next_id_fresh. }
  split; [exact Hfresh |].
  split; [reflexivity |].
  unfold ContactService.get_contact, ContactRepository.get_contact_by_id,
    bind, select_contacts. simpl.
  split.
  - rewrite filter_app, (filter_by_fresh_id _ _ _ Hfresh). simpl.
    now rewrite Z.eqb_refl, Howner, Z.eqb_refl.
  - intros other Hother.
    rewrite filter_app, (filter_by_fresh_id _ _ _ Hfresh). simpl.
    rewrite Z.eqb_refl, Howner. simpl.
    replace (User.id user =? User.id other) with false
      by (symmetry; apply Z.eqb_neq; congruence).
    reflexivity.
Qed.

Lemma create_then_get_witness :
  exists row w',
    ContactService.create_contact Sample.env SampleCreate.body_with_birth_date
      Sample.deadpool SampleCreate.empty = (Returns row, w')
    /\ ContactService.get_contact (Contact.id row) Sample.deadpool w'
       = (Returns (Some row), w').
Proof.
  eexists. eexists.
  assert (Hrun : ContactService.create_contact Sample.env
                   SampleCreate.body_with_birth_date Sample.deadpool
                   SampleCreate.empty
                 = (Returns
                      (Contact.mk 1 "Carol" "Danvers" "carol@example.com"
                         "555-222-3333" (Some 726468) 1793808000 1793808000
                         1 None),
                    set_contacts SampleCreate.empty
                      [Contact.mk 1 "Carol" "Danvers" "carol@example.com"
                         "555-222-3333" (Some 726468) 1793808000 1793808000
                         1 None]))
    by reflexivity.
  split; [exact Hrun |].
  exact (proj1 (proj2 (proj2
           (create_then_get Sample.env SampleCreate.body_with_birth_date
              Sample.deadpool SampleCreate.empty _ _ Hrun)))).
Defined.

(** X4. Remove then read: removing a contact the caller owns returns
    it, takes the rows of that key out of the table and leaves every
    other row, the users and the queued mails as they were; from then
    on the key answers 404 for every user. *)
Theorem remove_then_get :
  forall (contact_id : Z) (user : User.t) (w : World) (c : Contact.t),
    ContactRepository.get_contact_by_id contact_id user w
    = (Returns (Some c), w) ->
    exists w',
      ContactsApi.remove_contact contact_id user w = (Returns c, w')
      /\ contacts w'
         = filter (fun r => negb (Contact.id r =? contact_id)) (contacts w)
      /\ users w' = users w
      /\ tasks w' = tasks w
      /\ (forall r, In r (contacts w) -> Contact.id r <> contact_id ->
                    In r (contacts w'))
      /\ forall anyone,
           ContactsApi.get_contact contact_id anyone w'
           = (Raises (HTTPException 404 CONTACT_NOT_FOUND), w').
Proof.
  intros contact_id user w c Hget.
  destruct (get_contact_by_id_sound _ _ _ _ _ Hget) as [_ [Hin [Hid _]]].
  eexists. split.
  { unfold ContactsApi.remove_contact, ContactService.remove_contact,
      ContactRepository.remove_contact, bind.
    rewrite Hget. unfold delete_contact. simpl. reflexivity. }
  simpl. rewrite Hid.
  split; [reflexivity |].
  split; [reflexivity |].
  split; [reflexivity |].
  split.
  - intros r Hr Hneq. apply filter_In. split; [exact Hr |].
    apply negb_true_iff, Z.eqb_neq. exact Hneq.
  - intros anyone.
    unfold ContactsApi.get_contact, ContactService.get_contact, bind.
    rewrite get_contact_by_id_foreign; [reflexivity |].
    intros r Hr Heq. exfalso. simpl in Hr.
    apply filter_In in Hr. destruct Hr as [_ Hr].
    apply negb_true_iff, Z.eqb_neq in Hr. contradiction.
Qed.

(** deadpool deletes bob. *)
Lemma remove_then_get_witness :
  ContactRepository.get_contact_by_id 1 Sample.deadpool Sample.world
  = (Returns (Some Sample.bob), Sample.world)
  /\ exists w',
       ContactsApi.remove_contact 1 Sample.deadpool Sample.world
       = (Returns Sample.bob, w')
       /\ ContactsApi.get_contact 1 Sample.deadpool w'
          = (Raises (HTTPException 404 CONTACT_NOT_FOUND), w').
Proof.
  assert (Hget : ContactRepository.get_contact_by_id 1 Sample.deadpool
                   Sample.world = (Returns (Some Sample.bob), Sample.world))
    by reflexivity.
  split; [exact Hget |].
  destruct (remove_then_get 1 Sample.deadpool Sample.world Sample.bob Hget)
    as [w' [Hrun [_ [_ [_ [_ Hgone]]]]]].
  exists w'. split; [exact Hrun | apply Hgone].
Defined.

(** ** The invariant of the [contacts] table *)

Lemma not_null_ok_birth_date row :
  not_null_ok row = true -> Contact.birth_date row <> None.
Proof.
  unfold not_null_ok. destruct (Contact.birth_date row); [discriminate |].
  intros H. discriminate.
Qed.

Section ContactsInvariant.

Variable w : World.

Hypothesis Hwf : contacts_wf (contacts w).
Hypothesis Hset : birth_dates_set (contacts w).

Lemma invariant_after_insert row :
  Contact.id row = next_id (map Contact.id (contacts w)) ->
  not_null_ok row = true ->
  unique_ok row (contacts w) = true ->
  contacts_wf (contacts w ++ [row]) /\ birth_dates_set (contacts w ++ [row]).
Proof.
  intros Hid Hnn Hu. destruct Hwf as [Hids [Hemails Hphones]].
  assert (Hfresh : ~ In (Contact.id row) (map Contact.id (contacts w)))
    by (rewrite Hid; apply next_id_fresh).
  assert (Hother : forall r, In r (contacts w) ->
                     Contact.email r <> Contact.email row
                     /\ Contact.phone_number r <> Contact.phone_number row).
  { intros r Hr. apply (unique_ok_distinct row (contacts w) r Hu Hr).
    intros Heq. apply Hfresh. rewrite <- Heq. now apply in_map. }
  split; [split; [| split] |].
  - now apply NoDup_map_snoc.
  - apply NoDup_map_snoc; [exact Hemails |].
    intros Hin. apply in_map_iff in Hin. destruct Hin as [r [Hr Hrl]].
    now apply (proj1 (Hother r Hrl)).
  - apply NoDup_map_snoc; [exact Hphones |].
    intros Hin. apply in_map_iff in Hin. destruct Hin as [r [Hr Hrl]].
    now apply (proj2 (Hother r Hrl)).
  - apply Forall_app. split; [exact Hset |].
    constructor; [now apply not_null_ok_birth_date | constructor].
Qed.

Lemma invariant_after_replace row :
  not_null_ok row = true ->
  unique_ok row (contacts w) = true ->
  contacts_wf (replace_contact row (contacts w))
  /\ birth_dates_set (replace_contact row (contacts w)).
Proof.
  intros Hnn Hu. destruct Hwf as [Hids [Hemails Hphones]].
  split; [split; [| split] |].
  - now rewrite replace_contact_ids.
  - apply NoDup_map_replace; auto.
    intros r Hr Hneq. exact (proj1 (unique_ok_distinct _ _ r Hu Hr Hneq)).
  - apply NoDup_map_replace; auto.
    intros r Hr Hneq. exact (proj2 (unique_ok_distinct _ _ r Hu Hr Hneq)).
  - apply Forall_forall. intros x Hx.
    apply replace_contact_in_inv in Hx. destruct Hx as [-> | Hx].
    + now apply not_null_ok_birth_date.
    + unfold birth_dates_set in Hset. rewrite Forall_forall in Hset.
      now apply Hset.
Qed.

Lemma invariant_after_delete (p : Contact.t -> bool) :
  contacts_wf (filter p (contacts w))
  /\ birth_dates_set (filter p (contacts w)).
Proof.
  destruct Hwf as [Hids [Hemails Hphones]].
  split; [split; [| split] |]; try now apply NoDup_map_filter.
  apply Forall_forall. intros x Hx. apply filter_In in Hx.
  unfold birth_dates_set in Hset. rewrite Forall_forall in Hset.
  now apply Hset.
Qed.

End ContactsInvariant.

(** The state a call leaves behind when it does not return a row. *)
Lemma create_contact_raises env body user w e w' :
  ContactService.create_contact env body user w = (Raises e, w') -> w' = w.
Proof.
  unfold ContactService.create_contact, bind.
  rewrite is_contact_exists_spec.
  destruct (existsb _ (contacts w)).
  - intros H. now inversion H.
  - unfold ContactRepository.create_contact, insert_contact.
    destruct (not_null_ok _ && unique_ok _ _); intros H; now inversion H.
Qed.

Lemma update_contact_unchanged env contact_id body user w r w' :
  ContactRepository.update_contact env contact_id body user w = (r, w') ->
  (forall c', r <> Returns (Some c')) ->
  w' = w.
Proof.
  unfold ContactRepository.update_contact, bind.
  destruct (ContactRepository.get_contact_by_id contact_id user w)
    as [[[c |] | e] w0] eqn:Hget.
  - destruct (get_contact_by_id_sound _ _ _ _ _ Hget) as [-> _].
    unfold flush_contact.
    destruct (Contact.same_attrs _ _).
    + intros H Hnot. inversion H; subst. now elim (Hnot c).
    + destruct (not_null_ok _ && unique_ok _ _); intros H Hnot;
        inversion H; subst; [| reflexivity].
      now elim (Hnot (Contact.set_updated_at
                        (ContactRepository.setattrs c body) (now env))).
  - unfold ContactRepository.get_contact_by_id, bind, select_contacts in Hget.
    destruct (filter _ (contacts w)) as [| x [| y rest]]; simpl in Hget;
      inversion Hget; subst.
    intros H _. now inversion H.
  - unfold ContactRepository.get_contact_by_id, bind, select_contacts in Hget.
    destruct (filter _ (contacts w)) as [| x [| y rest]]; simpl in Hget;
      inversion Hget; subst.
    intros H _. now inversion H.
Qed.

(** X5. The contact operations keep the invariant of the table: if
    primary keys, emails and phone numbers are unique and every row has
    a birth date, then the same holds after [create_contact],
    [update_contact] and [remove_contact], for every input and every
    outcome. *)
Theorem contacts_invariant_preserved :
  forall (env : Env) (w : World),
    contacts_wf (contacts w) ->
    birth_dates_set (contacts w) ->
    (forall body user r w',
        ContactsApi.create_contact env body user w = (r, w') ->
        contacts_wf (contacts w') /\ birth_dates_set (contacts w'))
    /\ (forall body contact_id user r w',
           ContactsApi.update_contact env body contact_id user w = (r, w') ->
           contacts_wf (contacts w') /\ birth_dates_set (contacts w'))
    /\ (forall contact_id user r w',
           ContactsApi.remove_contact contact_id user w = (r, w') ->
           contacts_wf (contacts w') /\ birth_dates_set (contacts w')).
Proof.
  intros env w Hwf Hset.
  split; [| split].
  - intros body user r w' Hrun. unfold ContactsApi.create_contact in Hrun.
    destruct r as [row | e].
    + destruct (create_contact_returns _ _ _ _ _ _ Hrun)
        as [-> [Hid [_ [Hnn Hu]]]].
      simpl. now apply invariant_after_insert.
    + apply create_contact_raises in Hrun. subst w'. auto.
  - intros body contact_id user r w'.
    unfold ContactsApi.update_contact, ContactService.update_contact, bind.
    destruct (ContactRepository.update_contact env contact_id body user w)
      as [[[c' |] | e] w0] eqn:Hupd.
    + simpl. intros H. injection H as _ Hw. subst w0.
      destruct (update_contact_returns _ _ _ _ _ _ _ Hupd)
        as [c [_ [[_ [_ ->]] | [_ [_ [-> [Hnn Hu]]]]]]]; [auto |].
      simpl. now apply invariant_after_replace.
    + simpl. intros H. injection H as _ Hw. subst w0.
      apply update_contact_unchanged in Hupd; [subst w'; auto |].
      intros c'. discriminate.
    + intros H. injection H as _ Hw. subst w0.
      apply update_contact_unchanged in Hupd; [subst w'; auto |].
      intros c'. discriminate.
  - intros contact_id user r w'.
    unfold ContactsApi.remove_contact, ContactService.remove_contact,
      ContactRepository.remove_contact, bind.
    destruct (ContactRepository.get_contact_by_id contact_id user w)
      as [[[c |] | e] w0] eqn:Hget.
    + destruct (get_contact_by_id_sound _ _ _ _ _ Hget) as [-> _].
      unfold delete_contact. simpl. intros H. injection H as _ Hw. subst w'.
      simpl. now apply invariant_after_delete.
    + unfold ContactRepository.get_contact_by_id, bind, select_contacts in Hget.
      destruct (filter _ (contacts w)) as [| x [| y rest]]; simpl in Hget;
        inversion Hget; subst.
      simpl. intros H. injection H as _ Hw. subst w'. auto.
    + unfold ContactRepository.get_contact_by_id, bind, select_contacts in Hget.
      destruct (filter _ (contacts w)) as [| x [| y rest]]; simpl in Hget;
        inversion Hget; subst.
      intros H. injection H as _ Hw. subst w'. auto.
Qed.

Lemma sample_birth_dates_set : birth_dates_set (contacts Sample.world).
Proof. repeat constructor; discriminate. Qed.

(** deadpool renames bob; the table stays well-formed. *)
Lemma contacts_invariant_preserved_witness :
  contacts_wf (contacts Sample.world)
  /\ birth_dates_set (contacts Sample.world)
  /\ forall r w',
       ContactsApi.update_contact Sample.env SampleUpdate.rename 1
         Sample.deadpool Sample.world = (r, w') ->
       contacts_wf (contacts w').
Proof.
  split; [exact sample_contacts_wf |].
  split; [exact sample_birth_dates_set |].
  intros r w' Hrun.
  exact (proj1 (proj1 (proj2
           (contacts_invariant_preserved Sample.env Sample.world
              sample_contacts_wf sample_birth_dates_set))
           SampleUpdate.rename 1 Sample.deadpool r w' Hrun)).
Defined.

(** ** Updates, again *)

Lemma option_eqb_refl {A} (eqb : A -> A -> bool) (x : option A) :
  (forall a, eqb a a = true) -> Contact.option_eqb eqb x x = true.
Proof. intros Hrefl. destruct x; simpl; auto. Qed.

(** Assigning the same body to the row it produced changes no column. *)
Lemma same_attrs_setattrs_again c body t :
  Contact.same_attrs
    (Contact.set_updated_at (ContactRepository.setattrs c body) t)
    (ContactRepository.setattrs
       (Contact.set_updated_at (ContactRepository.setattrs c body) t) body)
  = true.
Proof.
  unfold Contact.same_attrs. simpl.
  rewrite !String.eqb_refl. simpl.
  destruct (ContactModel.birth_date body), (ContactModel.info body); simpl;
    rewrite !option_eqb_refl;
    auto using Z.eqb_refl, String.eqb_refl.
Qed.

(** X6. An update touches one row and only its assignable columns: when
    [update_contact] returns a row, that row has kept the key, the owner
    and [created_at] of the stored one, it stands in its place in the
    table, every other row, the users and the queued mails are as they
    were, and [updated_at] is the time of the request unless no column
    changed. *)
Theorem update_contact_frame :
  forall (env : Env) (contact_id : Z) (body : ContactModel.t) (user : User.t)
         (w w' : World) (c' : Contact.t),
    NoDup (map Contact.id (contacts w)) ->
    ContactService.update_contact env contact_id body user w
    = (Returns (Some c'), w') ->
    exists c,
      In c (contacts w)
      /\ Contact.id c = contact_id
      /\ Contact.user_id c = User.id user
      /\ Contact.id c' = contact_id
      /\ Contact.user_id c' = Contact.user_id c
      /\ Contact.created_at c' = Contact.created_at c
      /\ contacts w'
         = map (fun r => if Contact.id r =? contact_id then c' else r)
               (contacts w)
      /\ users w' = users w
      /\ tasks w' = tasks w
      /\ (c' = c \/ Contact.updated_at c' = now env).
Proof.
  intros env contact_id body user w w' c' Hnd Hrun.
  unfold ContactService.update_contact in Hrun.
  destruct (update_contact_returns _ _ _ _ _ _ _ Hrun) as [c [Hget Hcase]].
  destruct (get_contact_by_id_sound _ _ _ _ _ Hget) as [_ [Hin [Hid Hown]]].
  exists c.
  destruct Hcase as [[_ [-> ->]] | [_ [Hc' [-> _]]]].
  - repeat (split; [auto; fail |]).
    split; [| auto].
    rewrite <- (map_id (contacts w)) at 1. apply map_ext_in.
    intros r Hr. destruct (Z.eqb_spec (Contact.id r) contact_id) as [E | E];
      [| reflexivity].
    apply (NoDup_map_inj Contact.id (contacts w)); auto. congruence.
  - assert (Hid' : Contact.id c' = contact_id) by (subst c'; exact Hid).
    repeat (split; [subst c'; auto; fail |]).
    split; [| split; [reflexivity | split; [reflexivity |]]].
    + simpl. unfold replace_contact. now rewrite Hid'.
    + right. subst c'. reflexivity.
Qed.

Lemma update_contact_frame_witness :
  NoDup (map Contact.id (contacts Sample.world))
  /\ exists c' w',
       ContactService.update_contact Sample.env 1 SampleUpdate.rename
         Sample.deadpool Sample.world = (Returns (Some c'), w')
       /\ Contact.user_id c' = 1
       /\ Contact.updated_at c' = now Sample.env.
Proof.
  assert (Hnd : NoDup (map Contact.id (contacts Sample.world)))
    by exact (proj1 sample_contacts_wf).
  split; [exact Hnd |].
  eexists. eexists.
  assert (Hrun : ContactService.update_contact Sample.env 1 SampleUpdate.rename
                   Sample.deadpool Sample.world
                 = (Returns
                      (Some (Contact.set_updated_at
                               (ContactRepository.setattrs Sample.bob
                                  SampleUpdate.rename)
                               (now Sample.env))),
                    set_contacts Sample.world
                      (replace_contact
                         (Contact.set_updated_at
                            (ContactRepository.setattrs Sample.bob
                               SampleUpdate.rename)
                            (now Sample.env))
                         (contacts Sample.world))))
    by reflexivity.
  split; [exact Hrun |].
  destruct (update_contact_frame Sample.env 1 SampleUpdate.rename
              Sample.deadpool Sample.world _ _ Hnd Hrun)
    as [c [_ [_ [Hown [_ [Hown' [_ [_ [_ [_ [Hsame | Hnow]]]]]]]]]]].
  - split; reflexivity.
  - split; [reflexivity | exact Hnow].
Defined.

(** X7. An update is idempotent: once [update_contact] has returned a
    row, the same request sent again, at any later time, returns that
    very row and changes nothing, not even [updated_at]. *)
Theorem update_contact_idempotent :
  forall (env env' : Env) (contact_id : Z) (body : ContactModel.t)
         (user : User.t) (w w' : World) (c' : Contact.t),
    NoDup (map Contact.id (contacts w)) ->
    ContactService.update_contact env contact_id body user w
    = (Returns (Some c'), w') ->
    ContactService.update_contact env' contact_id body user w'
    = (Returns (Some c'), w').
Proof.
  intros env env' contact_id body user w w' c' Hnd Hrun.
  unfold ContactService.update_contact in *.
  destruct (update_contact_returns _ _ _ _ _ _ _ Hrun) as [c [Hget Hcase]].
  destruct (get_contact_by_id_sound _ _ _ _ _ Hget) as [_ [Hin [Hid Hown]]].
  destruct Hcase as [[Hsame [-> ->]] | [_ [Hc' [-> _]]]].
  - rewrite (update_contact_found _ _ _ _ _ _ Hget).
    unfold flush_contact. now rewrite Hsame.
  - assert (Hget' : ContactRepository.get_contact_by_id contact_id user
                      (set_contacts w (replace_contact c' (contacts w)))
                    = (Returns (Some c'),
                       set_contacts w (replace_contact c' (contacts w)))).
    { assert (Hid' : Contact.id c' = contact_id) by (subst c'; exact Hid).
      rewrite <- Hid'. apply get_contact_by_id_owned.
      - simpl. now rewrite replace_contact_ids.
      - simpl. apply replace_contact_in with (c := c); [exact Hin |].
        congruence.
      - subst c'. exact Hown. }
    rewrite (update_contact_found _ _ _ _ _ _ Hget').
    unfold flush_contact. subst c'.
    now rewrite same_attrs_setattrs_again.
Qed.

Lemma update_contact_idempotent_witness :
  NoDup (map Contact.id (contacts Sample.world))
  /\ exists c' w',
       ContactService.update_contact Sample.env 1 SampleUpdate.rename
         Sample.deadpool Sample.world = (Returns (Some c'), w')
       /\ ContactService.update_contact SampleConfirm.later 1
            SampleUpdate.rename Sample.deadpool w' = (Returns (Some c'), w').
Proof.
  assert (Hnd : NoDup (map Contact.id (contacts Sample.world)))
    by exact (proj1 sample_contacts_wf).
  split; [exact Hnd |].
  eexists. eexists.
  assert (Hrun : ContactService.update_contact Sample.env 1 SampleUpdate.rename
                   Sample.deadpool Sample.world
                 = (Returns
                      (Some (Contact.set_updated_at
                               (ContactRepository.setattrs Sample.bob
                                  SampleUpdate.rename)
                               (now Sample.env))),
                    set_contacts Sample.world
                      (replace_contact
                         (Contact.set_updated_at
                            (ContactRepository.setattrs Sample.bob
                               SampleUpdate.rename)
                            (now Sample.env))
                         (contacts Sample.world))))
    by reflexivity.
  split; [exact Hrun |].
  exact (update_contact_idempotent Sample.env SampleConfirm.later 1
           SampleUpdate.rename Sample.deadpool Sample.world _ _ Hnd Hrun).
Defined.

(** ** More on the [users] table *)

Lemma get_user_by_id_sound user_id w u w' :
  UserRepository.get_user_by_id user_id w = (Returns (Some u), w') ->
  w' = w /\ In u (users w) /\ User.id u = user_id.
Proof.
  unfold UserRepository.get_user_by_id, bind, select_users.
  destruct (filter _ (users w)) as [| x [| y rest]] eqn:Hf; simpl;
    intros H; try discriminate.
  injection H as Hx Hw. subst x w'.
  assert (Hin : In u (filter (fun v => User.id v =? user_id) (users w)))
    by (rewrite Hf; now left).
  apply filter_In in Hin. destruct Hin as [Hin Hp].
  apply Z.eqb_eq in Hp. auto.
Qed.

Lemma get_user_by_id_frame user_id w r w' :
  UserRepository.get_user_by_id user_id w = (r, w') -> w' = w.
Proof.
  unfold UserRepository.get_user_by_id, bind, select_users.
  destruct (filter _ (users w)) as [| x [| y rest]]; simpl;
    intros H; now inversion H.
Qed.

(** Writing back a row whose three keys are those of a stored row keeps
    the table well-formed. *)
Lemma users_wf_replace (f : User.t -> User.t) (u : User.t) (l : list User.t) :
  (forall r, User.id (f r) = User.id r) ->
  (forall r, User.username (f r) = User.username r) ->
  (forall r, User.email (f r) = User.email r) ->
  users_wf l -> In u l ->
  users_wf (replace_user (f u) l).
Proof.
  intros Hid Hname Hemail Hwf Hin.
  apply (users_wf_only_row_changed f (User.id u) l); auto.
  unfold only_row_changed.
  apply replace_user_map; [apply Hwf | exact Hin | apply Hid].
Qed.

Lemma user_unique_ok_distinct row table r :
  user_unique_ok row table = true ->
  In r table ->
  User.id r <> User.id row ->
  User.username r <> User.username row /\ User.email r <> User.email row.
Proof.
  unfold user_unique_ok. intros Hu Hin Hid.
  apply negb_true_iff in Hu.
  assert (Hr : negb (User.id r =? User.id row)
               && (String.eqb (User.username r) (User.username row)
                   || String.eqb (User.email r) (User.email row)) = false).
  { destruct (negb (User.id r =? User.id row)
              && (String.eqb (User.username r) (User.username row)
                  || String.eqb (User.email r) (User.email row))) eqn:Hp;
      [| reflexivity].
    rewrite <- Hu. symmetry. apply existsb_exists. now exists r. }
  apply Z.eqb_neq in Hid. rewrite Hid in Hr. simpl in Hr.
  apply orb_false_iff in Hr. destruct Hr as [Hn He].
  apply String.eqb_neq in Hn, He. auto.
Qed.

Lemma users_wf_insert row table :
  users_wf table ->
  User.id row = next_id (map User.id table) ->
  user_unique_ok row table = true ->
  users_wf (table ++ [row]).
Proof.
  intros [Hids [Hnames Hemails]] Hid Hu.
  assert (Hfresh : ~ In (User.id row) (map User.id table))
    by (rewrite Hid; apply next_id_fresh).
  assert (Hother : forall r, In r table ->
                     User.username r <> User.username row
                     /\ User.email r <> User.email row).
  { intros r Hr. apply (user_unique_ok_distinct row table r Hu Hr).
    intros Heq. apply Hfresh. rewrite <- Heq. now apply in_map. }
  split; [| split].
  - now apply NoDup_map_snoc.
  - apply NoDup_map_snoc; [exact Hnames |].
    intros Hin. apply in_map_iff in Hin. destruct Hin as [r [Hr Hrl]].
    now apply (proj1 (Hother r Hrl)).
  - apply NoDup_map_snoc; [exact Hemails |].
    intros Hin. apply in_map_iff in Hin. destruct Hin as [r [Hr Hrl]].
    now apply (proj2 (Hother r Hrl)).
Qed.

(** ** Registration, again *)

Section RegisterMore.

Context {hasher : Hash} {gravatar : Gravatar}.

Variable env : Env.
Variable user_data : UserCreate.t.
Variable w : World.

Lemma register_user_inversion new_user w' :
  AuthApi.register_user env user_data w = (Returns new_user, w') ->
  registered env user_data new_user
  /\ User.id new_user = next_id (map User.id (users w))
  /\ user_unique_ok new_user (users w) = true
  /\ w' = mkWorld (users w ++ [new_user]) (contacts w)
            (tasks w
             ++ [send_confirm_email_task (UserCreate.email user_data)
                   (UserCreate.username user_data) (base_url env)]).
Proof.
  unfold AuthApi.register_user, UserService.get_user_by_email,
    UserService.get_user_by_username, bind.
  destruct (UserRepository.get_user_by_email
              (Some (UserCreate.email user_data)) w)
    as [[[u |] | e] w0] eqn:Hemail; try discriminate.
  apply get_user_by_email_frame in Hemail. subst w0.
  destruct (UserRepository.get_user_by_username
              (UserCreate.username user_data) w)
    as [[[u |] | e] w0] eqn:Hname; try discriminate.
  apply get_user_by_username_frame in Hname. subst w0.
  unfold UserService.create_user, UserRepository.create_user, insert_user.
  destruct (user_unique_ok _ (users w)) eqn:Hu; [| discriminate].
  simpl. intros H. injection H as Hrow Hw. subst new_user w'.
  unfold registered. simpl. auto 10.
Qed.

Lemma register_user_email_taken u :
  users_wf (users w) ->
  In u (users w) ->
  User.email u = UserCreate.email user_data ->
  AuthApi.register_user env user_data w
  = (Raises (HTTPException 409 USER_EMAIL_ALREADY_EXISTS), w).
Proof.
  intros Hwf Hin Hemail.
  unfold AuthApi.register_user, UserService.get_user_by_email, bind.
  rewrite <- Hemail, (get_user_by_email_found w Hwf u Hin).
  reflexivity.
Qed.

Lemma register_user_username_taken u :
  users_wf (users w) ->
  (forall v, In v (users w) -> User.email v <> UserCreate.email user_data) ->
  In u (users w) ->
  User.username u = UserCreate.username user_data ->
  AuthApi.register_user env user_data w
  = (Raises (HTTPException 409 USER_NAME_ALREADY_EXISTS), w).
Proof.
  intros Hwf Hfree Hin Hname.
  unfold AuthApi.register_user, UserService.get_user_by_email,
    UserService.get_user_by_username, bind.
  rewrite (get_user_by_email_none w (Some (UserCreate.email user_data))).
  2: { intros v Hv Heq. inversion Heq. now apply (Hfree v Hv). }
  rewrite <- Hname, (get_user_by_username_found w Hwf u Hin).
  reflexivity.
Qed.

End RegisterMore.

(** X8. Registration refuses duplicates, the email first: on a
    well-formed table, a body whose email is stored is answered 409
    [USER_EMAIL_ALREADY_EXISTS], whether or not its username is stored
    too; a body whose email is free and whose username is stored is
    answered 409 [USER_NAME_ALREADY_EXISTS].  In both cases nothing is
    stored and no mail is queued. *)
Theorem register_refuses_duplicates :
  forall (hasher : Hash) (gravatar : Gravatar) (env : Env)
         (user_data : UserCreate.t) (w : World),
    users_wf (users w) ->
    ((exists u, In u (users w)
                /\ User.email u = UserCreate.email user_data) ->
     AuthApi.register_user env user_data w
     = (Raises (HTTPException 409 USER_EMAIL_ALREADY_EXISTS), w))
    /\ ((forall v, In v (users w) ->
                   User.email v <> UserCreate.email user_data) ->
        (exists u, In u (users w)
                   /\ User.username u = UserCreate.username user_data) ->
        AuthApi.register_user env user_data w
        = (Raises (HTTPException 409 USER_NAME_ALREADY_EXISTS), w)).
Proof.
  intros hasher gravatar env user_data w Hwf. split.
  - intros [u [Hin Hemail]]. now apply (register_user_email_taken _ _ _ u).
  - intros Hfree [u [Hin Hname]].
    now apply (register_user_username_taken _ _ _ u).
Qed.

(** Email of deadpool, username of agent007: the email is reported. *)
Lemma register_refuses_duplicates_witness :
  users_wf (users SampleAuth.world)
  /\ (exists u, In u (users SampleAuth.world)
                /\ User.email u = UserCreate.email SampleRegister2.clash)
  /\ @AuthApi.register_user SampleAuth.hash SampleAuth.gravatar Sample.env
       SampleRegister2.clash SampleAuth.world
     = (Raises (HTTPException 409 USER_EMAIL_ALREADY_EXISTS), SampleAuth.world).
Proof.
  assert (Hex : exists u, In u (users SampleAuth.world)
                  /\ User.email u = UserCreate.email SampleRegister2.clash).
  { exists SampleAuth.deadpool. simpl. auto. }
  split; [exact sample_users_wf |].
  split; [exact Hex |].
  exact (proj1 (register_refuses_duplicates SampleAuth.hash SampleAuth.gravatar
                  Sample.env SampleRegister2.clash SampleAuth.world
                  sample_users_wf) Hex).
Defined.

(** X9. Register then look up: when [register_user] returns, the new
    row carries the username, email and role of the body, the hash (not
    the password) the hasher made, the gravatar, and [confirmed=false];
    one confirmation mail for that email is queued; the table is still
    well-formed, and the lookups by email, by username and by id all
    return the new row. *)
Theorem register_then_lookup :
  forall (hasher : Hash) (gravatar : Gravatar) (env : Env)
         (user_data : UserCreate.t) (w w' : World) (new_user : User.t),
    users_wf (users w) ->
    AuthApi.register_user env user_data w = (Returns new_user, w') ->
    registered env user_data new_user
    /\ users_wf (users w')
    /\ contacts w' = contacts w
    /\ tasks w'
       = tasks w
         ++ [send_confirm_email_task (UserCreate.email user_data)
               (UserCreate.username user_data) (base_url env)]
    /\ UserService.get_user_by_email (Some (UserCreate.email user_data)) w'
       = (Returns (Some new_user), w')
    /\ UserService.get_user_by_username (UserCreate.username user_data) w'
       = (Returns (Some new_user), w')
    /\ UserService.get_user_by_id (User.id new_user) w'
       = (Returns (Some new_user), w').
Proof.
  intros hasher gravatar env user_data w w' new_user Hwf Hrun.
  destruct (register_user_inversion env user_data w new_user w' Hrun)
    as [Hreg [Hid [Hu ->]]].
  assert (Hwf' : users_wf (users w ++ [new_user]))
    by now apply users_wf_insert.
  assert (Hin : In new_user (users w ++ [new_user]))
    by (apply in_or_app; right; now left).
  destruct Hreg as [Hname [Hemail Hrest]].
  split; [unfold registered; auto |].
  split; [exact Hwf' |].
  split; [reflexivity |].
  split; [reflexivity |].
  unfold UserService.get_user_by_email, UserService.get_user_by_username,
    UserService.get_user_by_id.
  split; [| split].
  - rewrite <- Hemail. now apply get_user_by_email_found.
  - rewrite <- Hname. now apply get_user_by_username_found.
  - now apply get_user_by_id_found.
Qed.

Lemma register_then_lookup_witness :
  users_wf (users SampleAuth.world)
  /\ exists new_user w',
       @AuthApi.register_user SampleAuth.hash SampleAuth.gravatar Sample.env
         SampleRegister.mallory SampleAuth.world = (Returns new_user, w')
       /\ UserService.get_user_by_username "mallory" w'
          = (Returns (Some new_user), w').
Proof.
  split; [exact sample_users_wf |].
  eexists. eexists.
  assert (Hrun : @AuthApi.register_user SampleAuth.hash SampleAuth.gravatar
                   Sample.env SampleRegister.mallory SampleAuth.world
                 = (Returns
                      (User.mk 3 "mallory" "mallory@example.com" "salt$letmein"
                         1793808000
                         (Some "https://www.gravatar.com/avatar/mallory@example.com"%string)
                         false UserRole.ADMIN),
                    mkWorld
                      (users SampleAuth.world
                       ++ [User.mk 3 "mallory" "mallory@example.com"
                             "salt$letmein" 1793808000
                             (Some "https://www.gravatar.com/avatar/mallory@example.com"%string)
                             false UserRole.ADMIN])
                      []
                      [send_confirm_email_task "mallory@example.com" "mallory"
                         "http://testserver/"]))
    by (vm_compute; reflexivity).
  split; [exact Hrun |].
  exact (proj1 (proj2 (proj2 (proj2 (proj2 (proj2
           (register_then_lookup SampleAuth.hash SampleAuth.gravatar
              Sample.env SampleRegister.mallory SampleAuth.world _ _
              sample_users_wf Hrun))))))).
Defined.

(** ** The states the auth handlers can leave behind *)

Lemma register_user_raises {hasher : Hash} {gravatar : Gravatar}
    env user_data w e w' :
  AuthApi.register_user env user_data w = (Raises e, w') -> w' = w.
Proof.
  unfold AuthApi.register_user, UserService.get_user_by_email,
    UserService.get_user_by_username, bind.
  destruct (UserRepository.get_user_by_email
              (Some (UserCreate.email user_data)) w)
    as [[[u |] | e0] w0] eqn:Hemail;
    apply get_user_by_email_frame in Hemail; subst w0;
    try (intros H; now inversion H).
  destruct (UserRepository.get_user_by_username
              (UserCreate.username user_data) w)
    as [[[u |] | e0] w0] eqn:Hname;
    apply get_user_by_username_frame in Hname; subst w0;
    try (intros H; now inversion H).
  unfold UserService.create_user, UserRepository.create_user, insert_user.
  destruct (user_unique_ok _ (users w)); simpl; intros H; now inversion H.
Qed.

Lemma login_user_frame {hasher : Hash} {settings : Settings}
    env form_data w r w' :
  AuthApi.login_user env form_data w = (r, w') -> w' = w.
Proof.
  unfold AuthApi.login_user, UserService.get_user_by_username, bind.
  destruct (UserRepository.get_user_by_username _ w)
    as [[[u |] | e] w0] eqn:Hget;
    apply get_user_by_username_frame in Hget; subst w0;
    try (intros H; now inversion H).
  destruct (negb (verify_password _ _)); [intros H; now inversion H |].
  destruct (negb (User.confirmed u)); intros H; now inversion H.
Qed.

Lemma confirmed_email_state env token w r w' :
  AuthApi.confirmed_email env token w = (r, w') ->
  w' = w
  \/ exists u, In u (users w)
               /\ User.confirmed u = false
               /\ r = Returns EMAIL_CONFIRMED
               /\ w' = set_users w
                         (replace_user (User.set_confirmed u true) (users w)).
Proof.
  unfold AuthApi.confirmed_email, UserService.get_user_by_email,
    UserService.confirmed_email, UserRepository.confirmed_email, bind.
  destruct (UserRepository.get_user_by_email
              (AuthService.get_email_from_token env token) w)
    as [[[u |] | e] w0] eqn:Hget.
  - destruct (get_user_by_email_sound _ _ _ _ Hget) as [-> [Hin _]].
    destruct (User.confirmed u) eqn:Hconf.
    + intros H. left. now inversion H.
    + rewrite Hget. simpl. intros H. inversion H; subst.
      right. exists u. auto.
  - apply get_user_by_email_frame in Hget. subst w0.
    intros H. left. now inversion H.
  - apply get_user_by_email_frame in Hget. subst w0.
    intros H. left. now inversion H.
Qed.

Lemma request_email_frame env body_email w r w' :
  AuthApi.request_email env body_email w = (r, w') ->
  users w' = users w /\ contacts w' = contacts w.
Proof.
  unfold AuthApi.request_email, UserService.get_user_by_email, bind.
  destruct (UserRepository.get_user_by_email (Some body_email) w)
    as [[[u |] | e] w0] eqn:Hget;
    apply get_user_by_email_frame in Hget; subst w0.
  - destruct (User.confirmed u); simpl; intros H; inversion H; auto.
  - intros H; inversion H; auto.
  - intros H; inversion H; auto.
Qed.

Lemma confirm_reset_password_state env token w r w' :
  AuthApi.confirm_reset_password env token w = (r, w') ->
  w' = w
  \/ exists u p,
       In u (users w)
       /\ AuthService.get_email_from_token env token = Some (User.email u)
       /\ AuthService.get_password_from_token env token = Some p
       /\ r = Returns PASSWORD_CHANGED
       /\ exists u2,
            In u2 (users w) /\ User.id u2 = User.id u
            /\ w' = set_users w
                      (replace_user (User.set_hashed_password u2 p) (users w)).
Proof.
  unfold AuthApi.confirm_reset_password, UserService.get_user_by_email,
    UserService.reset_password, UserRepository.reset_password, bind.
  destruct (negb (AuthApi.truthy (AuthService.get_email_from_token env token))
            || negb (AuthApi.truthy
                       (AuthService.get_password_from_token env token))).
  { intros H. left. now inversion H. }
  destruct (UserRepository.get_user_by_email
              (AuthService.get_email_from_token env token) w)
    as [[[u |] | e] w0] eqn:Hget.
  - destruct (get_user_by_email_sound _ _ _ _ Hget) as [-> [Hin Hemail]].
    destruct (AuthService.get_password_from_token env token) as [p |] eqn:Hp.
    + destruct (UserRepository.get_user_by_id (User.id u) w)
        as [[[u2 |] | e] w0] eqn:Hid.
      * destruct (get_user_by_id_sound _ _ _ _ Hid) as [-> [Hin2 Hid2]].
        simpl. intros H. inversion H; subst.
        right. exists u, p. repeat split; auto. exists u2. auto.
      * apply get_user_by_id_frame in Hid. subst w0.
        simpl. intros H. left. now inversion H.
      * apply get_user_by_id_frame in Hid. subst w0.
        intros H. left. now inversion H.
    + intros H. left. now inversion H.
  - apply get_user_by_email_frame in Hget. subst w0.
    intros H. left. now inversion H.
  - apply get_user_by_email_frame in Hget. subst w0.
    intros H. left. now inversion H.
Qed.

Lemma update_avatar_url_state email url w r w' :
  UserService.update_avatar_url email url w = (r, w') ->
  w' = w
  \/ exists u, In u (users w)
               /\ email = Some (User.email u)
               /\ r = Returns (User.set_avatar u (Some url))
               /\ w' = set_users w
                         (replace_user (User.set_avatar u (Some url))
                                       (users w)).
Proof.
  unfold UserService.update_avatar_url, UserRepository.update_avatar_url, bind.
  destruct (UserRepository.get_user_by_email email w)
    as [[[u |] | e] w0] eqn:Hget.
  - destruct (get_user_by_email_sound _ _ _ _ Hget) as [-> [Hin Hemail]].
    unfold flush_user. intros H. inversion H; subst.
    right. exists u. auto.
  - apply get_user_by_email_frame in Hget. subst w0.
    intros H. left. now inversion H.
  - apply get_user_by_email_frame in Hget. subst w0.
    intros H. left. now inversion H.
Qed.

(** X10. The auth handlers keep the invariant of the [users] table: if
    primary keys, usernames and emails are unique, they still are after
    registration, login, email confirmation, a confirmation request, a
    reset request, a reset confirmation and an avatar update, for every
    input and every outcome. *)
Theorem users_invariant_preserved :
  forall (hasher : Hash) (gravatar : Gravatar) (settings : Settings)
         (env : Env) (w : World),
    users_wf (users w) ->
    (forall user_data r w',
        AuthApi.register_user env user_data w = (r, w') ->
        users_wf (users w'))
    /\ (forall form_data r w',
           AuthApi.login_user env form_data w = (r, w') ->
           users_wf (users w'))
    /\ (forall token r w',
           AuthApi.confirmed_email env token w = (r, w') ->
           users_wf (users w'))
    /\ (forall body_email r w',
           AuthApi.request_email env body_email w = (r, w') ->
           users_wf (users w'))
    /\ (forall body r w',
           AuthApi.reset_password_request env body w = (r, w') ->
           users_wf (users w'))
    /\ (forall token r w',
           AuthApi.confirm_reset_password env token w = (r, w') ->
           users_wf (users w'))
    /\ (forall email url r w',
           UserService.update_avatar_url email url w = (r, w') ->
           users_wf (users w')).
Proof.
  intros hasher gravatar settings env w Hwf.
  split; [| split; [| split; [| split; [| split; [| split]]]]].
  - intros user_data [new_user | e] w' Hrun.
    + destruct (register_user_inversion env user_data w new_user w' Hrun)
        as [_ [Hid [Hu ->]]].
      simpl. now apply users_wf_insert.
    + apply register_user_raises in Hrun. now subst.
  - intros form_data r w' Hrun. apply login_user_frame in Hrun. now subst.
  - intros token r w' Hrun.
    destruct (confirmed_email_state _ _ _ _ _ Hrun)
      as [-> | [u [Hin [_ [_ ->]]]]]; [exact Hwf |].
    simpl. now apply (users_wf_replace (fun r => User.set_confirmed r true)).
  - intros body_email r w' Hrun.
    apply request_email_frame in Hrun. destruct Hrun as [-> _]. exact Hwf.
  - intros body r w' Hrun.
    apply reset_password_request_frame in Hrun.
    destruct Hrun as [-> _]. exact Hwf.
  - intros token r w' Hrun.
    destruct (confirm_reset_password_state _ _ _ _ _ Hrun)
      as [-> | [u [p [_ [_ [_ [_ [u2 [Hin2 [_ ->]]]]]]]]]]; [exact Hwf |].
    simpl.
    now apply (users_wf_replace (fun r => User.set_hashed_password r p)).
  - intros email url r w' Hrun.
    destruct (update_avatar_url_state _ _ _ _ _ Hrun)
      as [-> | [u [Hin [_ [_ ->]]]]]; [exact Hwf |].
    simpl.
    now apply (users_wf_replace (fun r => User.set_avatar r (Some url))).
Qed.

(** deadpool resets his password; the table stays well-formed. *)
Lemma users_invariant_preserved_witness :
  users_wf (users SampleAuth.world)
  /\ forall r w',
       AuthApi.confirm_reset_password Sample.env SampleReset.token
         SampleAuth.world = (r, w') ->
       users_wf (users w').
Proof.
  split; [exact sample_users_wf |].
  intros r w' Hrun.
  exact (proj1 (proj2 (proj2 (proj2 (proj2 (proj2
           (users_invariant_preserved SampleAuth.hash SampleAuth.gravatar
              SampleAuth.settings Sample.env SampleAuth.world
              sample_users_wf))))))
           SampleReset.token r w' Hrun).
Defined.

(** ** Requests for a mail *)

(** X11. A confirmation request never touches the two tables.  On a
    well-formed [users] table it answers "already confirmed" for a
    stored, confirmed email and queues nothing; it queues one
    confirmation mail, to the stored address and name, for a stored,
    unconfirmed email; and for an email nobody has it answers "check
    your email", as it does for an unconfirmed one, and queues
    nothing. *)
Theorem request_email_outcomes :
  forall (env : Env) (body_email : string) (w : World),
    users_wf (users w) ->
    (forall r w',
        AuthApi.request_email env body_email w = (r, w') ->
        users w' = users w /\ contacts w' = contacts w)
    /\ (forall u, In u (users w) -> User.email u = body_email ->
                  User.confirmed u = true ->
                  AuthApi.request_email env body_email w
                  = (Returns EMAIL_ALREADY_CONFIRMED, w))
    /\ (forall u, In u (users w) -> User.email u = body_email ->
                  User.confirmed u = false ->
                  AuthApi.request_email env body_email w
                  = (Returns CHECK_YOUR_EMAIL,
                     mkWorld (users w) (contacts w)
                       (tasks w
                        ++ [send_confirm_email_task
                              (User.email u) (User.username u)
                              (base_url env)])))
    /\ ((forall u, In u (users w) -> User.email u <> body_email) ->
        AuthApi.request_email env body_email w
        = (Returns CHECK_YOUR_EMAIL, w)).
Proof.
  intros env body_email w Hwf.
  split; [apply request_email_frame |].
  unfold AuthApi.request_email, UserService.get_user_by_email, bind.
  split; [| split].
  - intros u Hin <- Hconf.
    now rewrite (get_user_by_email_found w Hwf u Hin), Hconf.
  - intros u Hin <- Hconf.
    now rewrite (get_user_by_email_found w Hwf u Hin), Hconf.
  - intros Hnone.
    rewrite (get_user_by_email_none w (Some body_email)); [reflexivity |].
    intros u Hin Heq. inversion Heq. now apply (Hnone u Hin).
Qed.

Lemma request_email_outcomes_witness :
  users_wf (users SampleAuth.world)
  /\ In SampleAuth.agent007 (users SampleAuth.world)
  /\ AuthApi.request_email Sample.env "agent007@gmail.com" SampleAuth.world
     = (Returns CHECK_YOUR_EMAIL,
        mkWorld (users SampleAuth.world) []
          [send_confirm_email_task "agent007@gmail.com" "agent007"
             "http://testserver/"]).
Proof.
  assert (Hin : In SampleAuth.agent007 (users SampleAuth.world))
    by (simpl; auto).
  split; [exact sample_users_wf |].
  split; [exact Hin |].
  exact (proj1 (proj2 (proj2
           (request_email_outcomes Sample.env "agent007@gmail.com"
              SampleAuth.world sample_users_wf)))
           SampleAuth.agent007 Hin eq_refl eq_refl).
Defined.

(** X12. A reset request for an email nobody has answers "check your
    email", the answer of a successful request, and queues nothing; a
    reset request for a stored user who is not confirmed is refused
    with 400 [EMAIL_NOT_CONFIRMED], and nothing is queued either. *)
Theorem reset_request_refusals :
  forall (hasher : Hash) (settings : Settings) (env : Env)
         (body : ResetPassword.t) (w : World),
    users_wf (users w) ->
    ((forall u, In u (users w) ->
                User.email u <> ResetPassword.email body) ->
     AuthApi.reset_password_request env body w
     = (Returns CHECK_YOUR_EMAIL, w))
    /\ (forall u, In u (users w) ->
                  User.email u = ResetPassword.email body ->
                  User.confirmed u = false ->
                  AuthApi.reset_password_request env body w
                  = (Raises (HTTPException 400 EMAIL_NOT_CONFIRMED), w)).
Proof.
  intros hasher settings env body w Hwf.
  unfold AuthApi.reset_password_request, UserService.get_user_by_email, bind.
  split.
  - intros Hnone.
    rewrite (get_user_by_email_none w (Some (ResetPassword.email body)));
      [reflexivity |].
    intros u Hin Heq. inversion Heq. now apply (Hnone u Hin).
  - intros u Hin <- Hconf.
    now rewrite (get_user_by_email_found w Hwf u Hin), Hconf.
Qed.

Lemma reset_request_refusals_witness :
  users_wf (users SampleAuth.world)
  /\ In SampleAuth.agent007 (users SampleAuth.world)
  /\ @AuthApi.reset_password_request SampleAuth.hash SampleAuth.settings
       Sample.env (ResetPassword.mk "agent007@gmail.com" "hunter22")
       SampleAuth.world
     = (Raises (HTTPException 400 EMAIL_NOT_CONFIRMED), SampleAuth.world).
Proof.
  assert (Hin : In SampleAuth.agent007 (users SampleAuth.world))
    by (simpl; auto).
  split; [exact sample_users_wf |].
  split; [exact Hin |].
  exact (proj2 (reset_request_refusals SampleAuth.hash SampleAuth.settings
                  Sample.env (ResetPassword.mk "agent007@gmail.com" "hunter22")
                  SampleAuth.world sample_users_wf)
           SampleAuth.agent007 Hin eq_refl eq_refl).
Defined.

(** ** The avatar *)



(** ** Replaying a reset link *)

Lemma confirm_reset_password_inversion env token w d w' :
  users_wf (users w) ->
  AuthApi.confirm_reset_password env token w = (Returns d, w') ->
  exists u p,
    In u (users w)
    /\ AuthService.get_email_from_token env token = Some (User.email u)
    /\ AuthService.get_password_from_token env token = Some p
    /\ d = PASSWORD_CHANGED
    /\ w' = set_users w
              (replace_user (User.set_hashed_password u p) (users w)).
Proof.
  intros Hwf.
  unfold AuthApi.confirm_reset_password, UserService.get_user_by_email,
    UserService.reset_password, UserRepository.reset_password, bind.
  destruct (negb (AuthApi.truthy (AuthService.get_email_from_token env token))
            || negb (AuthApi.truthy
                       (AuthService.get_password_from_token env token)));
    [discriminate |].
  destruct (UserRepository.get_user_by_email
              (AuthService.get_email_from_token env token) w)
    as [[[u |] | e] w0] eqn:Hget; try discriminate.
  destruct (get_user_by_email_sound _ _ _ _ Hget) as [-> [Hin Hemail]].
  destruct (AuthService.get_password_from_token env token) as [p |] eqn:Hp;
    [| discriminate].
  rewrite (get_user_by_id_found w Hwf u Hin). simpl.
  intros H. inversion H; subst. exists u, p. auto.
Qed.

Lemma replace_user_same u l :
  NoDup (map User.id l) -> In u l -> replace_user u l = l.
Proof.
  intros Hnd Hin.
  rewrite (replace_user_map (fun r => r) u l Hnd Hin eq_refl).
  rewrite <- (map_id l) at 2. apply map_ext.
  intros r. now destruct (User.id r =? User.id u).
Qed.

Lemma get_password_from_token_later env env' token p p' :
  AuthService.get_password_from_token env token = Some p ->
  AuthService.get_password_from_token env' token = Some p' ->
  p' = p.
Proof.
  unfold AuthService.get_password_from_token, AuthService.verify.
  destruct (signature_ok token && (now env <=? exp token)); [| discriminate].
  destruct (signature_ok token && (now env' <=? exp token)); [| discriminate].
  congruence.
Qed.

(** X14. A reset link can be followed again without harm: once
    [confirm_reset_password] has answered "password changed", the same
    token presented again, at any time, leaves the state as the first
    call left it (the same hash is written over itself, or the token
    has expired and nothing is written). *)
Theorem confirm_reset_password_replay :
  forall (env env' : Env) (token : Token) (w w' : World),
    users_wf (users w) ->
    AuthApi.confirm_reset_password env token w
    = (Returns PASSWORD_CHANGED, w') ->
    forall r2 w2,
      AuthApi.confirm_reset_password env' token w' = (r2, w2) ->
      w2 = w'.
Proof.
  intros env env' token w w' Hwf Hrun r2 w2 Hagain.
  destruct (confirm_reset_password_inversion _ _ _ _ _ Hwf Hrun)
    as [u [p [Hin [Hemail [Hp [_ ->]]]]]].
  set (u' := User.set_hashed_password u p) in *.
  assert (Hwf' : users_wf (replace_user u' (users w))).
  { now apply (users_wf_replace (fun r => User.set_hashed_password r p)). }
  assert (Hin' : In u' (replace_user u' (users w))).
  { unfold replace_user. apply in_map_iff. exists u.
    split; [| exact Hin]. unfold u'. simpl. now rewrite Z.eqb_refl. }
  destruct (confirm_reset_password_state _ _ _ _ _ Hagain)
    as [-> | [v [q [Hv [Hemail' [Hq [_ [v2 [Hv2 [Hid2 ->]]]]]]]]]];
    [reflexivity |].
  simpl in Hv, Hv2. simpl.
  assert (Hq' : q = p) by exact (get_password_from_token_later _ _ _ _ _ Hp Hq).
  subst q.
  assert (Hsame : User.email v = User.email u).
  { destruct (get_email_from_token_later env env' token _ Hemail)
      as [H | H]; congruence. }
  assert (Hv' : v = u').
  { destruct Hwf' as [_ [_ Hnd]].
    apply (NoDup_map_inj User.email (replace_user u' (users w))); auto. }
  assert (Hv2' : v2 = u').
  { destruct Hwf' as [Hnd _].
    apply (NoDup_map_inj User.id (replace_user u' (users w))); auto.
    congruence. }
  subst v v2.
  replace (User.set_hashed_password u' p) with u' by reflexivity.
  unfold set_users at 1. simpl.
  rewrite (replace_user_same u' (replace_user u' (users w))
             (proj1 Hwf') Hin').
  reflexivity.
Qed.

Lemma confirm_reset_password_replay_witness :
  users_wf (users SampleAuth.world)
  /\ exists w',
       AuthApi.confirm_reset_password Sample.env SampleReset.token
         SampleAuth.world = (Returns PASSWORD_CHANGED, w')
       /\ forall r2 w2,
            AuthApi.confirm_reset_password Sample.env SampleReset.token w'
            = (r2, w2) -> w2 = w'.
Proof.
  split; [exact sample_users_wf |].
  eexists.
  assert (Hrun : AuthApi.confirm_reset_password Sample.env SampleReset.token
                   SampleAuth.world
                 = (Returns PASSWORD_CHANGED,
                    set_users SampleAuth.world
                      (replace_user
                         (User.set_hashed_password SampleAuth.deadpool
                            "salt$hunter22")
                         (users SampleAuth.world))))
    by reflexivity.
  split; [exact Hrun |].
  exact (confirm_reset_password_replay Sample.env Sample.env SampleReset.token
           SampleAuth.world _ sample_users_wf Hrun).
Defined.

(** ** From registration to the first login *)

Lemma issued_token_subject env env' data ttl :
  now env' <= now env + ttl ->
  AuthService.verify env' (AuthService.issue env data ttl) = Some data.
Proof.
  intros Hle. unfold AuthService.verify, AuthService.issue. simpl.
  replace (now env' <=? now env + ttl) with true
    by (symmetry; now apply Z.leb_le).
  reflexivity.
Qed.

(** X15. From registration to the first login: on a well-formed table,
    with a hasher that verifies what it hashed, a body whose email and
    username are free is registered; a login with its credentials is
    then refused as not confirmed; following the link of the queued
    confirmation mail while its token is alive confirms the email; and
    the same login then returns an access token whose subject is the
    username. *)
Theorem register_confirm_login :
  forall (hasher : Hash) (gravatar : Gravatar) (settings : Settings)
         (env env2 env3 : Env) (user_data : UserCreate.t) (w : World),
    users_wf (users w) ->
    hash_coherent ->
    (forall u, In u (users w) -> User.email u <> UserCreate.email user_data) ->
    (forall u, In u (users w) ->
               User.username u <> UserCreate.username user_data) ->
    now env2 <= now env + EMAIL_TOKEN_TTL ->
    exists new_user w1 w2 resp,
      AuthApi.register_user env user_data w = (Returns new_user, w1)
      /\ AuthApi.login_user env2
           (OAuth2PasswordRequestForm.mk (UserCreate.username user_data)
                                         (UserCreate.password user_data)) w1
         = (Raises (HTTPException 401 USER_NOT_CONFIRMED), w1)
      /\ AuthApi.confirmed_email env2
           (mail_token
              (EmailService.run env
                 (send_confirm_email_task (UserCreate.email user_data)
                    (UserCreate.username user_data) (base_url env)))) w1
         = (Returns EMAIL_CONFIRMED, w2)
      /\ AuthApi.login_user env3
           (OAuth2PasswordRequestForm.mk (UserCreate.username user_data)
                                         (UserCreate.password user_data)) w2
         = (Returns resp, w2)
      /\ AuthService.get "sub" (claims (AuthApi.access_token resp))
         = Some (UserCreate.username user_data).
Proof.
  intros hasher gravatar settings env env2 env3 user_data w
         Hwf Hcoh Hemail Hname Halive.
  destruct (register_user_fresh env user_data w Hemail Hname)
    as [new_user [w1 Hreg]].
  destruct (register_user_inversion env user_data w new_user w1 Hreg)
    as [[Hn [He [Hh [_ [Hc _]]]]] [Hid [Hu Hw1]]].
  assert (Hwf1 : users_wf (users w1))
    by (subst w1; simpl; now apply users_wf_insert).
  assert (Hin1 : In new_user (users w1))
    by (subst w1; simpl; apply in_or_app; right; now left).
  assert (Hverify : verify_password (UserCreate.password user_data)
                      (User.hashed_password new_user) = true)
    by (rewrite Hh; apply Hcoh).
  set (form := OAuth2PasswordRequestForm.mk (UserCreate.username user_data)
                                            (UserCreate.password user_data)).
  set (token := mail_token
                  (EmailService.run env
                     (send_confirm_email_task (UserCreate.email user_data)
                        (UserCreate.username user_data) (base_url env)))).
  assert (Htoken : AuthService.get_email_from_token env2 token
                   = Some (User.email new_user)).
  { unfold token, AuthService.get_email_from_token. simpl.
    unfold AuthService.create_email_token.
    rewrite issued_token_subject by exact Halive.
    simpl. now rewrite He. }
  set (u2 := User.set_confirmed new_user true).
  set (w2 := set_users w1 (replace_user u2 (users w1))).
  assert (Hwf2 : users_wf (users w2)).
  { simpl. now apply (users_wf_replace (fun r => User.set_confirmed r true)). }
  assert (Hin2 : In u2 (users w2)).
  { simpl. unfold replace_user. apply in_map_iff. exists new_user.
    split; [| exact Hin1]. unfold u2. simpl. now rewrite Z.eqb_refl. }
  exists new_user, w1, w2.
  exists (AuthApi.mkTokenResponse
            (AuthService.create_access_token env3
               [("sub"%string, User.username u2)]) "bearer").
  split; [exact Hreg |].
  split.
  { rewrite (login_user_known env2 form w1 new_user Hwf1 Hin1 Hn).
    simpl. now rewrite Hverify, Hc. }
  split.
  { exact (confirmed_email_first env2 token w1 new_user Hwf1 Hin1 Htoken Hc). }
  split.
  { rewrite (login_user_known env3 form w2 u2 Hwf2 Hin2 Hn).
    simpl. now rewrite Hverify. }
  simpl. now rewrite Hn.
Qed.

Lemma sample_flow_hash_coherent : @hash_coherent SampleFlow.hash.
Proof. intros salt plain. simpl. apply String.eqb_refl. Qed.

Lemma mallory_is_new :
  (forall u, In u (users SampleAuth.world) ->
             User.email u <> UserCreate.email SampleRegister.mallory)
  /\ (forall u, In u (users SampleAuth.world) ->
                User.username u <> UserCreate.username SampleRegister.mallory).
Proof.
  split; intros u [<- | [<- | []]]; discriminate.
Qed.

(** mallory registers, is refused, confirms two hours later, logs in. *)
Lemma register_confirm_login_witness :
  users_wf (users SampleAuth.world)
  /\ @hash_coherent SampleFlow.hash
  /\ now SampleConfirm.later
     <= now Sample.env + @EMAIL_TOKEN_TTL SampleAuth.settings
  /\ exists new_user w1 w2 resp,
       @AuthApi.register_user SampleFlow.hash SampleAuth.gravatar Sample.env
         SampleRegister.mallory SampleAuth.world = (Returns new_user, w1)
       /\ @AuthApi.login_user SampleFlow.hash SampleAuth.settings
            SampleConfirm.later SampleRegister2.mallory_form w1
          = (Raises (HTTPException 401 USER_NOT_CONFIRMED), w1)
       /\ @AuthApi.login_user SampleFlow.hash SampleAuth.settings
            SampleConfirm.later SampleRegister2.mallory_form w2
          = (Returns resp, w2).
Proof.
  assert (Halive : now SampleConfirm.later
                   <= now Sample.env + @EMAIL_TOKEN_TTL SampleAuth.settings)
    by (vm_compute; discriminate).
  split; [exact sample_users_wf |].
  split; [exact sample_flow_hash_coherent |].
  split; [exact Halive |].
  destruct (register_confirm_login SampleFlow.hash SampleAuth.gravatar
              SampleAuth.settings Sample.env SampleConfirm.later
              SampleConfirm.later SampleRegister.mallory SampleAuth.world
              sample_users_wf sample_flow_hash_coherent
              (proj1 mallory_is_new) (proj2 mallory_is_new) Halive)
    as [new_user [w1 [w2 [resp [Hreg [Hrefused [_ [Hlogin _]]]]]]]].
  exists new_user, w1, w2, resp. auto.
Defined.

(** ** From a reset request to the login with the new password *)

(** X16. The reset flow end to end: on a well-formed table, with a
    hasher that verifies what it hashed, a confirmed user asks for a
    reset; following the link of the queued mail while its token is
    alive answers "password changed" and writes the pending hash into
    that user's row and nowhere else; the user then logs in with the new
    password.  Once the token has expired the link is answered 400 and
    writes nothing. *)
Theorem reset_flow :
  forall (hasher : Hash) (settings : Settings) (env env2 env3 : Env)
         (body : ResetPassword.t) (w : World) (u : User.t),
    users_wf (users w) ->
    hash_coherent ->
    In u (users w) ->
    User.email u = ResetPassword.email body ->
    User.confirmed u = true ->
    User.email u <> EmptyString ->
    pending_hash env body <> EmptyString ->
    exists w1 reset_token,
      AuthApi.reset_password_request env body w
      = (Returns CHECK_YOUR_EMAIL, w1)
      /\ tasks w1
         = tasks w
           ++ [send_reset_password_email_task (ResetPassword.email body)
                 (User.username u) (base_url env) reset_token]
      /\ (now env2 <= now env + ACCESS_TOKEN_TTL ->
          exists w2 resp,
            AuthApi.confirm_reset_password env2 reset_token w1
            = (Returns PASSWORD_CHANGED, w2)
            /\ only_row_changed
                 (fun r => User.set_hashed_password r (pending_hash env body))
                 (User.id u) (users w) (users w2)
            /\ AuthApi.login_user env3
                 (OAuth2PasswordRequestForm.mk (User.username u)
                                               (ResetPassword.password body))
                 w2
               = (Returns resp, w2))
      /\ (now env + ACCESS_TOKEN_TTL < now env2 ->
          AuthApi.confirm_reset_password env2 reset_token w1
          = (Raises (HTTPException 400 INVALID_OR_EXPIRED_TOKEN), w1)).
Proof.
  intros hasher settings env env2 env3 body w u
         Hwf Hcoh Hin Hemail Hconf Hne Hnh.
  set (reset_token := AuthService.create_access_token env
                        [("sub"%string, User.email u);
                         ("password"%string, pending_hash env body)]).
  set (w1 := mkWorld (users w) (contacts w)
               (tasks w
                ++ [send_reset_password_email_task (ResetPassword.email body)
                      (User.username u) (base_url env) reset_token])).
  exists w1, reset_token.
  split; [exact (reset_password_request_confirmed env body w u
                   Hwf Hin Hemail Hconf) |].
  split; [reflexivity |].
  split.
  - intros Halive.
    assert (Hverify : AuthService.verify env2 reset_token
                      = Some [("sub"%string, User.email u);
                              ("password"%string, pending_hash env body)])
      by (apply issued_token_subject; exact Halive).
    assert (Hsub : AuthService.get_email_from_token env2 reset_token
                   = Some (User.email u))
      by (unfold AuthService.get_email_from_token; now rewrite Hverify).
    assert (Hpwd : AuthService.get_password_from_token env2 reset_token
                   = Some (pending_hash env body))
      by (unfold AuthService.get_password_from_token; now rewrite Hverify).
    set (u2 := User.set_hashed_password u (pending_hash env body)).
    set (w2 := set_users w1 (replace_user u2 (users w1))).
    assert (Hwf2 : users_wf (users w2)).
    { simpl.
      now apply (users_wf_replace
                   (fun r => User.set_hashed_password r (pending_hash env body))). }
    assert (Hin2 : In u2 (users w2)).
    { simpl. unfold replace_user. apply in_map_iff. exists u.
      split; [| exact Hin]. unfold u2. simpl. now rewrite Z.eqb_refl. }
    exists w2.
    exists (AuthApi.mkTokenResponse
              (AuthService.create_access_token env3
                 [("sub"%string, User.username u2)]) "bearer").
    split.
    { exact (confirm_reset_password_found env2 reset_token w1 u
               (pending_hash env body) Hwf Hin Hsub Hpwd Hne Hnh). }
    split.
    { unfold only_row_changed. simpl.
      apply (replace_user_map
               (fun r => User.set_hashed_password r (pending_hash env body)) u);
        [apply Hwf | exact Hin | reflexivity]. }
    rewrite (login_user_known env3
               (OAuth2PasswordRequestForm.mk (User.username u)
                                             (ResetPassword.password body))
               w2 u2 Hwf2 Hin2 eq_refl).
    simpl. unfold pending_hash. now rewrite Hcoh, Hconf.
  - intros Hexpired.
    apply confirm_reset_password_falsy. left.
    unfold AuthService.get_email_from_token.
    rewrite verify_rejects; [reflexivity |].
    right. simpl. lia.
Qed.

(** deadpool resets his password and logs in with the new one. *)
Lemma reset_flow_witness :
  users_wf (users SampleFlow.world)
  /\ @hash_coherent SampleFlow.hash
  /\ In SampleFlow.deadpool (users SampleFlow.world)
  /\ now SampleFlow.soon <= now Sample.env + @ACCESS_TOKEN_TTL SampleAuth.settings
  /\ exists w1 reset_token w2 resp,
       @AuthApi.reset_password_request SampleFlow.hash SampleAuth.settings
         Sample.env SampleReset.body SampleFlow.world
       = (Returns CHECK_YOUR_EMAIL, w1)
       /\ AuthApi.confirm_reset_password SampleFlow.soon reset_token w1
          = (Returns PASSWORD_CHANGED, w2)
       /\ @AuthApi.login_user SampleFlow.hash SampleAuth.settings
            SampleFlow.soon SampleFlow.new_password_form w2
          = (Returns resp, w2).
Proof.
  assert (Hwf : users_wf (users SampleFlow.world)).
  { unfold users_wf; simpl.
    repeat split; repeat constructor; simpl;
      intros H; repeat (destruct H as [H | H]; try discriminate); exact H. }
  assert (Hin : In SampleFlow.deadpool (users SampleFlow.world))
    by (simpl; auto).
  assert (Halive : now SampleFlow.soon
                   <= now Sample.env + @ACCESS_TOKEN_TTL SampleAuth.settings)
    by (vm_compute; discriminate).
  split; [exact Hwf |].
  split; [exact sample_flow_hash_coherent |].
  split; [exact Hin |].
  split; [exact Halive |].
  destruct (reset_flow SampleFlow.hash SampleAuth.settings Sample.env
              SampleFlow.soon SampleFlow.soon SampleReset.body
              SampleFlow.world SampleFlow.deadpool
              Hwf sample_flow_hash_coherent Hin eq_refl eq_refl
              ltac:(discriminate) ltac:(discriminate))
    as [w1 [reset_token [Hreq [_ [Hfollow _]]]]].
  destruct (Hfollow Halive) as [w2 [resp [Hconfirm [_ Hlogin]]]].
  exists w1, reset_token, w2, resp. auto.
Defined.

(** ** Reading one contact *)

(** X17. On a table with unique primary keys, the route [get_contact]
    returns a contact exactly when that contact is stored under the
    requested key and belongs to the caller; it never writes. *)
Theorem get_contact_iff_owned :
  forall (contact_id : Z) (user : User.t) (w : World) (c : Contact.t),
    NoDup (map Contact.id (contacts w)) ->
    (ContactsApi.get_contact contact_id user w = (Returns c, w)
     <-> In c (contacts w)
         /\ Contact.id c = contact_id
         /\ Contact.user_id c = User.id user)
    /\ forall r w', ContactsApi.get_contact contact_id user w = (r, w') ->
                    w' = w.
Proof.
  intros contact_id user w c Hnd.
  unfold ContactsApi.get_contact, ContactService.get_contact, bind.
  split; [split |].
  - destruct (ContactRepository.get_contact_by_id contact_id user w)
      as [[[c0 |] | e] w0] eqn:Hget; simpl; try discriminate.
    intros H. injection H as Hc Hw. subst c0 w0.
    destruct (get_contact_by_id_sound _ _ _ _ _ Hget) as [_ Hfacts].
    exact Hfacts.
  - intros [Hin [Hid Hown]]. subst contact_id.
    now rewrite (get_contact_by_id_owned w c user Hnd Hin Hown).
  - intros r w'.
    destruct (ContactRepository.get_contact_by_id contact_id user w)
      as [[[c0 |] | e] w0] eqn:Hget.
    + destruct (get_contact_by_id_sound _ _ _ _ _ Hget) as [-> _].
      simpl. intros H. now inversion H.
    + unfold ContactRepository.get_contact_by_id, bind, select_contacts in Hget.
      destruct (filter _ (contacts w)) as [| x [| y rest]]; simpl in Hget;
        inversion Hget; subst.
      simpl. intros H. now inversion H.
    + unfold ContactRepository.get_contact_by_id, bind, select_contacts in Hget.
      destruct (filter _ (contacts w)) as [| x [| y rest]]; simpl in Hget;
        inversion Hget; subst.
      intros H. now inversion H.
Qed.

Lemma get_contact_iff_owned_witness :
  NoDup (map Contact.id (contacts Sample.world))
  /\ In Sample.bob (contacts Sample.world)
  /\ ContactsApi.get_contact 1 Sample.deadpool Sample.world
     = (Returns Sample.bob, Sample.world).
Proof.
  assert (Hnd : NoDup (map Contact.id (contacts Sample.world)))
    by exact (proj1 sample_contacts_wf).
  assert (Hin : In Sample.bob (contacts Sample.world)) by (simpl; auto).
  split; [exact Hnd |]. split; [exact Hin |].
  apply (proj1 (get_contact_iff_owned 1 Sample.deadpool Sample.world
                  Sample.bob Hnd)).
  split; [exact Hin | split; reflexivity].
Defined.

(** X18. Whoever is listed can be fetched: with [skip] and [limit] not
    negative and primary keys unique, every contact [get_contacts]
    returns to a user is returned to that user by [get_contact] on its
    key. *)
Theorem listed_contacts_can_be_fetched :
  forall (backend : Backend) (first_name last_name email : string)
         (skip limit : Z) (user : User.t) (w w' : World)
         (result : list Contact.t),
    0 <= skip -> 0 <= limit ->
    NoDup (map Contact.id (contacts w)) ->
    ContactsApi.get_contacts first_name last_name email skip limit user w
    = (Returns result, w') ->
    forall c, In c result ->
              ContactsApi.get_contact (Contact.id c) user w = (Returns c, w).
Proof.
  intros backend first_name last_name email skip limit user w w' result
         Hskip Hlimit Hnd Hrun c Hin.
  rewrite get_contacts_run in Hrun by assumption.
  injection Hrun as Hres _. subst result.
  apply in_firstn, in_skipn, filter_In in Hin. destruct Hin as [Hin Hp].
  rewrite !andb_true_iff in Hp. destruct Hp as [[[Hown _] _] _].
  apply Z.eqb_eq in Hown.
  unfold ContactsApi.get_contact, ContactService.get_contact, bind.
  now rewrite (get_contact_by_id_owned w c user Hnd Hin Hown).
Qed.

Lemma listed_contacts_can_be_fetched_witness :
  0 <= 0 /\ 0 <= 100
  /\ NoDup (map Contact.id (contacts Sample.world))
  /\ @ContactsApi.get_contacts SampleListing.backend "" "" "" 0 100
       Sample.deadpool Sample.world = (Returns [Sample.bob], Sample.world)
  /\ ContactsApi.get_contact 1 Sample.deadpool Sample.world
     = (Returns Sample.bob, Sample.world).
Proof.
  assert (H0 : 0 <= 0) by lia.
  assert (H100 : 0 <= 100) by lia.
  assert (Hnd : NoDup (map Contact.id (contacts Sample.world)))
    by exact (proj1 sample_contacts_wf).
  assert (Hrun : @ContactsApi.get_contacts SampleListing.backend "" "" "" 0 100
                   Sample.deadpool Sample.world
                 = (Returns [Sample.bob], Sample.world))
    by (vm_compute; reflexivity).
  repeat (split; [assumption |]).
  apply (listed_contacts_can_be_fetched SampleListing.backend "" "" "" 0 100
           Sample.deadpool Sample.world Sample.world [Sample.bob]
           H0 H100 Hnd Hrun Sample.bob).
  now left.
Defined.

(** ** Creating the same contact twice *)

(** X19. A second create is refused: once [create_contact] has returned
    a contact, a create by any user with a body that has the same email
    or the same phone number is answered 400 and stores nothing. *)
Theorem create_twice_refused :
  forall (env env' : Env) (body body' : ContactModel.t) (user user' : User.t)
         (w w' : World) (row : Contact.t),
    ContactService.create_contact env body user w = (Returns row, w') ->
    ContactModel.email body' = ContactModel.email body
    \/ ContactModel.phone_number body' = ContactModel.phone_number body ->
    ContactsApi.create_contact env' body' user' w'
    = (Raises (HTTPException 400
                 (ContactService.duplicate_detail
                    (ContactModel.email body')
                    (ContactModel.phone_number body'))), w').
Proof.
  intros env env' body body' user user' w w' row Hrun Hsame.
  unfold ContactsApi.create_contact.
  apply create_contact_duplicate_iff.
  exists row. split.
  - destruct (create_contact_returns _ _ _ _ _ _ Hrun) as [-> _].
    simpl. apply in_or_app. right. now left.
  - unfold ContactService.create_contact, bind in Hrun.
    rewrite is_contact_exists_spec in Hrun.
    destruct (existsb _ (contacts w)); [discriminate |].
    unfold ContactRepository.create_contact, insert_contact in Hrun.
    destruct (not_null_ok _ && unique_ok _ _); [| discriminate].
    injection Hrun as Hrow _. subst row. simpl.
    destruct Hsame as [H | H]; rewrite H; auto.
Qed.

Lemma create_twice_refused_witness :
  exists row w',
    ContactService.create_contact Sample.env SampleCreate.body_with_birth_date
      Sample.deadpool SampleCreate.empty = (Returns row, w')
    /\ ContactsApi.create_contact Sample.env SampleCreate.body_with_birth_date
         Sample.agent007 w'
       = (Raises (HTTPException 400
                    (ContactService.duplicate_detail "carol@example.com"
                       "555-222-3333")), w').
Proof.
  eexists. eexists.
  assert (Hrun : ContactService.create_contact Sample.env
                   SampleCreate.body_with_birth_date Sample.deadpool
                   SampleCreate.empty
                 = (Returns
                      (Contact.mk 1 "Carol" "Danvers" "carol@example.com"
                         "555-222-3333" (Some 726468) 1793808000 1793808000
                         1 None),
                    set_contacts SampleCreate.empty
                      [Contact.mk 1 "Carol" "Danvers" "carol@example.com"
                         "555-222-3333" (Some 726468) 1793808000 1793808000
                         1 None]))
    by reflexivity.
  split; [exact Hrun |].
  exact (create_twice_refused Sample.env Sample.env
           SampleCreate.body_with_birth_date SampleCreate.body_with_birth_date
           Sample.deadpool Sample.agent007 SampleCreate.empty _ _ Hrun
           (or_introl eq_refl)).
Defined.

(** ** The birthday query, again *)

(** X20. The birthday route validates and is monotone: a [days] below 1
    is refused before any query is made; and as long as [today + days]
    stays a date, a longer horizon only adds contacts: whoever is
    returned for [days1] is returned for every [days2 >= days1]. *)
Theorem upcoming_birthdays_monotone :
  forall (env : Env) (user : User.t) (w : World),
    (forall days, days < 1 ->
                  ContactsApi.get_upcoming_birthdays env days user w
                  = (Raises RequestValidationError, w))
    /\ forall days1 days2,
         1 <= days1 -> days1 <= days2 ->
         ContactRepository.MINORDINAL <= today env ->
         today env + days2 <= ContactRepository.MAXORDINAL ->
         exists result1 result2,
           ContactsApi.get_upcoming_birthdays env days1 user w
           = (Returns result1, w)
           /\ ContactsApi.get_upcoming_birthdays env days2 user w
              = (Returns result2, w)
           /\ incl result1 result2.
Proof.
  intros env user w. split.
  - intros days Hdays. unfold ContactsApi.get_upcoming_birthdays.
    replace (days <? 1) with true by (symmetry; now apply Z.ltb_lt).
    reflexivity.
  - intros days1 days2 H1 H12 Hlo Hhi.
    unfold ContactsApi.get_upcoming_birthdays,
      ContactService.get_upcoming_birthdays.
    replace (days1 <? 1) with false by (symmetry; apply Z.ltb_ge; lia).
    replace (days2 <? 1) with false by (symmetry; apply Z.ltb_ge; lia).
    rewrite !get_upcoming_birthdays_run by lia.
    eexists. eexists. split; [reflexivity |]. split; [reflexivity |].
    intros c Hin.
    apply (Permutation_in _ (order_by_birth_date_perm _)) in Hin.
    apply filter_In in Hin. destruct Hin as [Hin Hb].
    apply (Permutation_in _ (Permutation_sym (order_by_birth_date_perm _))).
    apply filter_In. split; [exact Hin |].
    apply birthday_between_spec in Hb. apply birthday_between_spec.
    destruct Hb as [d [Hd Hrange]]. exists d. split; [exact Hd | lia].
Qed.

Lemma upcoming_birthdays_monotone_witness :
  1 <= 1 /\ 1 <= 7
  /\ ContactRepository.MINORDINAL <= today Sample.env
  /\ today Sample.env + 7 <= ContactRepository.MAXORDINAL
  /\ exists result1 result2,
       ContactsApi.get_upcoming_birthdays Sample.env 1 Sample.deadpool
         Sample.world = (Returns result1, Sample.world)
       /\ ContactsApi.get_upcoming_birthdays Sample.env 7 Sample.deadpool
            Sample.world = (Returns result2, Sample.world)
       /\ incl result1 result2.
Proof.
  assert (H1 : 1 <= 1) by lia.
  assert (H7 : 1 <= 7) by lia.
  assert (Hlo : ContactRepository.MINORDINAL <= today Sample.env)
    by (vm_compute; discriminate).
  assert (Hhi : today Sample.env + 7 <= ContactRepository.MAXORDINAL)
    by (vm_compute; discriminate).
  repeat (split; [assumption |]).
  exact (proj2 (upcoming_birthdays_monotone Sample.env Sample.deadpool
                  Sample.world) 1 7 H1 H7 Hlo Hhi).
Defined.

(** ** A confirmation link that leads nowhere *)

(** X21. The confirmation link fails closed: when the token does not
    verify, or verifies to an email no stored user has, the answer is
    400 "Verification error" and nothing is written. *)
Theorem confirmed_email_refusals :
  forall (env : Env) (token : Token) (w : World),
    (signature_ok token = false \/ exp token < now env ->
     AuthApi.confirmed_email env token w
     = (Raises (HTTPException 400 (Text "Verification error")), w))
    /\ ((forall u, In u (users w) ->
                   Some (User.email u)
                   <> AuthService.get_email_from_token env token) ->
        AuthApi.confirmed_email env token w
        = (Raises (HTTPException 400 (Text "Verification error")), w)).
Proof.
  intros env token w. split.
  - intros Hbad. apply confirmed_email_unverified.
    unfold AuthService.get_email_from_token.
    now rewrite (verify_rejects env token Hbad).
  - intros Hnone.
    unfold AuthApi.confirmed_email, UserService.get_user_by_email, bind.
    now rewrite (get_user_by_email_none w _ Hnone).
Qed.

(** The confirmation token of agent007, a fortnight later. *)
Lemma confirmed_email_refusals_witness :
  exp SampleConfirm.token < 1795017600
  /\ AuthApi.confirmed_email
       (mkEnv 1795017600 739938 "salt" "http://testserver/")
       SampleConfirm.token SampleAuth.world
     = (Raises (HTTPException 400 (Text "Verification error")),
        SampleAuth.world).
Proof.
  assert (Hexp : exp SampleConfirm.token < 1795017600)
    by (vm_compute; reflexivity).
  split; [exact Hexp |].
  exact (proj1 (confirmed_email_refusals
                  (mkEnv 1795017600 739938 "salt" "http://testserver/")
                  SampleConfirm.token SampleAuth.world)
           (or_intror Hexp)).
Defined.
